(** * LocalMemoryClient: a shallow embedding of the memory engine

    The client of [client.ts] keeps long-term memories in a vector table
    ("memories") of an on-disk store, asks a remote service for embeddings
    and keeps a user profile in a JSON file.  The development below embeds
    the client's methods as state-passing functions over a [State] that
    holds the client's own fields ([db], [table], [initPromise]) next to
    the world it talks to (clock, random source, embedding service, store
    and profile file), and settles the properties of the specification
    against them.

    Conventions.
    - A JS string is a [string]; one character of the model stands for one
      UTF-16 code unit of the source (the code units below 256).
    - An awaited promise that rejects and a [throw] are the same thing for
      a caller that awaits: a computation ends in [Return v] or [Throw e].
    - The store and the file system answer as their contracts say; the
      failures that exist are the ones the source reacts to or causes: a
      rejected embedding request, a missing or unparsable profile file, a
      filter the store refuses, a search for no row or with a vector of
      the wrong dimension, a table handle whose table is gone, a missing
      connection.
    - The store reads the filter [id = "text"] by itself.  The model
      fixes what it does with one equality whose literal holds no double
      quote (the literal is taken as it stands, a backslash being a
      character like any other); what it makes of any other text is left
      to the world ([w_sql]).
    - [log.debug], [log.debugRequest] and [log.debugResponse] are left out;
      [log.warn] of the retry loop is kept as an event. *)

From Stdlib Require Import List String Ascii Bool Arith NArith QArith Lia.
From Stdlib Require Import DecimalString Sorted.
Import ListNotations.

Set Warnings "-abstract-large-number".

Open Scope list_scope.
Open Scope string_scope.
Open Scope nat_scope.

(** ** Strings *)

Definition dquote : ascii := "034"%char.
Definition squote : ascii := "'"%char.
Definition backslash : ascii := "\"%char.

(** U+2026, a single code unit in the source; the 8-bit characters of the
    model hold it as a constant string. *)
Definition ellipsis : string := "…".

(** Template-literal rendering of a non-negative integer. *)
Definition string_of_nat (n : nat) : string :=
  NilEmpty.string_of_uint (Nat.to_uint n).

(** White space and line terminators of [String.prototype.trim] among the
    code units the model has. *)
Definition isWhiteSpace (c : ascii) : bool :=
  existsb (N.eqb (N_of_ascii c)) [9; 10; 11; 12; 13; 32; 160]%N.

Fixpoint trimStart (s : string) : string :=
  match s with
  | EmptyString => EmptyString
  | String c s' => if isWhiteSpace c then trimStart s' else s
  end.

Fixpoint trimEnd (s : string) : string :=
  match s with
  | EmptyString => EmptyString
  | String c s' =>
      match trimEnd s' with
      | EmptyString => if isWhiteSpace c then EmptyString else String c EmptyString
      | t => String c t
      end
  end.

Definition trim (s : string) : string := trimEnd (trimStart s).

(** [s.replace(/c/g, by)] for a one-character pattern. *)
Fixpoint replaceAll (c : ascii) (by_ : string) (s : string) : string :=
  match s with
  | EmptyString => EmptyString
  | String x s' =>
      if Ascii.eqb x c then by_ ++ replaceAll c by_ s'
      else String x (replaceAll c by_ s')
  end.

(** [a || b] on strings: the empty string is falsy. *)
Definition or_else (a b : string) : string :=
  match a with EmptyString => b | _ => a end.

(** ** Module-level functions and constants of the client *)

Definition limitText (text : string) (max : nat) : string :=
  if max <? String.length text then substring 0 max text ++ ellipsis else text.

Definition MAX_CONTENT_LENGTH : nat := 50000.
Definition EMBED_RETRY_COUNT : nat := 3.
Definition EMBED_RETRY_DELAY_MS : nat := 1000.

Definition sanitizeId (id : string) : string :=
  replaceAll squote (String backslash (String squote EmptyString))
    (replaceAll dquote (String backslash (String dquote EmptyString)) id).

(** The filter text both delete sites build: [`id = "${safeId}"`]. *)
Definition idFilter (safeId : string) : string :=
  "id = " ++ String dquote (safeId ++ String dquote EmptyString).

(** ** Values *)

(** [number[]]: the components are kept as rationals. *)
Definition Vector := list Q.

(** An ISO-8601 timestamp as [new Date().toISOString()] gives it, kept as
    the instant in milliseconds it renders; [None] is the empty string a
    fresh profile starts with. *)
Definition ISOString := option nat.

Inductive Scalar :=
| SString (s : string)
| SNumber (q : Q)
| SBoolean (b : bool).

(** [Record<string, string | number | boolean>] *)
Definition Metadata := list (string * Scalar).

(** A JSON text, kept as what [JSON.parse] makes of it: the serialization
    of a value, or a text that does not parse. *)
Inductive Json (A : Type) :=
| JsonOf (a : A)
| Malformed (raw : string).
Arguments JsonOf {A} a.
Arguments Malformed {A} raw.

Record MemoryRecord := {
  rec_id : string;
  rec_content : string;
  rec_vector : Vector;
  rec_metadata : Json Metadata;
  rec_createdAt : ISOString;
  rec_updatedAt : ISOString
}.

Record SearchResult := {
  sr_id : string;
  sr_content : string;
  sr_memory : option string;
  sr_similarity : option Q;
  sr_metadata : option Metadata
}.

Record UserProfile := {
  static : list string;
  dynamic : list string;
  lastUpdated : ISOString
}.

Record ForgetResult := {
  success : bool;
  message : string
}.

(** What a [catch] clause can receive: an [Error] instance, or any other
    value, given by its [String(err)] form. *)
Inductive Thrown :=
| ErrorObj (msg : string)
| NonError (text : string).

Inductive Completion (A : Type) :=
| Return (a : A)
| Throw (e : Thrown).
Arguments Return {A} a.
Arguments Throw {A} e.

(** ** The world *)

(** The answer of the embedding service to one request:
    [{embeddings: [vector, ...]}], or a rejection. *)
Inductive EmbedResponse :=
| Embeddings (first : Vector) (others : list Vector)
| Rejected (e : Thrown).

(** The table "memories": the dimension its schema was created with, and
    its rows in insertion order. *)
Record Table := {
  dim : nat;
  rows : list MemoryRecord
}.

(** A row of a vector search, with the [_distance] column. *)
Record Hit := {
  hit_row : MemoryRecord;
  _distance : option Q
}.

(** What the store makes of a filter text: it refuses it with an error,
    or it selects the rows a predicate holds of. *)
Inductive FilterReading :=
| Refused (e : Thrown)
| Selects (p : MemoryRecord -> bool).

Inductive Event :=
| EvMkdir
| EvConnect
| EvTableNames
| EvOpenTable
| EvCreateTable (d : nat)
| EvDelete (filter : string)
| EvAdd (id : string)
| EvVectorSearch (limit : nat)
| EvCountRows
| EvDropTable
| EvEmbed (text : string)
| EvWarn (msg : string)
| EvSleep (ms : nat)
| EvReadFile
| EvWriteFile (p : UserProfile).

(** The fields of a [LocalMemoryClient] ([db] and [table] are handles: set
    or null; [initPromise]: cached or null) and the world around it.
    [w_ollama k text] is the service's answer to the [k]-th request,
    [w_random k] the text [Math.random().toString(36).slice(2, 10)] of the
    [k]-th draw, [w_distance] the metric of the store, [w_trace] the
    effects so far, latest first, [w_sql text] what the store makes of a
    filter text that is more than one equality of [id] with a literal. *)
Record State := {
  db : bool;
  table : bool;
  initPromise : bool;
  w_now : nat;
  w_random : nat -> string;
  w_draws : nat;
  w_ollama : nat -> string -> EmbedResponse;
  w_calls : nat;
  w_distance : Vector -> Vector -> Q;
  w_memories : option Table;
  w_profile : option (Json UserProfile);
  w_trace : list Event;
  w_sql : string -> FilterReading
}.

Definition set_db (b : bool) (st : State) : State :=
  {| db := b; table := table st; initPromise := initPromise st;
     w_now := w_now st; w_random := w_random st; w_draws := w_draws st;
     w_ollama := w_ollama st; w_calls := w_calls st;
     w_distance := w_distance st; w_memories := w_memories st;
     w_profile := w_profile st; w_trace := w_trace st;
     w_sql := w_sql st |}.

Definition set_table (b : bool) (st : State) : State :=
  {| db := db st; table := b; initPromise := initPromise st;
     w_now := w_now st; w_random := w_random st; w_draws := w_draws st;
     w_ollama := w_ollama st; w_calls := w_calls st;
     w_distance := w_distance st; w_memories := w_memories st;
     w_profile := w_profile st; w_trace := w_trace st;
     w_sql := w_sql st |}.

Definition set_initPromise (b : bool) (st : State) : State :=
  {| db := db st; table := table st; initPromise := b;
     w_now := w_now st; w_random := w_random st; w_draws := w_draws st;
     w_ollama := w_ollama st; w_calls := w_calls st;
     w_distance := w_distance st; w_memories := w_memories st;
     w_profile := w_profile st; w_trace := w_trace st;
     w_sql := w_sql st |}.

Definition set_now (n : nat) (st : State) : State :=
  {| db := db st; table := table st; initPromise := initPromise st;
     w_now := n; w_random := w_random st; w_draws := w_draws st;
     w_ollama := w_ollama st; w_calls := w_calls st;
     w_distance := w_distance st; w_memories := w_memories st;
     w_profile := w_profile st; w_trace := w_trace st;
     w_sql := w_sql st |}.

Definition set_draws (n : nat) (st : State) : State :=
  {| db := db st; table := table st; initPromise := initPromise st;
     w_now := w_now st; w_random := w_random st; w_draws := n;
     w_ollama := w_ollama st; w_calls := w_calls st;
     w_distance := w_distance st; w_memories := w_memories st;
     w_profile := w_profile st; w_trace := w_trace st;
     w_sql := w_sql st |}.

Definition set_calls (n : nat) (st : State) : State :=
  {| db := db st; table := table st; initPromise := initPromise st;
     w_now := w_now st; w_random := w_random st; w_draws := w_draws st;
     w_ollama := w_ollama st; w_calls := n;
     w_distance := w_distance st; w_memories := w_memories st;
     w_profile := w_profile st; w_trace := w_trace st;
     w_sql := w_sql st |}.

Definition set_memories (m : option Table) (st : State) : State :=
  {| db := db st; table := table st; initPromise := initPromise st;
     w_now := w_now st; w_random := w_random st; w_draws := w_draws st;
     w_ollama := w_ollama st; w_calls := w_calls st;
     w_distance := w_distance st; w_memories := m;
     w_profile := w_profile st; w_trace := w_trace st;
     w_sql := w_sql st |}.

Definition set_profile (p : option (Json UserProfile)) (st : State) : State :=
  {| db := db st; table := table st; initPromise := initPromise st;
     w_now := w_now st; w_random := w_random st; w_draws := w_draws st;
     w_ollama := w_ollama st; w_calls := w_calls st;
     w_distance := w_distance st; w_memories := w_memories st;
     w_profile := p; w_trace := w_trace st;
     w_sql := w_sql st |}.

Definition set_trace (t : list Event) (st : State) : State :=
  {| db := db st; table := table st; initPromise := initPromise st;
     w_now := w_now st; w_random := w_random st; w_draws := w_draws st;
     w_ollama := w_ollama st; w_calls := w_calls st;
     w_distance := w_distance st; w_memories := w_memories st;
     w_profile := w_profile st; w_trace := t;
     w_sql := w_sql st |}.

(** ** Computations: state passing with exceptions *)

Definition M (A : Type) : Type := State -> Completion A * State.

Definition ret {A} (a : A) : M A := fun st => (Return a, st).

Definition throw {A} (e : Thrown) : M A := fun st => (Throw e, st).

Definition bind {A B} (m : M A) (k : A -> M B) : M B :=
  fun st =>
    match m st with
    | (Return a, st') => k a st'
    | (Throw e, st') => (Throw e, st')
    end.

(** [try { m } catch (err) { h err }]: the effects of [m] up to the throw
    stay. *)
Definition try_catch {A} (m : M A) (h : Thrown -> M A) : M A :=
  fun st =>
    match m st with
    | (Return a, st') => (Return a, st')
    | (Throw e, st') => h e st'
    end.

Definition get : M State := fun st => (Return st, st).

Definition modify (f : State -> State) : M unit := fun st => (Return tt, f st).

Definition emit (e : Event) : M unit :=
  modify (fun st => set_trace (e :: w_trace st) st).

Declare Scope client_scope.
Delimit Scope client_scope with client.
Notation "x <- c1 ;; c2" := (bind c1 (fun x => c2))
  (at level 61, c1 at next level, right associativity) : client_scope.
Notation "c1 ;; c2" := (bind c1 (fun _ => c2))
  (at level 61, right associativity) : client_scope.
Open Scope client_scope.

(** ** The clock, the random source, the embedding service *)

(** [Date.now()] *)
Definition Date_now : M nat := fun st => (Return (w_now st), st).

(** [new Date().toISOString()] *)
Definition Date_toISOString : M ISOString :=
  fun st => (Return (Some (w_now st)), st).

(** [Math.random().toString(36).slice(2, 10)] *)
Definition Math_random_base36 : M string :=
  fun st => (Return (w_random st (w_draws st)), set_draws (S (w_draws st)) st).

(** [await new Promise((r) => setTimeout(r, ms))] *)
Definition sleep (ms : nat) : M unit :=
  emit (EvSleep ms) ;; modify (fun st => set_now (w_now st + ms) st).

(** [this.ollama.embed({model, input: text})], read at [.embeddings[0]] *)
Definition ollama_embed (text : string) : M Vector :=
  fun st =>
    let st' := set_trace (EvEmbed text :: w_trace st)
                 (set_calls (S (w_calls st)) st) in
    match w_ollama st (w_calls st) text with
    | Embeddings first _ => (Return first, st')
    | Rejected e => (Throw e, st')
    end.

Definition generateId : M string :=
  t <- Date_now ;;
  r <- Math_random_base36 ;;
  ret ("mem_" ++ string_of_nat t ++ "_" ++ r).

(** ** The store

    The table is reached through the handle the client caches; every
    operation on it fails when the table behind the handle is gone. *)

(** The reading of a double-quoted literal that [sanitizeId] writes for,
    from the character after the opening quote: a backslash makes the
    next character part of the literal, a quote that no backslash escapes
    ends it.  The result is the literal and the text left after its
    closing quote.  The store does not read this way (see
    [readLiteralPlain]); the reading is kept to say what the escaping
    fails to do even under it. *)
Fixpoint readLiteral (s : string) : option (string * string) :=
  match s with
  | EmptyString => None
  | String c s' =>
      if Ascii.eqb c dquote then Some (EmptyString, s')
      else if Ascii.eqb c backslash then
        match s' with
        | EmptyString => None
        | String x s'' =>
            match readLiteral s'' with
            | Some (lit, rest) => Some (String x lit, rest)
            | None => None
            end
        end
      else
        match readLiteral s' with
        | Some (lit, rest) => Some (String c lit, rest)
        | None => None
        end
  end.

(** How the store reads a double-quoted literal: the backslash has no
    meaning, the next double quote ends the literal. *)
Fixpoint readLiteralPlain (s : string) : option (string * string) :=
  match s with
  | EmptyString => None
  | String c s' =>
      if Ascii.eqb c dquote then Some (EmptyString, s')
      else
        match readLiteralPlain s' with
        | Some (lit, rest) => Some (String c lit, rest)
        | None => None
        end
  end.

(** The exact id equality filter [id = "<literal>"]: the literal the ids
    are compared with, when the text is that and nothing more. *)
Definition readFilter (text : string) : option string :=
  if prefix (String.append "id = " (String dquote EmptyString)) text then
    match readLiteralPlain (substring 6 (String.length text - 6) text) with
    | Some (lit, EmptyString) => Some lit
    | _ => None
    end
  else None.

Definition tableGone : Thrown := ErrorObj "Table 'memories' was not found".

(** [db.tableNames()] then [.includes("memories")] *)
Definition tableNames_includes_memories : M bool :=
  emit EvTableNames ;;
  st <- get ;;
  ret (match w_memories st with Some _ => true | None => false end).

(** [db.openTable("memories")] *)
Definition openTable : M unit :=
  emit EvOpenTable ;;
  st <- get ;;
  match w_memories st with
  | Some _ => ret tt
  | None => throw tableGone
  end.

(** [db.createTable("memories", [seed], {mode: "overwrite"})]: the schema
    takes the dimension of the seed's vector. *)
Definition createTable (seed : MemoryRecord) : M unit :=
  emit (EvCreateTable (List.length (rec_vector seed))) ;;
  modify (set_memories
            (Some {| dim := List.length (rec_vector seed); rows := [seed] |})).

(** [table.delete(filter)]: removes the rows the filter matches; no match
    is not an error.  One equality of [id] with a literal matches the rows
    of that id; any other text is refused or run as the store reads it. *)
Definition table_delete (text : string) : M unit :=
  emit (EvDelete text) ;;
  st <- get ;;
  match w_memories st with
  | None => throw tableGone
  | Some t =>
      match readFilter text with
      | Some lit =>
          modify (set_memories
                    (Some {| dim := dim t;
                             rows := filter (fun r => negb (rec_id r =? lit)%string)
                                            (rows t) |}))
      | None =>
          match w_sql st text with
          | Refused e => throw e
          | Selects p =>
              modify (set_memories
                        (Some {| dim := dim t;
                                 rows := filter (fun r => negb (p r)) (rows t) |}))
          end
      end
  end.

(** [table.add([record])]: the row is appended. *)
Definition table_add (record : MemoryRecord) : M unit :=
  emit (EvAdd (rec_id record)) ;;
  st <- get ;;
  match w_memories st with
  | None => throw tableGone
  | Some t =>
      modify (set_memories
                (Some {| dim := dim t; rows := rows t ++ [record] |}))
  end.

Fixpoint insertByDistance (key : MemoryRecord -> Q) (r : MemoryRecord)
    (l : list MemoryRecord) : list MemoryRecord :=
  match l with
  | [] => [r]
  | x :: l' =>
      if Qle_bool (key r) (key x) then r :: l
      else x :: insertByDistance key r l'
  end.

Definition nearestFirst (key : MemoryRecord -> Q) (rs : list MemoryRecord)
    : list MemoryRecord :=
  fold_right (insertByDistance key) [] rs.

(** [table.vectorSearch(queryVector).limit(limit).toArray()]: up to
    [limit] rows, nearest first; a search for no row is refused. *)
Definition table_vectorSearch (queryVector : Vector) (limit : nat) : M (list Hit) :=
  emit (EvVectorSearch limit) ;;
  st <- get ;;
  match w_memories st with
  | None => throw tableGone
  | Some t =>
      if limit =? 0 then throw (ErrorObj "k must be positive")
      else if List.length queryVector =? dim t then
        let key := fun r => w_distance st queryVector (rec_vector r) in
        ret (map (fun r => {| hit_row := r; _distance := Some (key r) |})
                 (firstn limit (nearestFirst key (rows t))))
      else throw (ErrorObj "Vector dimension mismatch")
  end.

(** [table.countRows()] *)
Definition table_countRows : M nat :=
  emit EvCountRows ;;
  st <- get ;;
  match w_memories st with
  | None => throw tableGone
  | Some t => ret (List.length (rows t))
  end.

(** [db.dropTable("memories")] *)
Definition dropTable : M unit :=
  emit EvDropTable ;;
  st <- get ;;
  match w_memories st with
  | None => throw tableGone
  | Some _ => modify (set_memories None)
  end.

(** ** The profile file *)

(** [readFile(this.profilePath, "utf-8")] followed by [JSON.parse]: both
    throw into the same [catch]. *)
Definition readProfile : M UserProfile :=
  emit EvReadFile ;;
  st <- get ;;
  match w_profile st with
  | None => throw (ErrorObj "ENOENT: no such file or directory")
  | Some (Malformed _) => throw (ErrorObj "Unexpected token in JSON")
  | Some (JsonOf p) => ret p
  end.

(** [writeFile(this.profilePath, JSON.stringify(profile, null, 2))] *)
Definition writeProfile (p : UserProfile) : M unit :=
  emit (EvWriteFile p) ;;
  modify (set_profile (Some (JsonOf p))).

(** ** LocalMemoryClient *)

Definition doInit : M unit :=
  emit EvMkdir ;;
  emit EvMkdir ;;
  emit EvConnect ;;
  modify (set_db true) ;;
  found <- tableNames_includes_memories ;;
  (if found then openTable ;; modify (set_table true) else ret tt).

Definition ensureInitialized : M unit :=
  st <- get ;;
  if negb (initPromise st)
  then modify (set_initPromise true) ;; doInit
  else ret tt.

(** [err instanceof Error ? err : new Error(String(err))] *)
Definition toError (err : Thrown) : Thrown :=
  match err with
  | ErrorObj _ => err
  | NonError text => ErrorObj text
  end.

Definition errorMessage (e : Thrown) : string :=
  match e with
  | ErrorObj msg => msg
  | NonError text => text
  end.

(** The [for] loop of [embed], [remaining] being
    [EMBED_RETRY_COUNT - attempt]. *)
Fixpoint embed_loop (remaining attempt : nat) (lastError : option Thrown)
    (text : string) : M Vector :=
  match remaining with
  | O =>
      throw (match lastError with
             | Some e => e
             | None => ErrorObj "Embedding failed after retries"
             end)
  | S remaining' =>
      try_catch (ollama_embed text)
        (fun err =>
           let lastError := toError err in
           emit (EvWarn (String.append "embed attempt "
                           (String.append (string_of_nat (attempt + 1))
                              (String.append " failed: " (errorMessage lastError))))) ;;
           (if attempt <? EMBED_RETRY_COUNT - 1
            then sleep (EMBED_RETRY_DELAY_MS * (attempt + 1))
            else ret tt) ;;
           embed_loop remaining' (attempt + 1) (Some lastError) text)
  end.

Definition embed (text : string) : M Vector :=
  embed_loop EMBED_RETRY_COUNT 0 None text.

Definition ensureTable (vectorDim : nat) : M unit :=
  st <- get ;;
  if table st then ret tt
  else if negb (db st) then throw (ErrorObj "Database not initialized")
  else
    createdAt <- Date_toISOString ;;
    updatedAt <- Date_toISOString ;;
    let emptyRecord :=
      {| rec_id := "__init__";
         rec_content := EmptyString;
         rec_vector := repeat (0 : Q) vectorDim;
         rec_metadata := JsonOf [];
         rec_createdAt := createdAt;
         rec_updatedAt := updatedAt |} in
    createTable emptyRecord ;;
    modify (set_table true) ;;
    table_delete (idFilter (sanitizeId "__init__")).

(** Returns the [id] of [{ id }]. *)
Definition addMemory (content : string) (metadata : option Metadata)
    (customId : option string) : M string :=
  ensureInitialized ;;
  let cleaned := trim content in
  match cleaned with
  | EmptyString => throw (ErrorObj "Cannot store empty content")
  | _ =>
      if MAX_CONTENT_LENGTH <? String.length cleaned then
        throw (ErrorObj
                 (String.append "Content too large ("
                    (String.append (string_of_nat (String.length cleaned))
                       (String.append " chars, max "
                          (String.append (string_of_nat MAX_CONTENT_LENGTH) ")")))))
      else
        vector <- embed cleaned ;;
        ensureTable (List.length vector) ;;
        now <- Date_toISOString ;;
        id <- match customId with
              | Some c => ret c
              | None => generateId
              end ;;
        let record :=
          {| rec_id := id;
             rec_content := cleaned;
             rec_vector := vector;
             rec_metadata := JsonOf (match metadata with Some m => m | None => [] end);
             rec_createdAt := now;
             rec_updatedAt := now |} in
        match customId with
        | Some (String c cs) =>
            try_catch (table_delete (idFilter (sanitizeId (String c cs))))
                      (fun _ => ret tt)
        | _ => ret tt
        end ;;
        table_add record ;;
        ret id
  end.

Definition toSearchResult (r : Hit) : SearchResult :=
  let meta :=
    match rec_metadata (hit_row r) with
    | JsonOf m => m
    | Malformed _ => []
    end in
  let similarity :=
    match _distance r with
    | Some d => Some (1 - d)%Q
    | None => None
    end in
  {| sr_id := rec_id (hit_row r);
     sr_content := rec_content (hit_row r);
     sr_memory := Some (rec_content (hit_row r));
     sr_similarity := similarity;
     sr_metadata := Some meta |}.

(** [limit = None] is the call that leaves the parameter to its default. *)
Definition search (query : string) (limit : option nat) : M (list SearchResult) :=
  let limit := match limit with Some n => n | None => 5 end in
  ensureInitialized ;;
  st <- get ;;
  if negb (table st) then ret []
  else
    queryVector <- embed query ;;
    results <- table_vectorSearch queryVector limit ;;
    ret (map toSearchResult results).

Definition freshProfile : UserProfile :=
  {| static := []; dynamic := []; lastUpdated := None |}.

(** The [for ... of] loop over [staticFacts]: [existing] is the set built
    before the loop. *)
Definition pushNewFacts (existing : list string) (facts : list string)
    (profile : UserProfile) : UserProfile :=
  fold_left
    (fun p fact =>
       if negb (existsb (String.eqb fact) existing)
       then {| static := static p ++ [fact];
               dynamic := dynamic p;
               lastUpdated := lastUpdated p |}
       else p)
    facts profile.

Definition updateProfile (staticFacts dynamicFacts : option (list string)) : M unit :=
  ensureInitialized ;;
  profile <- try_catch readProfile (fun _ => ret freshProfile) ;;
  let profile :=
    match staticFacts with
    | Some facts => pushNewFacts (static profile) facts profile
    | None => profile
    end in
  let profile :=
    match dynamicFacts with
    | Some facts =>
        {| static := static profile;
           dynamic := firstn 20 facts;
           lastUpdated := lastUpdated profile |}
    | None => profile
    end in
  now <- Date_toISOString ;;
  let profile :=
    {| static := static profile;
       dynamic := dynamic profile;
       lastUpdated := now |} in
  writeProfile profile.

Definition deleteMemory (id : string) : M unit :=
  ensureInitialized ;;
  st <- get ;;
  if negb (table st) then ret tt
  else
    let safeId := sanitizeId id in
    table_delete (idFilter safeId).

Definition forgetByQuery (query : string) : M ForgetResult :=
  results <- search query (Some 5) ;;
  match results with
  | [] => ret {| success := false;
                 message := "No matching memory found to forget." |}
  | target :: _ =>
      deleteMemory (sr_id target) ;;
      let preview :=
        limitText
          (or_else (sr_content target)
             (or_else (match sr_memory target with
                       | Some m => m
                       | None => EmptyString
                       end) EmptyString))
          100 in
      ret {| success := true;
             message := String.append "Forgot: "
                          (String dquote (String.append preview
                                            (String dquote EmptyString))) |}
  end.

(** Returns the [deletedCount] of [{ deletedCount }]. *)
Definition wipeAllMemories : M nat :=
  ensureInitialized ;;
  st <- get ;;
  if negb (table st) || negb (db st) then ret 0
  else
    count <- table_countRows ;;
    dropTable ;;
    modify (set_table false) ;;
    ret count.

(** ** Start-up with several callers

    JS runs one task at a time and switches only at an [await].  A public
    operation that is called runs [ensureInitialized] up to the first
    [await] of [doInit] (when it is the one that starts it) and then waits
    for the promise; the event loop later resumes the [doInit] in flight,
    one [await] at a time.  [pc] says at which [await] it is suspended. *)

Inductive InitPc :=
| AwaitMkdirDb
| AwaitMkdirProfile
| AwaitConnect
| AwaitTableNames
| AwaitOpenTable
| Settled.

(** [doInitCalls] counts the calls of [doInit]; the promise of the [k]-th
    call is promise [k].  [awaiting] pairs each caller with the promise
    its [ensureInitialized] returned. *)
Record Startup := {
  client : State;
  pc : InitPc;
  doInitCalls : nat;
  awaiting : list (nat * nat)
}.

Inductive Action :=
| Invoke (caller : nat)
| Resume.

Definition emitted (e : Event) (st : State) : State :=
  set_trace (e :: w_trace st) st.

(** A caller enters a public operation: [await this.ensureInitialized()]. *)
Definition invoke (caller : nat) (s : Startup) : Startup :=
  if negb (initPromise (client s)) then
    {| client := set_initPromise true (emitted EvMkdir (client s));
       pc := AwaitMkdirDb;
       doInitCalls := S (doInitCalls s);
       awaiting := (caller, S (doInitCalls s)) :: awaiting s |}
  else
    {| client := client s;
       pc := pc s;
       doInitCalls := doInitCalls s;
       awaiting := (caller, doInitCalls s) :: awaiting s |}.

(** The pending [await] of the [doInit] in flight completes and [doInit]
    runs to its next [await], or to its end. *)
Definition resume (s : Startup) : Startup :=
  let continue_with st p :=
    {| client := st; pc := p;
       doInitCalls := doInitCalls s; awaiting := awaiting s |} in
  if initPromise (client s) then
    match pc s with
    | AwaitMkdirDb => continue_with (emitted EvMkdir (client s)) AwaitMkdirProfile
    | AwaitMkdirProfile => continue_with (emitted EvConnect (client s)) AwaitConnect
    | AwaitConnect =>
        continue_with (emitted EvTableNames (set_db true (client s))) AwaitTableNames
    | AwaitTableNames =>
        match w_memories (client s) with
        | Some _ => continue_with (emitted EvOpenTable (client s)) AwaitOpenTable
        | None => continue_with (client s) Settled
        end
    | AwaitOpenTable => continue_with (set_table true (client s)) Settled
    | Settled => s
    end
  else s.

Definition step (s : Startup) (a : Action) : Startup :=
  match a with
  | Invoke caller => invoke caller s
  | Resume => resume s
  end.

Definition run (acts : list Action) (s : Startup) : Startup :=
  fold_left step acts s.

Definition startup (st : State) : Startup :=
  {| client := st; pc := Settled; doInitCalls := 0; awaiting := [] |}.

Definition isInvoke (a : Action) : bool :=
  match a with Invoke _ => true | Resume => false end.

(** ** Vocabulary of the properties *)

Definition outcome {A} (r : Completion A * State) : Completion A := fst r.
Definition after {A} (r : Completion A * State) : State := snd r.

(** The effects between two states of one run, oldest first. *)
Definition since (st st' : State) : list Event :=
  skipn (List.length (w_trace st)) (rev (w_trace st')).

(** The requests and the waits among them. *)
Definition isRequestOrWait (e : Event) : bool :=
  match e with
  | EvEmbed _ | EvSleep _ => true
  | _ => false
  end.

Definition timeline (evs : list Event) : list Event :=
  filter isRequestOrWait evs.

(** A computation keeps a relation between the state it starts in and
    the state it ends in, however it ends. *)
Definition keeps {A} (R : State -> State -> Prop) (m : M A) : Prop :=
  forall st, R st (snd (m st)).

(** The requests sent to the embedding service are never taken back. *)
Definition callsGrow (st st' : State) : Prop := w_calls st <= w_calls st'.

(** The table "memories" is what it was. *)
Definition storeKept (st st' : State) : Prop := w_memories st' = w_memories st.

(** The client's fields, the store, the profile file and the oracles of
    the world are what they were; the clock, the count of requests and
    the trace may have moved. *)
Definition clientKept (st st' : State) : Prop :=
  db st' = db st /\ table st' = table st /\ initPromise st' = initPromise st /\
  w_memories st' = w_memories st /\ w_profile st' = w_profile st /\
  w_distance st' = w_distance st /\ w_ollama st' = w_ollama st /\
  w_random st' = w_random st /\ w_draws st' = w_draws st.

(** The store has no table for the client: no handle is cached, and a
    client that has not initialized yet will find none. *)
Definition noTable (st : State) : Prop :=
  table st = false /\ (initPromise st = false -> w_memories st = None).

(** The store has the table [t] for the client: an initialized client
    holds the connection and the handle, another one will find it. *)
Definition hasTable (st : State) (t : Table) : Prop :=
  w_memories st = Some t /\
  (initPromise st = true -> db st = true /\ table st = true).

(** The answers of the service to the next [k] requests for [text] are
    all rejections. *)
Definition nextRejected (st : State) (text : string) (k : nat) : Prop :=
  forall i, i < k -> exists e, w_ollama st (w_calls st + i) text = Rejected e.

(** [k] rejected requests, each followed by its wait, then one more
    request: the wait after attempt [a] is the base delay times [a]. *)
Definition attemptsUpTo (text : string) (k : nat) : list Event :=
  (flat_map (fun a => [EvEmbed text; EvSleep (EMBED_RETRY_DELAY_MS * a)])
            (seq 1 k) ++ [EvEmbed text])%list.

(** The content passes the validation of [addMemory]. *)
Definition validContent (content : string) : Prop :=
  trim content <> EmptyString /\ String.length (trim content) <= MAX_CONTENT_LENGTH.

(** [addMemory] from the call of [ensureTable] on: what it does with the
    validated content and its vector. *)
Definition storeRecord (cleaned : string) (metadata : option Metadata)
    (customId : option string) (vector : Vector) : M string :=
  ensureTable (List.length vector) ;;
  now <- Date_toISOString ;;
  id <- match customId with
        | Some c => ret c
        | None => generateId
        end ;;
  match customId with
  | Some (String c cs) =>
      try_catch (table_delete (idFilter (sanitizeId (String c cs))))
                (fun _ => ret tt)
  | _ => ret tt
  end ;;
  table_add
    {| rec_id := id;
       rec_content := cleaned;
       rec_vector := vector;
       rec_metadata := JsonOf (match metadata with Some m => m | None => [] end);
       rec_createdAt := now;
       rec_updatedAt := now |} ;;
  ret id.

(** The record [addMemory] builds. *)
Definition recordOf (id cleaned : string) (metadata : option Metadata)
    (vector : Vector) (now : nat) : MemoryRecord :=
  {| rec_id := id;
     rec_content := cleaned;
     rec_vector := vector;
     rec_metadata := JsonOf (match metadata with Some m => m | None => [] end);
     rec_createdAt := Some now;
     rec_updatedAt := Some now |}.

(** The id [addMemory] settles on in a state: the custom id when there is
    one, else what [generateId] makes of the clock and the next draw. *)
Definition finalId (customId : option string) (st : State) : string :=
  match customId with
  | Some c => c
  | None =>
      String.append "mem_"
        (String.append (string_of_nat (w_now st))
           (String.append "_" (w_random st (w_draws st))))
  end.

(** The row of the table a search hit is made of. *)
Definition hitOf (key : MemoryRecord -> Q) (r : MemoryRecord) : Hit :=
  {| hit_row := r; _distance := Some (key r) |}.

(** The rows a delete by [id] leaves. *)
Definition withoutId (id : string) (rs : list MemoryRecord) : list MemoryRecord :=
  filter (fun r => negb (rec_id r =? id)%string) rs.

(** The rows the delete of a custom id leaves: all of them when the
    custom id is absent or empty. *)
Definition rowsKept (customId : option string) (rs : list MemoryRecord)
    : list MemoryRecord :=
  match customId with
  | Some (String c cs) => withoutId (String c cs) rs
  | _ => rs
  end.

Definition hasBackslash (s : string) : bool :=
  existsb (Ascii.eqb backslash) (list_ascii_of_string s).

Definition hasDoubleQuote (s : string) : bool :=
  existsb (Ascii.eqb dquote) (list_ascii_of_string s).

(** Both replacements of [sanitizeId] in one pass. *)
Fixpoint escapeQuotes (s : string) : string :=
  match s with
  | EmptyString => EmptyString
  | String c s' =>
      if Ascii.eqb c dquote || Ascii.eqb c squote
      then String backslash (String c (escapeQuotes s'))
      else String c (escapeQuotes s')
  end.

(** The profile [updateProfile] starts from: the one the file holds, or a
    fresh one when the file is missing or does not parse. *)
Definition priorProfile (st : State) : UserProfile :=
  match w_profile st with
  | Some (JsonOf p) => p
  | _ => freshProfile
  end.

(** [existing.has(fact)] is false: exact string equality with no element. *)
Definition isNewFact (existing : list string) (fact : string) : bool :=
  negb (existsb (String.eqb fact) existing).

(** The client while the [doInit] started on [st] is suspended at [p]. *)
Definition initAt (st : State) (p : InitPc) : State :=
  let mkdirDb := set_initPromise true (emitted EvMkdir st) in
  let mkdirProfile := emitted EvMkdir mkdirDb in
  let connect := emitted EvConnect mkdirProfile in
  let names := emitted EvTableNames (set_db true connect) in
  let opened := emitted EvOpenTable names in
  match p with
  | AwaitMkdirDb => mkdirDb
  | AwaitMkdirProfile => mkdirProfile
  | AwaitConnect => connect
  | AwaitTableNames => names
  | AwaitOpenTable => opened
  | Settled =>
      match w_memories st with
      | Some _ => set_table true opened
      | None => names
      end
  end.

(** How many more times [doInit] has to be resumed, at most. *)
Definition awaitsLeft (p : InitPc) : nat :=
  match p with
  | AwaitMkdirDb => 5
  | AwaitMkdirProfile => 4
  | AwaitConnect => 3
  | AwaitTableNames => 2
  | AwaitOpenTable => 1
  | Settled => 0
  end.

(** One [doInit] has been called, and the client is where that call has
    taken it. *)
Definition startedOnce (st : State) (s : Startup) : Prop :=
  doInitCalls s = 1 /\
  client s = initAt st (pc s) /\
  (pc s = AwaitOpenTable -> w_memories st <> None) /\
  (forall caller promise, In (caller, promise) (awaiting s) -> promise = 1).

(** ** Worlds and clients to run the definitions on *)

Definition squaredL2 (a b : Vector) : Q :=
  fold_right Qplus 0%Q
    (map (fun p => ((fst p - snd p) * (fst p - snd p))%Q) (combine a b)).

(** A service that answers every request with a two-dimensional vector. *)
Definition lengthService (k : nat) (text : string) : EmbedResponse :=
  Embeddings [inject_Z (Z.of_nat (String.length text)); 1%Q] [].

(** A service that rejects the first [n] requests. *)
Definition flakyService (n : nat) (e : Thrown) (k : nat) (text : string)
    : EmbedResponse :=
  if k <? n then Rejected e else lengthService k text.

(** A new client at time 1000, over a store that refuses every filter
    that is more than one equality of [id] with a literal. *)
Definition newClient (ollama : nat -> string -> EmbedResponse)
    (memories : option Table) (profile : option (Json UserProfile)) : State :=
  {| db := false; table := false; initPromise := false;
     w_now := 1000;
     w_random := fun k => String.append "r" (string_of_nat k);
     w_draws := 0;
     w_ollama := ollama;
     w_calls := 0;
     w_distance := squaredL2;
     w_memories := memories;
     w_profile := profile;
     w_trace := [];
     w_sql := fun text => Refused (ErrorObj (String.append "Invalid filter: " text)) |}.

(** A content of [n] characters, none of them white space. *)
Definition longContent (n : nat) : string :=
  string_of_list_ascii (repeat "a"%char n).

(** The same memory stored twice under the empty custom id. *)
Definition storedTwice : State :=
  after (addMemory "note" None (Some EmptyString)
           (after (addMemory "note" None (Some EmptyString)
                     (newClient lengthService None None)))).

(** A new client over a store whose table holds two memories under one
    id. *)
Definition twoUnderOneId : State :=
  newClient lengthService
    (Some {| dim := 2;
             rows := [ {| rec_id := "dup";
                          rec_content := "second";
                          rec_vector := [6%Q; 1%Q];
                          rec_metadata := JsonOf [];
                          rec_createdAt := Some 10;
                          rec_updatedAt := Some 10 |};
                       {| rec_id := "dup";
                          rec_content := "third!";
                          rec_vector := [6%Q; 1%Q];
                          rec_metadata := JsonOf [];
                          rec_createdAt := Some 20;
                          rec_updatedAt := Some 20 |} ] |})
    None.

(** A new client over a table of three memories whose vectors lie at
    different distances from the vector of a query of three characters. *)
Definition threeApart : State :=
  newClient lengthService
    (Some {| dim := 2;
             rows := [ {| rec_id := "a";
                          rec_content := "x";
                          rec_vector := [1%Q; 1%Q];
                          rec_metadata := JsonOf [];
                          rec_createdAt := Some 10;
                          rec_updatedAt := Some 10 |};
                       {| rec_id := "b";
                          rec_content := "yyyyyy";
                          rec_vector := [6%Q; 1%Q];
                          rec_metadata := JsonOf [];
                          rec_createdAt := Some 20;
                          rec_updatedAt := Some 20 |};
                       {| rec_id := "c";
                          rec_content := "zzz";
                          rec_vector := [3%Q; 1%Q];
                          rec_metadata := JsonOf [];
                          rec_createdAt := Some 30;
                          rec_updatedAt := Some 30 |} ] |})
    None.

(** A new client over a table with one memory, stored under an id with
    an apostrophe. *)
Definition apostropheId : State :=
  newClient lengthService
    (Some {| dim := 2;
             rows := [ {| rec_id := "it's";
                          rec_content := "note";
                          rec_vector := [4%Q; 1%Q];
                          rec_metadata := JsonOf [];
                          rec_createdAt := Some 10;
                          rec_updatedAt := Some 10 |} ] |})
    None.

(** An id that opens with an escaped-looking quote, and one that ends in
    a backslash after a quote. *)
Definition breakoutId : string :=
  String backslash (String dquote " OR 1=1 --").

Definition danglingId : string :=
  String dquote (String backslash EmptyString).

(** ** The rest of the client *)

Record ProfileSearchResult := {
  psr_memory : option string;
  psr_updatedAt : option Scalar;
  psr_similarity : option Q
}.

Record ProfileResult := {
  pr_static : list string;
  pr_dynamic : list string;
  pr_searchResults : list ProfileSearchResult
}.

(** [metadata?.[key]] on a parsed object, its keys in order. *)
Fixpoint lookupKey (key : string) (m : Metadata) : option Scalar :=
  match m with
  | [] => None
  | (k, v) :: m' => if (k =? key)%string then Some v else lookupKey key m'
  end.

(** The repackaging of a hit in [getProfile]. *)
Definition toProfileSearchResult (r : SearchResult) : ProfileSearchResult :=
  {| psr_memory := Some (sr_content r);
     psr_updatedAt :=
       match sr_metadata r with
       | Some m => lookupKey "timestamp" m
       | None => None
       end;
     psr_similarity := sr_similarity r |}.

Definition getProfile (query : option string) : M ProfileResult :=
  ensureInitialized ;;
  profile <- try_catch readProfile (fun _ => ret freshProfile) ;;
  st <- get ;;
  searchResults <-
    match query with
    | Some (String c q) =>
        if table st then
          results <- search (String c q) (Some 10) ;;
          ret (map toProfileSearchResult results)
        else ret []
    | _ => ret []
    end ;;
  ret {| pr_static := static profile;
         pr_dynamic := dynamic profile;
         pr_searchResults := searchResults |}.

Definition close : M unit :=
  st <- get ;;
  if db st then
    modify (set_table false) ;;
    modify (set_db false) ;;
    modify (set_initPromise false)
  else ret tt.

(** ** Vocabulary of the further properties *)

(** An initialized client whose view of the store agrees with the store:
    it is connected, and it holds the handle exactly when the table is
    there. *)
Definition settled (st : State) : Prop :=
  initPromise st = true /\ db st = true /\
  (table st = true <-> w_memories st <> None).

(** A client as the constructor, [close] and the public operations leave
    it: settled once it has initialized, and without a handle before. *)
Definition consistent (st : State) : Prop :=
  (initPromise st = true -> settled st) /\
  (initPromise st = false -> table st = false).

(** A computation started on a settled client leaves a settled client. *)
Definition staysSettled (st st' : State) : Prop := settled st -> settled st'.

(** Nearest first, as similarities: each result has a similarity, and no
    later result has a greater one. *)
Definition bySimilarity (a b : SearchResult) : Prop :=
  match sr_similarity a, sr_similarity b with
  | Some x, Some y => (y <= x)%Q
  | _, _ => False
  end.

(** The reverse of [escapeQuotes]: a backslash right before a quote is
    dropped. *)
Fixpoint unescapeQuotes (s : string) : string :=
  match s with
  | EmptyString => EmptyString
  | String c s' =>
      if Ascii.eqb c backslash then
        match s' with
        | String q s'' =>
            if Ascii.eqb q dquote || Ascii.eqb q squote
            then String q (unescapeQuotes s'')
            else String c (unescapeQuotes s')
        | EmptyString => String c EmptyString
        end
      else String c (unescapeQuotes s')
  end.

Definition hasQuote (s : string) : bool :=
  existsb (fun c => Ascii.eqb c dquote || Ascii.eqb c squote)
    (list_ascii_of_string s).

(** ** The store tool *)

(** [execute] of the tool [supermemory_store]; [detectCategory] is the
    classifier of [memory.ts], taken as it comes.  Returns the text of
    the tool's answer. *)
Definition storeTool_execute (detectCategory : string -> string)
    (text : string) (category : option string) : M string :=
  let category :=
    match category with
    | Some c => c
    | None => detectCategory text
    end in
  addMemory text
    (Some [("type", SString category); ("source", SString "clawdbot_tool")])
    None ;;
  let preview :=
    if 80 <? String.length text
    then String.append (substring 0 80 text) ellipsis
    else text in
  ret (String.append "Stored: "
         (String dquote (String.append preview (String dquote EmptyString)))).

(** ** Configuration ([config.ts]) *)

Set Warnings "-register-all".

(** The values a raw plugin configuration can be made of. *)
Inductive JsValue :=
| JUndefined
| JNull
| JBoolean (b : bool)
| JNumber (q : Q)
| JString (s : string)
| JArray (items : list JsValue)
| JObject (fields : list (string * JsValue)).

Inductive CaptureMode := Everything | All.

Record LocalMemoryConfig := {
  cfg_ollamaHost : string;
  cfg_ollamaModel : string;
  cfg_dbPath : string;
  cfg_profilePath : string;
  cfg_autoRecall : JsValue;
  cfg_autoCapture : JsValue;
  cfg_maxRecallResults : JsValue;
  cfg_profileFrequency : JsValue;
  cfg_captureMode : CaptureMode;
  cfg_debug : JsValue
}.

(** What [config.ts] reads from the process and from Node: [process.env],
    [os.homedir()], [os.hostname()] and [path.join]. *)
Record Env := {
  processEnv : string -> option string;
  homedir : string;
  hostname : string;
  pathJoin : list string -> string
}.

Definition ALLOWED_KEYS : list string :=
  ["ollamaHost"; "ollamaModel"; "dbPath"; "profilePath"; "autoRecall";
   "autoCapture"; "maxRecallResults"; "profileFrequency"; "captureMode"; "debug"].

(** [value[key]] on an object given by its own keys in [Object.keys]
    order. *)
Fixpoint getField (key : string) (fields : list (string * JsValue)) : JsValue :=
  match fields with
  | [] => JUndefined
  | (k, v) :: fields' => if (k =? key)%string then v else getField key fields'
  end.

Definition assertAllowedKeys (value : list (string * JsValue))
    (allowed : list string) (label : string) : Completion unit :=
  let unknown :=
    filter (fun k => negb (existsb (String.eqb k) allowed)) (map fst value) in
  if 0 <? List.length unknown then
    Throw (ErrorObj (String.append label
                       (String.append " has unknown keys: "
                          (String.concat ", " unknown))))
  else Return tt.

(** The replacement of [/\$\{([^}]+)\}/g] in [resolveEnvVars], read left
    to right.  [name] is [None] outside a reference and [Some n] after a
    dollar and an opening brace, [n] being the characters read since.  A
    closing brace right after the opening one is no reference, and
    neither is an opening that is never closed: both stay as text. *)
Fixpoint resolveFrom (env : string -> option string) (name : option string)
    (s : string) : Completion string :=
  match name with
  | None =>
      match s with
      | EmptyString => Return EmptyString
      | String c s' =>
          let literally :=
            match resolveFrom env None s' with
            | Return r => Return (String c r)
            | Throw e => Throw e
            end in
          if Ascii.eqb c "$" then
            match s' with
            | String b s'' =>
                if Ascii.eqb b "{" then resolveFrom env (Some EmptyString) s''
                else literally
            | EmptyString => literally
            end
          else literally
      end
  | Some n =>
      match s with
      | EmptyString => Return (String.append "${" n)
      | String c s' =>
          if Ascii.eqb c "}" then
            match n with
            | EmptyString =>
                match resolveFrom env None s' with
                | Return r => Return (String.append "${}" r)
                | Throw e => Throw e
                end
            | _ =>
                match env n with
                | Some (String v vs) =>
                    match resolveFrom env None s' with
                    | Return r => Return (String.append (String v vs) r)
                    | Throw e => Throw e
                    end
                | _ =>
                    Throw (ErrorObj
                             (String.append "Environment variable "
                                (String.append n " is not set")))
                end
            end
          else resolveFrom env (Some (String.append n (String c EmptyString))) s'
      end
  end.

Definition resolveEnvVars (env : string -> option string) (value : string)
    : Completion string :=
  resolveFrom env None value.

Definition expandPath (e : Env) (path : string) : string :=
  match path with
  | String c rest =>
      if Ascii.eqb c "~" then pathJoin e [homedir e; rest] else path
  | EmptyString => path
  end.

(** [[a-zA-Z0-9_]] *)
Definition isTagChar (c : ascii) : bool :=
  let n := N_of_ascii c in
  ((97 <=? n) && (n <=? 122) || (65 <=? n) && (n <=? 90) ||
   (48 <=? n) && (n <=? 57) || (n =? 95))%N.

Definition underscore : ascii := "_"%char.

(** [.replace(/[^a-zA-Z0-9_]/g, "_")] *)
Fixpoint replaceOthers (s : string) : string :=
  match s with
  | EmptyString => EmptyString
  | String c s' =>
      String (if isTagChar c then c else underscore) (replaceOthers s')
  end.

(** [.replace(/_+/g, "_")] *)
Fixpoint collapseUnderscores (s : string) : string :=
  match s with
  | EmptyString => EmptyString
  | String c s' =>
      if Ascii.eqb c underscore then
        match s' with
        | String d _ =>
            if Ascii.eqb d underscore then collapseUnderscores s'
            else String c (collapseUnderscores s')
        | EmptyString => String c EmptyString
        end
      else String c (collapseUnderscores s')
  end.

(** The [_$] half of [.replace(/^_|_$/g, "")]. *)
Fixpoint dropLastUnderscore (s : string) : string :=
  match s with
  | EmptyString => EmptyString
  | String c s' =>
      match s' with
      | EmptyString => if Ascii.eqb c underscore then EmptyString else s
      | _ => String c (dropLastUnderscore s')
      end
  end.

(** [.replace(/^_|_$/g, "")]: an underscore at the start goes, and so
    does one at the end of what follows. *)
Definition stripEdgeUnderscores (s : string) : string :=
  match s with
  | String c s' =>
      if Ascii.eqb c underscore then dropLastUnderscore s'
      else dropLastUnderscore s
  | EmptyString => EmptyString
  end.

Definition sanitizeTag (raw : string) : string :=
  stripEdgeUnderscores (collapseUnderscores (replaceOthers raw)).

Definition defaultDbPath (e : Env) : string :=
  let tag := sanitizeTag (String.append "clawdbot_" (hostname e)) in
  pathJoin e [homedir e; ".clawdbot"; "memory"; tag; "lancedb"].

Definition defaultProfilePath (e : Env) : string :=
  let tag := sanitizeTag (String.append "clawdbot_" (hostname e)) in
  pathJoin e [homedir e; ".clawdbot"; "memory"; tag; "profile.json"].

(** [(value as T) ?? fallback] *)
Definition orDefault (value fallback : JsValue) : JsValue :=
  match value with
  | JUndefined | JNull => fallback
  | _ => value
  end.

Definition parseConfig (e : Env) (raw : JsValue) : Completion LocalMemoryConfig :=
  let cfg :=
    match raw with
    | JObject fields => fields
    | _ => []
    end in
  match (if 0 <? List.length (map fst cfg)
         then assertAllowedKeys cfg ALLOWED_KEYS "localmemory config"
         else Return tt) with
  | Throw err => Throw err
  | Return _ =>
      match (match getField "ollamaHost" cfg with
             | JString s => resolveEnvVars (processEnv e) s
             | _ =>
                 Return (match processEnv e "OLLAMA_HOST" with
                         | Some h => h
                         | None => "http://127.0.0.1:11434"
                         end)
             end) with
      | Throw err => Throw err
      | Return ollamaHost =>
          let ollamaModel :=
            match getField "ollamaModel" cfg with
            | JString s => s
            | _ =>
                match processEnv e "OLLAMA_EMBED_MODEL" with
                | Some m => m
                | None => "nomic-embed-text"
                end
            end in
          let dbPath :=
            match getField "dbPath" cfg with
            | JString s => expandPath e s
            | _ => defaultDbPath e
            end in
          let profilePath :=
            match getField "profilePath" cfg with
            | JString s => expandPath e s
            | _ => defaultProfilePath e
            end in
          Return
            {| cfg_ollamaHost := ollamaHost;
               cfg_ollamaModel := ollamaModel;
               cfg_dbPath := dbPath;
               cfg_profilePath := profilePath;
               cfg_autoRecall := orDefault (getField "autoRecall" cfg) (JBoolean true);
               cfg_autoCapture := orDefault (getField "autoCapture" cfg) (JBoolean true);
               cfg_maxRecallResults :=
                 orDefault (getField "maxRecallResults" cfg) (JNumber 10);
               cfg_profileFrequency :=
                 orDefault (getField "profileFrequency" cfg) (JNumber 50);
               cfg_captureMode :=
                 match getField "captureMode" cfg with
                 | JString "everything" => Everything
                 | _ => All
                 end;
               cfg_debug := orDefault (getField "debug" cfg) (JBoolean false) |}
      end
  end.

(** The shape of a tag that [sanitizeTag] has nothing to do on. *)
Fixpoint noDoubleUnderscore (s : string) : bool :=
  match s with
  | EmptyString => true
  | String c s' =>
      match s' with
      | String d _ =>
          negb (Ascii.eqb c underscore && Ascii.eqb d underscore)
          && noDoubleUnderscore s'
      | EmptyString => true
      end
  end.

Fixpoint lastIsUnderscore (s : string) : bool :=
  match s with
  | EmptyString => false
  | String c s' =>
      match s' with
      | EmptyString => Ascii.eqb c underscore
      | _ => lastIsUnderscore s'
      end
  end.

Definition firstIsUnderscore (s : string) : bool :=
  match s with
  | String c _ => Ascii.eqb c underscore
  | EmptyString => false
  end.

Definition cleanTag (s : string) : bool :=
  forallb isTagChar (list_ascii_of_string s)
  && noDoubleUnderscore s
  && negb (firstIsUnderscore s)
  && negb (lastIsUnderscore s).

Definition hasDollar (s : string) : bool :=
  existsb (Ascii.eqb "$") (list_ascii_of_string s).

Definition hasClosingBrace (s : string) : bool :=
  existsb (Ascii.eqb "}") (list_ascii_of_string s).

(** [c] put in front of what a completion returns. *)
Definition prepend (pre : string) (r : Completion string) : Completion string :=
  match r with
  | Return s => Return (String.append pre s)
  | Throw e => Throw e
  end.

(** An environment for the examples. *)
Definition homeEnv : Env :=
  {| processEnv := fun name =>
       if (name =? "HOST")%string then Some "http://box:11434"
       else if (name =? "EMPTY")%string then Some EmptyString
       else None;
     homedir := "/home/u";
     hostname := "my-box.local";
     pathJoin := String.concat "/" |}.

(** An environment whose [OLLAMA_HOST] is set to the empty string. *)
Definition emptyHostEnv : Env :=
  {| processEnv := fun name =>
       if (name =? "OLLAMA_HOST")%string then Some EmptyString else None;
     homedir := "/home/u";
     hostname := "box";
     pathJoin := String.concat "/" |}.

(** The keys of a raw configuration that [ALLOWED_KEYS] does not list, in
    the order of the object. *)
Definition unknownKeys (fields : list (string * JsValue)) : list string :=
  filter (fun k => negb (existsb (String.eqb k) ALLOWED_KEYS)) (map fst fields).

(** ** The command line ([commands/cli.ts]) *)

(** [String.prototype.toLowerCase] on the code units the model has: the
    capital letters of ASCII and of Latin-1. *)
Definition toLowerCaseChar (c : ascii) : ascii :=
  let n := N_of_ascii c in
  if ((65 <=? n) && (n <=? 90) || (192 <=? n) && (n <=? 214) ||
      (216 <=? n) && (n <=? 222))%N
  then ascii_of_N (n + 32) else c.

Fixpoint toLowerCase (s : string) : string :=
  match s with
  | EmptyString => EmptyString
  | String c s' => String (toLowerCaseChar c) (toLowerCase s')
  end.

(** The action of [localmemory profile]; the result is what it prints,
    line by line. *)
Definition cliProfile (query : option string) : M (list string) :=
  profile <- getProfile query ;;
  if (List.length (pr_static profile) =? 0) && (List.length (pr_dynamic profile) =? 0)
  then ret ["No profile information available yet."]
  else
    ret ((if 0 <? List.length (pr_static profile)
          then "Stable Preferences:" :: map (String.append "  - ") (pr_static profile)
          else []) ++
         (if 0 <? List.length (pr_dynamic profile)
          then "Recent Context:" :: map (String.append "  - ") (pr_dynamic profile)
          else []))%list.

(** What shows a profile on the terminal: the stable facts under their
    heading, then the dynamic facts under theirs, a heading without
    facts being left out; a single line when there is no fact at all. *)
Definition factLines (heading : string) (facts : list string) : list string :=
  match facts with
  | [] => []
  | _ => heading :: map (String.append "  - ") facts
  end.

Definition profileLines (p : UserProfile) : list string :=
  match (factLines "Stable Preferences:" (static p) ++
         factLines "Recent Context:" (dynamic p))%list with
  | [] => ["No profile information available yet."]
  | lines => lines
  end.

(** The action of [localmemory wipe] once the question has been answered
    with [answer]; the result is what it prints. *)
Definition cliWipe (answer : string) : M (list string) :=
  if negb (toLowerCase (trim answer) =? "yes")%string then ret ["Aborted."]
  else
    deletedCount <- wipeAllMemories ;;
    ret [String.append "Wiped "
           (String.append (string_of_nat deletedCount) " memories.")].

(** * Properties *)

(** ** The text helpers on examples *)

Example limitText_short : limitText "abc" 100 = "abc".
Proof. reflexivity. Qed.

Example limitText_long : limitText "abcdef" 3 = "abc…".
Proof. reflexivity. Qed.

Example trim_ex : trim "  a b  " = "a b".
Proof. reflexivity. Qed.

Example sanitizeId_ex :
  sanitizeId (String dquote "a'") = String backslash (String dquote ("a\'")).
Proof. reflexivity. Qed.

(** ** Lazy initialization *)

Ltac unfold_client :=
  unfold ensureInitialized, doInit, tableNames_includes_memories, openTable,
    emit, modify, get, bind, ret, throw, try_catch, outcome, after in *.

Lemma ensureInitialized_ready (st : State) :
  initPromise st = true -> ensureInitialized st = (Return tt, st).
Proof.
  intros Hinit. unfold_client. now rewrite Hinit.
Qed.

Lemma ensureInitialized_returns (st : State) :
  outcome (ensureInitialized st) = Return tt.
Proof.
  unfold_client.
  destruct st as [d t [|] n rnd dr ol c dist [m|] pf tr sql]; reflexivity.
Qed.

(** Initialization touches the client's fields and the trace only. *)
Lemma ensureInitialized_world (st : State) :
  let st' := after (ensureInitialized st) in
  w_memories st' = w_memories st /\ w_profile st' = w_profile st /\
  w_calls st' = w_calls st /\ w_now st' = w_now st /\
  w_draws st' = w_draws st /\ w_ollama st' = w_ollama st /\
  w_random st' = w_random st /\ w_distance st' = w_distance st.
Proof.
  unfold_client.
  destruct st as [d t [|] n rnd dr ol c dist [m|] pf tr sql]; cbn; repeat split.
Qed.

Lemma ensureInitialized_flags (st : State) :
  let st' := after (ensureInitialized st) in
  initPromise st' = true /\
  (initPromise st = false -> db st' = true) /\
  (initPromise st = false ->
   table st' = match w_memories st with Some _ => true | None => table st end) /\
  (initPromise st = true -> st' = st).
Proof.
  unfold_client.
  destruct st as [d t [|] n rnd dr ol c dist [m|] pf tr sql]; cbn;
    repeat split; discriminate.
Qed.

Lemma ensureInitialized_split (st : State) :
  ensureInitialized st = (Return tt, after (ensureInitialized st)).
Proof.
  pose proof (ensureInitialized_returns st) as H.
  unfold outcome, after in *.
  destruct (ensureInitialized st) as [r st']; cbn in *. now subst.
Qed.

Lemma init_first {A} (k : M A) (st : State) :
  (ensureInitialized ;; k) st = k (after (ensureInitialized st)).
Proof.
  unfold bind. now rewrite ensureInitialized_split.
Qed.

Lemma noTable_after_init (st : State) :
  noTable st -> table (after (ensureInitialized st)) = false.
Proof.
  intros [Htable Hdisk].
  destruct (ensureInitialized_flags st) as (_ & _ & Hfresh & Hsame).
  destruct (initPromise st) eqn:Hinit.
  - now rewrite Hsame.
  - rewrite Hfresh, Hdisk by reflexivity. assumption.
Qed.

(** ** Search without a table *)

Lemma search_noTable_run (query : string) (limit : option nat) (st : State) :
  noTable st ->
  search query limit st = (Return [], after (ensureInitialized st)).
Proof.
  intros Hno.
  pose proof (noTable_after_init st Hno) as Htable.
  unfold search. rewrite init_first.
  unfold bind, get. rewrite Htable. reflexivity.
Qed.

(** C4: on a client whose store has no table, [search] returns the empty
    list for every query and limit; it raises nothing, and it does not
    ask the embedding service, so the answer does not depend on it.  The
    store is left as it was. *)
Theorem search_without_table (query : string) (limit : option nat) (st : State) :
  noTable st ->
  outcome (search query limit st) = Return [] /\
  after (search query limit st) = after (ensureInitialized st) /\
  w_calls (after (search query limit st)) = w_calls st /\
  w_memories (after (search query limit st)) = w_memories st.
Proof.
  intros Hno.
  pose proof (ensureInitialized_world st) as (Hmem & _ & Hcalls & _).
  rewrite (search_noTable_run query limit st Hno). cbn. auto.
Qed.

Lemma search_without_table_witness :
  outcome (search "anything" None (newClient (flakyService 9 (ErrorObj "down")) None None))
  = Return [].
Proof.
  apply (search_without_table "anything" None
           (newClient (flakyService 9 (ErrorObj "down")) None None)).
  split; reflexivity.
Defined.

(** ** Wiping without a table *)

Lemma since_self (st : State) : since st st = [].
Proof.
  unfold since. rewrite <- length_rev. apply skipn_all.
Qed.

Lemma since_init_fresh (st : State) :
  initPromise st = false ->
  since st (after (ensureInitialized st)) =
    ([EvMkdir; EvMkdir; EvConnect; EvTableNames] ++
     match w_memories st with Some _ => [EvOpenTable] | None => [] end)%list.
Proof.
  intros Hinit. unfold since. unfold_client.
  destruct st as [d t i n rnd dr ol c dist [m|] pf tr sql]; cbn in *; subst; cbn;
    repeat rewrite <- app_assoc; rewrite <- length_rev, skipn_app, skipn_all;
    rewrite Nat.sub_diag; reflexivity.
Qed.

(** C10: on a client whose store has no table, [wipeAllMemories] returns
    a deleted count of 0 and raises nothing; it does nothing beyond the
    lazy initialization, so no row is counted and no table is dropped,
    and the store is left as it was. *)
Theorem wipeAllMemories_without_table (st : State) :
  noTable st ->
  outcome (wipeAllMemories st) = Return 0 /\
  after (wipeAllMemories st) = after (ensureInitialized st) /\
  w_memories (after (wipeAllMemories st)) = w_memories st /\
  ~ In EvCountRows (since st (after (wipeAllMemories st))) /\
  ~ In EvDropTable (since st (after (wipeAllMemories st))).
Proof.
  intros Hno.
  pose proof (noTable_after_init st Hno) as Htable.
  pose proof (ensureInitialized_world st) as (Hmem & _).
  assert (Hrun : wipeAllMemories st = (Return 0, after (ensureInitialized st))).
  { unfold wipeAllMemories, bind at 1. rewrite ensureInitialized_split.
    unfold bind, get. rewrite Htable. reflexivity. }
  rewrite Hrun. cbn [outcome after fst snd].
  repeat split; auto.
  - destruct (initPromise st) eqn:Hinit.
    + destruct (ensureInitialized_flags st) as (_ & _ & _ & Hsame).
      rewrite Hsame, since_self by assumption. intros [].
    + rewrite since_init_fresh by assumption.
      destruct Hno as [_ Hdisk]. rewrite Hdisk by assumption.
      cbn. intuition discriminate.
  - destruct (initPromise st) eqn:Hinit.
    + destruct (ensureInitialized_flags st) as (_ & _ & _ & Hsame).
      rewrite Hsame, since_self by assumption. intros [].
    + rewrite since_init_fresh by assumption.
      destruct Hno as [_ Hdisk]. rewrite Hdisk by assumption.
      cbn. intuition discriminate.
Qed.

Lemma wipeAllMemories_without_table_witness :
  outcome (wipeAllMemories (newClient lengthService None None)) = Return 0.
Proof.
  apply (wipeAllMemories_without_table (newClient lengthService None None)).
  split; reflexivity.
Defined.

(** ** The retry loop of [embed] *)

Arguments since : simpl never.
Arguments timeline : simpl never.

Lemma skipn_rev_app (tr new : list Event) :
  skipn (List.length tr) (rev (new ++ tr)%list) = rev new.
Proof.
  rewrite rev_app_distr, <- length_rev, skipn_app, skipn_all, Nat.sub_diag.
  reflexivity.
Qed.

Ltac fields :=
  cbn [fst snd db table initPromise w_now w_random w_draws w_ollama w_calls
       w_distance w_memories w_profile w_trace w_sql
       set_db set_table set_initPromise set_now set_draws set_calls
       set_memories set_profile set_trace].

(* The events a trace [l] adds on top of [tr]. *)
Ltac split_trace tr l :=
  match l with
  | tr => constr:(@nil Event)
  | ?e :: ?l' => let r := split_trace tr l' in constr:(e :: r)
  end.

Ltac since_eval :=
  unfold since; fields;
  match goal with
  | |- context [skipn (List.length ?tr) (rev ?l)] =>
      let new := split_trace tr l in
      change l with (new ++ tr)%list; rewrite (skipn_rev_app tr new)
  end.

Ltac run_embed :=
  unfold embed, EMBED_RETRY_COUNT, EMBED_RETRY_DELAY_MS, outcome, after;
  cbn [embed_loop];
  unfold try_catch, ollama_embed, sleep, emit, modify, bind, ret, throw;
  cbn.

Lemma toError_Error (msg : string) : toError (ErrorObj msg) = ErrorObj msg.
Proof. reflexivity. Qed.

Lemma toError_idempotent (e : Thrown) : toError (toError e) = toError e.
Proof. destruct e; reflexivity. Qed.

(** Every call of [embed] sends at least one and at most three requests. *)
Lemma embed_calls (text : string) (st : State) :
  w_calls st < w_calls (after (embed text st)) <= w_calls st + EMBED_RETRY_COUNT.
Proof.
  destruct st as [d t i n rnd dr ol c dist m pf tr sql].
  run_embed.
  destruct (ol c text) eqn:E0; cbn; [lia|].
  destruct (ol (S c) text) eqn:E1; cbn; [lia|].
  destruct (ol (S (S c)) text) eqn:E2; cbn; lia.
Qed.

(** C2, as the code has it: [embed] sends at most three requests; when
    the first [k < 3] are rejected and the next one is answered, it
    returns the first vector of that answer, having waited the base delay
    times the attempt number after each rejected attempt; when all three
    are rejected it throws the last attempt's error, the caught value
    itself when that is an [Error] and otherwise a new [Error] made of
    its string form, having waited after the first and the second attempt
    only. *)
Theorem embed_retries (text : string) (st : State) :
  w_calls st < w_calls (after (embed text st)) <= w_calls st + EMBED_RETRY_COUNT /\
  (forall k v others,
      k < EMBED_RETRY_COUNT ->
      nextRejected st text k ->
      w_ollama st (w_calls st + k) text = Embeddings v others ->
      outcome (embed text st) = Return v /\
      w_calls (after (embed text st)) = w_calls st + k + 1 /\
      timeline (since st (after (embed text st))) = attemptsUpTo text k) /\
  (forall e,
      nextRejected st text (EMBED_RETRY_COUNT - 1) ->
      w_ollama st (w_calls st + (EMBED_RETRY_COUNT - 1)) text = Rejected e ->
      outcome (embed text st) = Throw (toError e) /\
      w_calls (after (embed text st)) = w_calls st + EMBED_RETRY_COUNT /\
      timeline (since st (after (embed text st))) =
        attemptsUpTo text (EMBED_RETRY_COUNT - 1)).
Proof.
  split; [apply embed_calls|].
  unfold nextRejected.
  destruct st as [d t i n rnd dr ol c dist m pf tr sql].
  cbn [w_calls w_ollama].
  split.
  - intros k v others Hk Hrej Hok.
    unfold EMBED_RETRY_COUNT in Hk.
    destruct k as [|[|[|k]]]; [| | | lia].
    + rewrite Nat.add_0_r in Hok.
      run_embed. rewrite Hok; cbn.
      split; [reflexivity|]. split; [lia|].
      since_eval. reflexivity.
    + destruct (Hrej 0) as [e0 E0]; [lia|]. rewrite Nat.add_0_r in E0.
      rewrite Nat.add_1_r in Hok.
      run_embed. rewrite E0; cbn. rewrite Hok; cbn.
      split; [reflexivity|]. split; [lia|].
      since_eval. reflexivity.
    + destruct (Hrej 0) as [e0 E0]; [lia|]. rewrite Nat.add_0_r in E0.
      destruct (Hrej 1) as [e1 E1]; [lia|]. rewrite Nat.add_1_r in E1.
      replace (c + 2) with (S (S c)) in Hok by lia.
      run_embed. rewrite E0; cbn. rewrite E1; cbn. rewrite Hok; cbn.
      split; [reflexivity|]. split; [lia|].
      since_eval. reflexivity.
  - intros e Hrej Hlast.
    unfold EMBED_RETRY_COUNT in *. cbn [Nat.sub] in *.
    destruct (Hrej 0) as [e0 E0]; [lia|]. rewrite Nat.add_0_r in E0.
    destruct (Hrej 1) as [e1 E1]; [lia|]. rewrite Nat.add_1_r in E1.
    replace (c + 2) with (S (S c)) in Hlast by lia.
    run_embed. rewrite E0; cbn. rewrite E1; cbn. rewrite Hlast; cbn.
    split; [reflexivity|]. split; [lia|].
    since_eval. reflexivity.
Qed.

(** Two rejections, then an answer: the vector of the third attempt comes
    back, after waits of 1000 and 2000 ms. *)
Lemma embed_retries_witness :
  outcome (embed "note" (newClient (flakyService 2 (ErrorObj "fetch failed")) None None))
    = Return [4%Q; 1%Q] /\
  timeline (since (newClient (flakyService 2 (ErrorObj "fetch failed")) None None)
              (after (embed "note"
                        (newClient (flakyService 2 (ErrorObj "fetch failed")) None None))))
    = [EvEmbed "note"; EvSleep 1000; EvEmbed "note"; EvSleep 2000; EvEmbed "note"].
Proof.
  pose proof (proj1 (proj2 (embed_retries "note"
    (newClient (flakyService 2 (ErrorObj "fetch failed")) None None)))
    2 [4%Q; 1%Q] []) as H.
  destruct H as (Hout & _ & Htime).
  - unfold EMBED_RETRY_COUNT. lia.
  - intros i Hi. exists (ErrorObj "fetch failed").
    destruct i as [|[|i]]; [reflexivity | reflexivity | lia].
  - reflexivity.
  - split; [exact Hout | exact Htime].
Defined.

(** C2 as the specification words it fails: a rejection with a value that
    is not an [Error] reaches the caller as a new [Error], not as the
    value that was thrown. *)
Lemma embed_rethrows_unchanged_counterexample :
  ~ (forall text st e,
        nextRejected st text (EMBED_RETRY_COUNT - 1) ->
        w_ollama st (w_calls st + (EMBED_RETRY_COUNT - 1)) text = Rejected e ->
        outcome (embed text st) = Throw e).
Proof.
  intros H.
  specialize (H "note" (newClient (flakyService 3 (NonError "timeout")) None None)
                (NonError "timeout")).
  assert (Hout : outcome (embed "note"
                   (newClient (flakyService 3 (NonError "timeout")) None None))
                 = Throw (ErrorObj "timeout")) by reflexivity.
  rewrite H in Hout.
  - discriminate Hout.
  - intros i Hi. exists (NonError "timeout").
    unfold EMBED_RETRY_COUNT in Hi.
    destruct i as [|[|i]]; [reflexivity | reflexivity | cbn in Hi; lia].
  - reflexivity.
Qed.

(** ** What a computation leaves alone *)

Section Keeps.
Variable R : State -> State -> Prop.
Hypothesis R_refl : forall st, R st st.
Hypothesis R_trans : forall a b c, R a b -> R b c -> R a c.

Lemma keeps_ret {A} (a : A) : keeps R (ret a).
Proof. intros st. apply R_refl. Qed.

Lemma keeps_throw {A} (e : Thrown) : keeps R (@throw A e).
Proof. intros st. apply R_refl. Qed.

Lemma keeps_get : keeps R get.
Proof. intros st. apply R_refl. Qed.

Lemma keeps_bind {A B} (m : M A) (k : A -> M B) :
  keeps R m -> (forall a, keeps R (k a)) -> keeps R (bind m k).
Proof.
  intros Hm Hk st. unfold bind.
  specialize (Hm st). destruct (m st) as [[a|e] st1]; cbn in *.
  - eapply R_trans; [exact Hm | apply Hk].
  - exact Hm.
Qed.

Lemma keeps_try_catch {A} (m : M A) (h : Thrown -> M A) :
  keeps R m -> (forall e, keeps R (h e)) -> keeps R (try_catch m h).
Proof.
  intros Hm Hh st. unfold try_catch.
  specialize (Hm st). destruct (m st) as [[a|e] st1]; cbn in *.
  - exact Hm.
  - eapply R_trans; [exact Hm | apply Hh].
Qed.

Lemma keeps_modify (f : State -> State) :
  (forall st, R st (f st)) -> keeps R (modify f).
Proof. intros Hf st. apply Hf. Qed.

Lemma keeps_if {A} (b : bool) (m1 m2 : M A) :
  keeps R m1 -> keeps R m2 -> keeps R (if b then m1 else m2).
Proof. destruct b; auto. Qed.
End Keeps.

Lemma callsGrow_refl (st : State) : callsGrow st st.
Proof. unfold callsGrow. lia. Qed.

Lemma callsGrow_trans (a b c : State) : callsGrow a b -> callsGrow b c -> callsGrow a c.
Proof. unfold callsGrow. lia. Qed.

Lemma storeKept_refl (st : State) : storeKept st st.
Proof. reflexivity. Qed.

Lemma storeKept_trans (a b c : State) : storeKept a b -> storeKept b c -> storeKept a c.
Proof. unfold storeKept. congruence. Qed.

(* Takes a computation apart along its binds and branches. *)
Ltac keeps_steps Rrefl Rtrans :=
  repeat
    lazymatch goal with
    | |- keeps _ (ret _) => apply (keeps_ret _ Rrefl)
    | |- keeps _ (throw _) => apply (keeps_throw _ Rrefl)
    | |- keeps _ get => apply (keeps_get _ Rrefl)
    | |- keeps _ (bind _ _) => apply (keeps_bind _ Rtrans); [|intros ?]
    | |- keeps _ (try_catch _ _) => apply (keeps_try_catch _ Rtrans); [|intros ?]
    | |- keeps _ (modify _) => apply keeps_modify; intros ?
    | |- keeps _ (if ?b then _ else _) => destruct b
    | |- keeps _ (match ?x with _ => _ end) => destruct x
    end.

Lemma callsGrow_emit (e : Event) : keeps callsGrow (emit e).
Proof. intros st. unfold callsGrow. cbn. lia. Qed.

Lemma storeKept_emit (e : Event) : keeps storeKept (emit e).
Proof. intros st. reflexivity. Qed.

Lemma callsGrow_ensureInitialized : keeps callsGrow ensureInitialized.
Proof.
  intros st. unfold callsGrow.
  destruct (ensureInitialized_world st) as (_ & _ & H & _).
  unfold after in H. lia.
Qed.

Lemma storeKept_ensureInitialized : keeps storeKept ensureInitialized.
Proof.
  intros st. destruct (ensureInitialized_world st) as (H & _). exact H.
Qed.

Lemma callsGrow_embed (text : string) : keeps callsGrow (embed text).
Proof.
  intros st. unfold callsGrow.
  pose proof (embed_calls text st) as H. unfold after in H. lia.
Qed.

Lemma storeKept_embed (text : string) : keeps storeKept (embed text).
Proof.
  intros st. unfold storeKept.
  destruct st as [d t i n rnd dr ol c dist m pf tr sql].
  run_embed.
  destruct (ol c text) eqn:E0; cbn; [reflexivity|].
  destruct (ol (S c) text) eqn:E1; cbn; [reflexivity|].
  destruct (ol (S (S c)) text) eqn:E2; cbn; reflexivity.
Qed.

Lemma callsGrow_table_delete (text : string) : keeps callsGrow (table_delete text).
Proof.
  unfold table_delete.
  keeps_steps callsGrow_refl callsGrow_trans;
    try apply callsGrow_emit; unfold callsGrow; cbn; lia.
Qed.

Lemma callsGrow_table_add (record : MemoryRecord) : keeps callsGrow (table_add record).
Proof.
  unfold table_add.
  keeps_steps callsGrow_refl callsGrow_trans;
    try apply callsGrow_emit; unfold callsGrow; cbn; lia.
Qed.

Lemma callsGrow_ensureTable (vectorDim : nat) : keeps callsGrow (ensureTable vectorDim).
Proof.
  unfold ensureTable, createTable, Date_toISOString.
  keeps_steps callsGrow_refl callsGrow_trans;
    try apply callsGrow_emit; try apply callsGrow_table_delete;
    try (intros st; apply callsGrow_refl);
    unfold callsGrow; cbn; lia.
Qed.

Lemma callsGrow_generateId : keeps callsGrow generateId.
Proof.
  intros st. unfold callsGrow. cbn. lia.
Qed.

(** ** Validation in [addMemory] *)

(** What [addMemory] does once the content has passed validation and its
    vector is there. *)
Lemma callsGrow_storeRecord (cleaned : string) (metadata : option Metadata)
    (customId : option string) (vector : Vector) :
  keeps callsGrow (storeRecord cleaned metadata customId vector).
Proof.
  unfold storeRecord.
  apply (keeps_bind _ callsGrow_trans); [apply callsGrow_ensureTable|intros _].
  apply (keeps_bind _ callsGrow_trans); [intros st; apply callsGrow_refl|intros now].
  apply (keeps_bind _ callsGrow_trans);
    [destruct customId; [apply (keeps_ret _ callsGrow_refl)|apply callsGrow_generateId]|intros id].
  apply (keeps_bind _ callsGrow_trans).
  - destruct customId as [[|c cs]|]; try apply (keeps_ret _ callsGrow_refl).
    apply (keeps_try_catch _ callsGrow_trans);
      [apply callsGrow_table_delete|intros _; apply (keeps_ret _ callsGrow_refl)].
  - intros _.
    apply (keeps_bind _ callsGrow_trans);
      [apply callsGrow_table_add|intros _; apply (keeps_ret _ callsGrow_refl)].
Qed.

(** Valid content is embedded, and the record is stored from the state
    the embedding leaves. *)
Lemma addMemory_valid (content : string) (metadata : option Metadata)
    (customId : option string) (st : State) :
  validContent content ->
  addMemory content metadata customId st =
  (vector <- embed (trim content) ;;
   storeRecord (trim content) metadata customId vector)
    (after (ensureInitialized st)).
Proof.
  intros [Hne Hlen].
  unfold addMemory. rewrite init_first.
  destruct (trim content) as [|c cleaned] eqn:Hclean; [congruence|].
  apply Nat.ltb_ge in Hlen. rewrite Hlen. reflexivity.
Qed.

Lemma MAX_CONTENT_LENGTH_text : string_of_nat MAX_CONTENT_LENGTH = "50000".
Proof. vm_compute. reflexivity. Qed.

(** C7: [addMemory] trims the content and throws a validation error when
    the trimmed content is empty or longer than [MAX_CONTENT_LENGTH]; in
    both cases it has done nothing but the lazy initialization, so no
    request went to the embedding service, nothing was waited for and the
    table is as it was.  Any other content passes: the embedding service
    is asked. *)
Theorem addMemory_validation (content : string) (metadata : option Metadata)
    (customId : option string) (st : State) :
  (trim content = EmptyString ->
     outcome (addMemory content metadata customId st)
       = Throw (ErrorObj "Cannot store empty content") /\
     after (addMemory content metadata customId st) = after (ensureInitialized st)) /\
  (MAX_CONTENT_LENGTH < String.length (trim content) ->
     outcome (addMemory content metadata customId st)
       = Throw (ErrorObj
                  (String.append "Content too large ("
                     (String.append (string_of_nat (String.length (trim content)))
                        " chars, max 50000)"))) /\
     after (addMemory content metadata customId st) = after (ensureInitialized st)) /\
  (trim content <> EmptyString ->
   String.length (trim content) <= MAX_CONTENT_LENGTH ->
     w_calls st < w_calls (after (addMemory content metadata customId st))) /\
  w_calls (after (ensureInitialized st)) = w_calls st /\
  w_now (after (ensureInitialized st)) = w_now st /\
  w_memories (after (ensureInitialized st)) = w_memories st.
Proof.
  pose proof (ensureInitialized_world st) as (Hmem & _ & Hcalls & Hnow & _).
  cbv zeta in *.
  repeat split; auto.
  - unfold addMemory, bind at 1. rewrite ensureInitialized_split.
    rewrite H. reflexivity.
  - unfold addMemory, bind at 1. rewrite ensureInitialized_split.
    rewrite H. reflexivity.
  - unfold addMemory, bind at 1. rewrite ensureInitialized_split.
    destruct (trim content) as [|c cleaned] eqn:Hclean.
    + exfalso. exact (Nat.nlt_0_r _ H).
    + apply Nat.ltb_lt in H. rewrite H, MAX_CONTENT_LENGTH_text. reflexivity.
  - unfold addMemory, bind at 1. rewrite ensureInitialized_split.
    destruct (trim content) as [|c cleaned] eqn:Hclean.
    + exfalso. exact (Nat.nlt_0_r _ H).
    + apply Nat.ltb_lt in H. rewrite H. reflexivity.
  - intros Hne Hlen.
    rewrite (addMemory_valid content metadata customId st (conj Hne Hlen)).
    unfold bind at 1.
    remember (after (ensureInitialized st)) as st0 eqn:Hst0. clear Hst0.
    pose proof (embed_calls (trim content) st0) as Hembed.
    unfold after in *.
    destruct (embed (trim content) st0) as [[vector|e] st1]; cbn [fst snd] in *.
    + pose proof (callsGrow_storeRecord (trim content) metadata customId
                    vector st1) as Hrest.
      unfold callsGrow in Hrest. lia.
    + lia.
Qed.

Lemma addMemory_validation_witness :
  outcome (addMemory "   " None None (newClient lengthService None None))
    = Throw (ErrorObj "Cannot store empty content") /\
  w_calls (after (addMemory "   " None None (newClient lengthService None None))) = 0.
Proof.
  destruct (proj1 (addMemory_validation "   " None None
                     (newClient lengthService None None)))
    as [Hout Hafter].
  - reflexivity.
  - split; [exact Hout|]. rewrite Hafter. reflexivity.
Defined.

(** The ceiling itself passes, one character more does not. *)
Example addMemory_at_the_ceiling :
  outcome (addMemory (longContent 50000) None None (newClient lengthService None None))
    = Return "mem_1000_r0" /\
  outcome (addMemory (longContent 50001) None None (newClient lengthService None None))
    = Throw (ErrorObj "Content too large (50001 chars, max 50000)").
Proof. split; vm_compute; reflexivity. Qed.

(** ** Merging the profile *)

Lemma pushNewFacts_filter (existing facts : list string) (profile : UserProfile) :
  pushNewFacts existing facts profile =
  {| static := (static profile ++ filter (isNewFact existing) facts)%list;
     dynamic := dynamic profile;
     lastUpdated := lastUpdated profile |}.
Proof.
  unfold pushNewFacts. revert profile.
  induction facts as [|fact facts IH]; intros profile; cbn [fold_left filter].
  - rewrite app_nil_r. now destruct profile.
  - rewrite IH. unfold isNewFact at 2.
    destruct (negb (existsb (String.eqb fact) existing)); cbn.
    + now rewrite <- app_assoc.
    + reflexivity.
Qed.

Lemma isNewFact_spec (existing : list string) (fact : string) :
  isNewFact existing fact = true <-> ~ In fact existing.
Proof.
  unfold isNewFact. rewrite negb_true_iff.
  split.
  - intros Hnone Hin.
    assert (existsb (String.eqb fact) existing = true) as Hsome.
    { apply existsb_exists. exists fact. split; [assumption|apply String.eqb_refl]. }
    congruence.
  - intros Hnot. destruct (existsb (String.eqb fact) existing) eqn:E; [|reflexivity].
    apply existsb_exists in E. destruct E as (x & Hin & Heq).
    apply String.eqb_eq in Heq. subst. contradiction.
Qed.

Lemma updateProfile_run (staticFacts dynamicFacts : option (list string)) (st : State) :
  initPromise st = true ->
  updateProfile staticFacts dynamicFacts st =
  (Return tt,
   set_profile
     (Some (JsonOf
        {| static :=
             (static (priorProfile st) ++
              match staticFacts with
              | Some facts => filter (isNewFact (static (priorProfile st))) facts
              | None => []
              end)%list;
           dynamic :=
             match dynamicFacts with
             | Some facts => firstn 20 facts
             | None => dynamic (priorProfile st)
             end;
           lastUpdated := Some (w_now st) |}))
     (set_trace
        (EvWriteFile
           {| static :=
                (static (priorProfile st) ++
                 match staticFacts with
                 | Some facts => filter (isNewFact (static (priorProfile st))) facts
                 | None => []
                 end)%list;
              dynamic :=
                match dynamicFacts with
                | Some facts => firstn 20 facts
                | None => dynamic (priorProfile st)
                end;
              lastUpdated := Some (w_now st) |}
         :: EvReadFile :: w_trace st) st)).
Proof.
  intros Hinit.
  unfold updateProfile, bind at 1. rewrite (ensureInitialized_ready st Hinit).
  unfold priorProfile.
  destruct st as [d t i n rnd dr ol c dist m pf tr sql]. cbn in Hinit. subst i.
  destruct pf as [[p|raw]|]; destruct staticFacts as [sf|]; destruct dynamicFacts as [df|];
    cbn; rewrite ?pushNewFacts_filter, ?app_nil_r; reflexivity.
Qed.

Lemma updateProfile_after_init (staticFacts dynamicFacts : option (list string))
    (st : State) :
  updateProfile staticFacts dynamicFacts st =
  updateProfile staticFacts dynamicFacts (after (ensureInitialized st)).
Proof.
  unfold updateProfile. rewrite !init_first.
  destruct (ensureInitialized_flags st) as (Hinit & _).
  destruct (ensureInitialized_flags (after (ensureInitialized st))) as (_ & _ & _ & Hsame).
  now rewrite (Hsame Hinit).
Qed.

(** X25: whatever the profile file holds and whatever the arguments are,
    [updateProfile] succeeds and writes the whole profile back once: its
    stable facts are the prior ones followed by those elements of
    [staticFacts] that are equal, as strings, to none of the prior ones,
    in the order given and as often as they are given; its dynamic facts
    are the first 20 of
    [dynamicFacts] when that is supplied and the prior ones otherwise;
    [lastUpdated] is the time of the call.  Starting from no stable
    facts, ["fact A"] and then ["fact A"; "fact B"] leave
    ["fact A"; "fact B"]. *)
Theorem updateProfile_merges (staticFacts dynamicFacts : option (list string))
    (st : State) :
  let prior := priorProfile st in
  let written :=
    {| static :=
         (static prior ++
          match staticFacts with
          | Some facts => filter (isNewFact (static prior)) facts
          | None => []
          end)%list;
       dynamic :=
         match dynamicFacts with
         | Some facts => firstn 20 facts
         | None => dynamic prior
         end;
       lastUpdated := Some (w_now st) |} in
  outcome (updateProfile staticFacts dynamicFacts st) = Return tt /\
  w_profile (after (updateProfile staticFacts dynamicFacts st)) = Some (JsonOf written) /\
  since (after (ensureInitialized st)) (after (updateProfile staticFacts dynamicFacts st))
    = [EvReadFile; EvWriteFile written] /\
  (forall fact,
      In fact (static written) <->
      In fact (static prior) \/
      exists facts, staticFacts = Some facts /\ In fact facts) /\
  (static prior = [] ->
   static (priorProfile
             (after (updateProfile (Some ["fact A"; "fact B"]) None
                       (after (updateProfile (Some ["fact A"]) None st)))))
     = ["fact A"; "fact B"]).
Proof.
  cbv zeta.
  pose proof (updateProfile_after_init staticFacts dynamicFacts st) as Hrun.
  pose proof (updateProfile_after_init (Some ["fact A"]) None st) as HrunA.
  destruct (ensureInitialized_flags st) as (Hinit & _).
  destruct (ensureInitialized_world st) as (_ & Hprofile & _ & Hnow & _).
  assert (Hprior : priorProfile (after (ensureInitialized st)) = priorProfile st).
  { unfold priorProfile. now rewrite Hprofile. }
  remember (after (ensureInitialized st)) as st0 eqn:Hst0. clear Hst0.
  rewrite (updateProfile_run _ _ _ Hinit), Hprior, Hnow in Hrun.
  rewrite (updateProfile_run _ _ _ Hinit), Hprior, Hnow in HrunA.
  rewrite Hrun. unfold outcome, after. cbn [fst snd].
  split; [|split; [|split; [|split]]].
  - reflexivity.
  - reflexivity.
  - since_eval. reflexivity.
  - intros fact. cbn [static]. rewrite in_app_iff.
    destruct staticFacts as [facts|].
    + rewrite filter_In, isNewFact_spec. split.
      * intros [Hin|[Hin _]]; [now left|right; eauto].
      * intros [Hin|(facts' & Heq & Hin)]; [now left|].
        injection Heq as <-.
        destruct (in_dec string_dec fact (static (priorProfile st))); auto.
    + split.
      * intros [Hin|[]]; now left.
      * intros [Hin|(facts' & Heq & _)]; [now left|discriminate].
  - intros Hempty.
    rewrite HrunA, Hempty. cbn [snd].
    match goal with
    | |- context [updateProfile _ _ ?s] =>
        rewrite (updateProfile_run (Some ["fact A"; "fact B"]) None s Hinit)
    end.
    reflexivity.
Qed.

Lemma updateProfile_merges_witness :
  static (priorProfile
            (after (updateProfile (Some ["fact A"; "fact B"]) None
                      (after (updateProfile (Some ["fact A"]) None
                                (newClient lengthService None None))))))
    = ["fact A"; "fact B"].
Proof.
  apply (updateProfile_merges None None (newClient lengthService None None)).
  reflexivity.
Defined.

(** Twenty-five dynamic facts: the first twenty are kept. *)
Example updateProfile_truncates :
  option_map (fun doc => match doc with
                         | JsonOf p => dynamic p
                         | Malformed _ => []
                         end)
    (w_profile (after (updateProfile None
                         (Some (map string_of_nat (seq 1 25)))
                         (newClient lengthService None None))))
  = Some (map string_of_nat (seq 1 20)).
Proof. reflexivity. Qed.

Lemma updateProfile_repeated (fact : string) (st : State) :
  static (priorProfile st) = [] ->
  outcome (updateProfile (Some [fact; fact]) None st) = Return tt /\
  static (priorProfile (after (updateProfile (Some [fact; fact]) None st)))
    = [fact; fact] /\
  static (priorProfile
            (after (updateProfile (Some [fact]) None
                      (after (updateProfile (Some [fact; fact]) None st)))))
    = [fact; fact].
Proof.
  intros Hempty.
  pose proof (updateProfile_after_init (Some [fact; fact]) None st) as Hrun.
  destruct (ensureInitialized_flags st) as (Hinit & _).
  destruct (ensureInitialized_world st) as (_ & Hprofile & _ & Hnow & _).
  assert (Hprior : priorProfile (after (ensureInitialized st)) = priorProfile st).
  { unfold priorProfile. now rewrite Hprofile. }
  remember (after (ensureInitialized st)) as st0 eqn:Hst0. clear Hst0.
  rewrite (updateProfile_run _ _ _ Hinit), Hprior, Hnow, Hempty in Hrun.
  rewrite Hrun. unfold outcome, after. cbn [fst snd].
  assert (Hnew : isNewFact [] fact = true) by reflexivity.
  cbn [filter app] in *. rewrite Hnew.
  split; [reflexivity|]. split; [reflexivity|].
  match goal with
  | |- context [updateProfile _ _ ?s] =>
      rewrite (updateProfile_run (Some [fact]) None s Hinit)
  end.
  cbn [snd]. unfold priorProfile. fields. cbn [static filter].
  assert (Hold : isNewFact [fact; fact] fact = false).
  { unfold isNewFact. cbn [existsb]. now rewrite String.eqb_refl. }
  rewrite Hold. reflexivity.
Qed.

(** C5 breaks on the code: the set of the known facts is built once,
    before the loop over [staticFacts], and a fact that is pushed is not
    added to it.  A fact given twice in one call is tested twice against
    the same set and pushed twice: on a client without a profile file,
    [updateProfile] of a fact and the same fact again succeeds and writes
    the fact twice, and a later call with that fact leaves the duplicate
    where it is. *)
Theorem updateProfile_repeats_fact (fact : string) :
  outcome (updateProfile (Some [fact; fact]) None (newClient lengthService None None))
    = Return tt /\
  static (priorProfile
            (after (updateProfile (Some [fact; fact]) None
                      (newClient lengthService None None))))
    = [fact; fact] /\
  static (priorProfile
            (after (updateProfile (Some [fact]) None
                      (after (updateProfile (Some [fact; fact]) None
                                (newClient lengthService None None))))))
    = [fact; fact].
Proof.
  apply updateProfile_repeated. reflexivity.
Qed.

(** ** Escaping ids in filters *)

Lemma sanitizeId_escapeQuotes (id : string) : sanitizeId id = escapeQuotes id.
Proof.
  unfold sanitizeId.
  induction id as [|c id IH]; [reflexivity|].
  cbn [replaceAll escapeQuotes].
  destruct (Ascii.eqb c dquote) eqn:Hd.
  - apply Ascii.eqb_eq in Hd. subst c. cbn. now rewrite IH.
  - cbn [replaceAll orb]. destruct (Ascii.eqb c squote) eqn:Hs.
    + apply Ascii.eqb_eq in Hs. subst c. rewrite IH. reflexivity.
    + now rewrite IH.
Qed.

(** Every quote of a sanitized id has a backslash right before it. *)
Lemma escapeQuotes_quotes_preceded (id : string) (n : nat) (c : ascii) :
  String.get n (escapeQuotes id) = Some c ->
  c = dquote \/ c = squote ->
  exists m, n = S m /\ String.get m (escapeQuotes id) = Some backslash.
Proof.
  revert n. induction id as [|x id IH]; intros n Hget Hquote.
  - destruct n; discriminate.
  - cbn [escapeQuotes] in *.
    destruct (Ascii.eqb x dquote || Ascii.eqb x squote) eqn:Hx.
    + destruct n as [|[|n]].
      * cbn in Hget. injection Hget as <-.
        destruct Hquote as [Hq|Hq]; discriminate Hq.
      * exists 0. split; reflexivity.
      * cbn [String.get] in Hget.
        destruct (IH n Hget Hquote) as (m & -> & Hm).
        exists (S (S m)). split; [reflexivity|exact Hm].
    + destruct n as [|n].
      * cbn in Hget. injection Hget as <-. exfalso.
        destruct Hquote as [-> | ->]; cbn in Hx; discriminate.
      * cbn [String.get] in Hget.
        destruct (IH n Hget Hquote) as (m & -> & Hm).
        exists (S m). split; [reflexivity|exact Hm].
Qed.

(** Under the reading [sanitizeId] writes for, an id without a backslash
    would be read back as it was, the literal ending at the closing quote
    of the template. *)
Lemma readLiteral_escapeQuotes (id rest : string) :
  hasBackslash id = false ->
  readLiteral (String.append (escapeQuotes id) (String dquote rest)) = Some (id, rest).
Proof.
  unfold hasBackslash.
  induction id as [|c id IH]; intros Hno.
  - reflexivity.
  - cbn [list_ascii_of_string existsb] in Hno.
    apply orb_false_iff in Hno. destruct Hno as [Hc Hno].
    specialize (IH Hno).
    cbn [escapeQuotes].
    destruct (Ascii.eqb c dquote || Ascii.eqb c squote) eqn:Hq.
    + cbn [String.append readLiteral]. rewrite Ascii.eqb_refl.
      change (Ascii.eqb backslash dquote) with false. cbn iota.
      now rewrite IH.
    + apply orb_false_iff in Hq. destruct Hq as [Hd _].
      cbn [String.append readLiteral]. rewrite Hd.
      rewrite Ascii.eqb_sym in Hc. rewrite Hc.
      now rewrite IH.
Qed.

Lemma sanitizeId_quotes_preceded (id : string) (n : nat) (c : ascii) :
  String.get n (sanitizeId id) = Some c ->
  c = dquote \/ c = squote ->
  exists m, n = S m /\ String.get m (sanitizeId id) = Some backslash.
Proof.
  rewrite sanitizeId_escapeQuotes. apply escapeQuotes_quotes_preceded.
Qed.

Lemma substring_all (s : string) : substring 0 (String.length s) s = s.
Proof.
  induction s as [|c s IH]; [reflexivity|]. cbn. now rewrite IH.
Qed.

Lemma readFilter_idFilter (safeId : string) :
  readFilter (idFilter safeId) =
  match readLiteralPlain (String.append safeId (String dquote EmptyString)) with
  | Some (lit, EmptyString) => Some lit
  | _ => None
  end.
Proof.
  unfold readFilter, idFilter.
  cbn. rewrite Nat.sub_0_r, substring_all.
  now destruct (String.append safeId (String dquote EmptyString)).
Qed.

(** The store reads a text without a double quote as it stands, up to the
    closing quote of the template. *)
Lemma readLiteralPlain_verbatim (s rest : string) :
  hasDoubleQuote s = false ->
  readLiteralPlain (String.append s (String dquote rest)) = Some (s, rest).
Proof.
  unfold hasDoubleQuote.
  induction s as [|c s IH]; intros Hno; [reflexivity|].
  cbn [list_ascii_of_string existsb] in Hno.
  apply orb_false_iff in Hno. destruct Hno as [Hc Hno].
  rewrite Ascii.eqb_sym in Hc.
  cbn [String.append readLiteralPlain]. now rewrite Hc, (IH Hno).
Qed.

Lemma readFilter_verbatim (safeId : string) :
  hasDoubleQuote safeId = false ->
  readFilter (idFilter safeId) = Some safeId.
Proof.
  intros Hno.
  now rewrite readFilter_idFilter, (readLiteralPlain_verbatim safeId EmptyString Hno).
Qed.

Lemma escapeQuotes_plain (s : string) : hasQuote s = false -> escapeQuotes s = s.
Proof.
  unfold hasQuote. induction s as [|c s IH]; intros Hno; [reflexivity|].
  cbn [list_ascii_of_string existsb] in Hno.
  apply orb_false_iff in Hno. destruct Hno as [Hc Hno].
  cbn [escapeQuotes]. rewrite Hc. now rewrite IH.
Qed.

Lemma escapeQuotes_length (s : string) :
  String.length s <= String.length (escapeQuotes s).
Proof.
  induction s as [|c s IH]; [reflexivity|].
  cbn [escapeQuotes].
  destruct (Ascii.eqb c dquote || Ascii.eqb c squote); cbn [String.length]; lia.
Qed.

Lemma hasQuote_hasDoubleQuote (s : string) :
  hasQuote s = false -> hasDoubleQuote s = false.
Proof.
  unfold hasQuote, hasDoubleQuote.
  induction (list_ascii_of_string s) as [|c l IH]; intros Hno; [reflexivity|].
  cbn [existsb] in *. apply orb_false_iff in Hno. destruct Hno as [Hc Hno].
  apply orb_false_iff in Hc. destruct Hc as [Hd _].
  rewrite Ascii.eqb_sym in Hd. now rewrite Hd, (IH Hno).
Qed.

(** An id without quotes goes into the filter as it is and is read back
    as it is. *)
Lemma readFilter_sanitizeId (id : string) :
  hasQuote id = false ->
  readFilter (idFilter (sanitizeId id)) = Some id.
Proof.
  intros Hno.
  rewrite sanitizeId_escapeQuotes, (escapeQuotes_plain id Hno).
  apply readFilter_verbatim, hasQuote_hasDoubleQuote, Hno.
Qed.

(** C8 breaks on the code: [sanitizeId] puts a backslash before each
    quote but leaves the backslashes of the id alone.  Under the reading
    it writes for, in [breakoutId] (a backslash, a double quote, then the
    text OR 1=1 --) the backslash of the id escapes the one that was
    added, so the quote ends the literal and the rest of the id stands
    outside it in the filter; in [danglingId] (a double quote, then a
    backslash) the trailing backslash escapes the closing quote of the
    template and the literal never ends.  Neither filter is the exact id
    equality filter.  The store, which gives the backslash no meaning,
    reads both literals as ended by the first quote of the id, with text
    left outside. *)
Theorem sanitizeId_leaves_backslashes :
  sanitizeId breakoutId
    = String backslash (String backslash (String dquote " OR 1=1 --")) /\
  readLiteral (String.append (sanitizeId breakoutId) (String dquote EmptyString))
    = Some (String backslash EmptyString,
            String.append " OR 1=1 --" (String dquote EmptyString)) /\
  readFilter (idFilter (sanitizeId breakoutId)) = None /\
  sanitizeId danglingId
    = String backslash (String dquote (String backslash EmptyString)) /\
  readLiteral (String.append (sanitizeId danglingId) (String dquote EmptyString))
    = None /\
  readFilter (idFilter (sanitizeId danglingId)) = None /\
  readLiteralPlain (String.append (sanitizeId breakoutId) (String dquote EmptyString))
    = Some (String backslash (String backslash EmptyString),
            String.append " OR 1=1 --" (String dquote EmptyString)) /\
  readLiteralPlain (String.append (sanitizeId danglingId) (String dquote EmptyString))
    = Some (String backslash EmptyString,
            String backslash (String dquote EmptyString)).
Proof.
  repeat split; reflexivity.
Qed.

(** ** Searching *)

Lemma clientKept_refl (st : State) : clientKept st st.
Proof. unfold clientKept. repeat split. Qed.

Lemma clientKept_trans (a b c : State) :
  clientKept a b -> clientKept b c -> clientKept a c.
Proof. unfold clientKept. intuition congruence. Qed.

Lemma clientKept_embed (text : string) : keeps clientKept (embed text).
Proof.
  intros st. unfold clientKept.
  destruct st as [d t i n rnd dr ol c dist m pf tr sql].
  run_embed.
  destruct (ol c text) eqn:E0; cbn; [repeat split|].
  destruct (ol (S c) text) eqn:E1; cbn; [repeat split|].
  destruct (ol (S (S c)) text) eqn:E2; cbn; repeat split.
Qed.

Lemma insertByDistance_In (key : MemoryRecord -> Q) (r x : MemoryRecord)
    (l : list MemoryRecord) :
  In x (insertByDistance key r l) <-> x = r \/ In x l.
Proof.
  induction l as [|y l IH]; cbn.
  - intuition.
  - destruct (Qle_bool (key r) (key y)); cbn; [intuition|].
    rewrite IH. intuition.
Qed.

Lemma nearestFirst_In (key : MemoryRecord -> Q) (x : MemoryRecord)
    (rs : list MemoryRecord) :
  In x (nearestFirst key rs) <-> In x rs.
Proof.
  unfold nearestFirst.
  induction rs as [|r rs IH]; cbn; [reflexivity|].
  rewrite insertByDistance_In, IH. intuition.
Qed.

(** The first row of the ranking is at least as near as every row. *)
Lemma nearestFirst_head (key : MemoryRecord -> Q) (rs : list MemoryRecord)
    (h : MemoryRecord) (tl : list MemoryRecord) :
  nearestFirst key rs = h :: tl ->
  forall x, In x rs -> (key h <= key x)%Q.
Proof.
  unfold nearestFirst. revert h tl.
  induction rs as [|r rs IH]; intros h tl Hsorted x Hin; [destruct Hin|].
  cbn [fold_right] in Hsorted.
  destruct (fold_right (insertByDistance key) [] rs) as [|h' tl'] eqn:Hrest.
  - cbn in Hsorted. injection Hsorted as <- <-.
    destruct Hin as [<-|Hin]; [apply Qle_refl|].
    apply (nearestFirst_In key) in Hin. unfold nearestFirst in Hin.
    rewrite Hrest in Hin. destruct Hin.
  - specialize (IH h' tl' eq_refl).
    cbn [insertByDistance] in Hsorted.
    destruct (Qle_bool (key r) (key h')) eqn:Hle.
    + injection Hsorted as <- <-.
      apply Qle_bool_iff in Hle.
      destruct Hin as [<-|Hin]; [apply Qle_refl|].
      eapply Qle_trans; [exact Hle|apply IH; exact Hin].
    + injection Hsorted as <- <-.
      destruct Hin as [<-|Hin]; [|apply IH; exact Hin].
      apply Qlt_le_weak, Qnot_le_lt. intros Hc.
      apply Qle_bool_iff in Hc. congruence.
Qed.

(** A search that returns hits ran on a table, through an initialized
    client, and its hits are the nearest rows of that table, in order. *)
Lemma search_hits (query : string) (limit : option nat) (st st1 : State)
    (target : SearchResult) (others : list SearchResult) :
  search query limit st = (Return (target :: others), st1) ->
  exists t queryVector,
    w_memories st = Some t /\ w_memories st1 = Some t /\
    initPromise st1 = true /\ table st1 = true /\
    target :: others =
      map toSearchResult
        (map (hitOf (fun r => w_distance st queryVector (rec_vector r)))
           (firstn (match limit with Some n => n | None => 5 end)
              (nearestFirst (fun r => w_distance st queryVector (rec_vector r))
                 (rows t)))).
Proof.
  unfold search. rewrite init_first.
  destruct (ensureInitialized_flags st) as (Hinit & _).
  destruct (ensureInitialized_world st) as (Hmem & _ & _ & _ & _ & _ & _ & Hdist).
  remember (after (ensureInitialized st)) as st0 eqn:Hst0. clear Hst0.
  unfold bind at 1, get.
  destruct (table st0) eqn:Htable; cbn [negb]; [|discriminate].
  unfold bind at 1.
  pose proof (clientKept_embed query st0) as Hkept.
  destruct (embed query st0) as [[queryVector|e] st2]; [|discriminate].
  cbn [snd] in Hkept.
  destruct Hkept as (_ & Htable2 & Hinit2 & Hmem2 & _ & Hdist2 & _).
  unfold bind at 1, table_vectorSearch, bind at 1, emit, modify, bind at 1, get.
  fields.
  destruct (w_memories st2) as [t|] eqn:Hstore; [|discriminate].
  destruct (match limit with Some n => n | None => 5 end =? 0); [discriminate|].
  destruct (List.length queryVector =? dim t); [|discriminate].
  unfold ret. intros Hrun. injection Hrun as Hresults <-.
  exists t, queryVector. fields.
  rewrite <- Hmem, <- Hmem2, <- Hdist, <- Hdist2, Htable2, Hinit2.
  repeat split; auto.
Qed.

(** A search leaves the table as it is, however it ends. *)
Lemma storeKept_search (query : string) (limit : option nat) :
  keeps storeKept (search query limit).
Proof.
  unfold search, table_vectorSearch.
  keeps_steps storeKept_refl storeKept_trans;
    try apply storeKept_emit; try apply storeKept_ensureInitialized;
    try apply storeKept_embed.
Qed.

Lemma search_length (query : string) (limit : option nat) (st st1 : State)
    (results : list SearchResult) :
  search query limit st = (Return results, st1) ->
  List.length results <= match limit with Some n => n | None => 5 end.
Proof.
  destruct results as [|target others]; [intros _; cbn; lia|].
  intros Hrun. apply search_hits in Hrun.
  destruct Hrun as (t & qv & _ & _ & _ & _ & ->).
  rewrite !length_map. apply firstn_le_length.
Qed.

(** ** Forgetting by query *)

Lemma substring_length (s : string) (n : nat) :
  n <= String.length s -> String.length (substring 0 n s) = n.
Proof.
  revert n. induction s as [|c s IH]; intros [|n] Hn; cbn in *; try reflexivity.
  - lia.
  - rewrite IH; [reflexivity|lia].
Qed.

Lemma limitText_spec (text : string) (max : nat) :
  (String.length text <= max -> limitText text max = text) /\
  (max < String.length text ->
     limitText text max = String.append (substring 0 max text) ellipsis /\
     String.length (substring 0 max text) = max).
Proof.
  unfold limitText. split; intros H.
  - apply Nat.ltb_ge in H. now rewrite H.
  - split; [|apply substring_length; lia].
    apply Nat.ltb_lt in H. now rewrite H.
Qed.

Lemma or_else_same (c : string) : or_else c (or_else c EmptyString) = c.
Proof. now destruct c. Qed.

Lemma table_delete_run (id : string) (st : State) (t : Table) :
  w_memories st = Some t ->
  hasQuote id = false ->
  table_delete (idFilter (sanitizeId id)) st =
  (Return tt,
   set_memories (Some {| dim := dim t; rows := withoutId id (rows t) |})
     (set_trace (EvDelete (idFilter (sanitizeId id)) :: w_trace st) st)).
Proof.
  intros Hmem Hid.
  unfold table_delete, bind, emit, modify, get. fields.
  rewrite Hmem, (readFilter_sanitizeId id Hid). reflexivity.
Qed.

Lemma deleteMemory_run (id : string) (st : State) (t : Table) :
  initPromise st = true -> table st = true ->
  w_memories st = Some t ->
  hasQuote id = false ->
  deleteMemory id st =
  (Return tt,
   set_memories (Some {| dim := dim t; rows := withoutId id (rows t) |})
     (set_trace (EvDelete (idFilter (sanitizeId id)) :: w_trace st) st)).
Proof.
  intros Hinit Htable Hmem Hid.
  unfold deleteMemory. rewrite init_first.
  destruct (ensureInitialized_flags st) as (_ & _ & _ & Hsame).
  rewrite (Hsame Hinit).
  unfold bind at 1, get. rewrite Htable. cbn [negb].
  apply table_delete_run; assumption.
Qed.

(** With distinct ids, a delete by id takes exactly one row out. *)
Lemma withoutId_unique (id : string) (rs : list MemoryRecord) (row : MemoryRecord) :
  NoDup (map rec_id rs) -> In row rs -> rec_id row = id ->
  exists before behind,
    rs = (before ++ row :: behind)%list /\
    withoutId id rs = (before ++ behind)%list.
Proof.
  intros Hnodup Hin Hid.
  destruct (in_split _ _ Hin) as (before & behind & ->).
  exists before, behind. split; [reflexivity|].
  rewrite map_app in Hnodup. cbn [map] in Hnodup.
  pose proof (NoDup_remove_2 _ _ _ Hnodup) as Hnotin.
  rewrite Hid in Hnotin.
  assert (Hkeep : forall l, ~ In id (map rec_id l) -> withoutId id l = l).
  { induction l as [|x l IH]; intros Hl; [reflexivity|].
    cbn [withoutId filter]. cbn [map In] in Hl.
    destruct (rec_id x =? id)%string eqn:E.
    - apply String.eqb_eq in E. tauto.
    - cbn [negb]. f_equal. apply IH. tauto. }
  unfold withoutId at 1. rewrite filter_app. cbn [filter].
  rewrite Hid, String.eqb_refl. cbn [negb].
  fold (withoutId id before). fold (withoutId id behind).
  rewrite !Hkeep; [reflexivity| |]; intros Hc; apply Hnotin, in_or_app; auto.
Qed.

(** C1, as the code has it: [forgetByQuery] searches with limit 5.  When
    the search returns nothing it answers [success = false] with
    "No matching memory found to forget." and the table is untouched.
    Otherwise, for a top hit whose id holds no quote, it answers
    [success = true] with [Forgot: "preview"], the preview being the
    top hit's content cut by [limitText] at 100 characters, and it
    deletes the rows whose id is the top hit's id, a nearest row being
    among them; that is exactly one row when the ids of the table are
    distinct.  [limitText] returns a text of at most 100 characters as it
    is, and the first 100 characters followed by the ellipsis
    otherwise. *)
Theorem forgetByQuery_forgets (query : string) (st st1 : State)
    (results : list SearchResult) :
  search query (Some 5) st = (Return results, st1) ->
  List.length results <= 5 /\
  w_memories st1 = w_memories st /\
  (results = [] ->
     forgetByQuery query st =
       (Return {| success := false;
                  message := "No matching memory found to forget." |}, st1)) /\
  (forall target others,
     results = target :: others ->
     hasQuote (sr_id target) = false ->
     exists t queryVector row,
       w_memories st = Some t /\
       In row (rows t) /\
       rec_id row = sr_id target /\ rec_content row = sr_content target /\
       (forall r, In r (rows t) ->
          (w_distance st queryVector (rec_vector row)
           <= w_distance st queryVector (rec_vector r))%Q) /\
       outcome (forgetByQuery query st) =
         Return {| success := true;
                   message :=
                     String.append "Forgot: "
                       (String dquote
                          (String.append (limitText (sr_content target) 100)
                             (String dquote EmptyString))) |} /\
       w_memories (after (forgetByQuery query st)) =
         Some {| dim := dim t; rows := withoutId (sr_id target) (rows t) |} /\
       (NoDup (map rec_id (rows t)) ->
        exists before behind,
          rows t = (before ++ row :: behind)%list /\
          withoutId (sr_id target) (rows t) = (before ++ behind)%list)) /\
  (forall text,
     (String.length text <= 100 -> limitText text 100 = text) /\
     (100 < String.length text ->
        limitText text 100 = String.append (substring 0 100 text) ellipsis /\
        String.length (substring 0 100 text) = 100)).
Proof.
  intros Hsearch.
  split; [exact (search_length _ _ _ _ _ Hsearch)|].
  split; [pose proof (storeKept_search query (Some 5) st) as H;
          rewrite Hsearch in H; exact H|].
  split; [|split; [|intros text; apply limitText_spec]].
  - intros ->. unfold forgetByQuery, bind. rewrite Hsearch. reflexivity.
  - intros target others -> Hid.
    destruct (search_hits _ _ _ _ _ _ Hsearch)
      as (t & queryVector & Hmem & Hmem1 & Hinit1 & Htable1 & Hhits).
    set (key := fun r => w_distance st queryVector (rec_vector r)) in *.
    destruct (nearestFirst key (rows t)) as [|row ranked] eqn:Hranked;
      [discriminate Hhits|].
    cbn [firstn map] in Hhits. injection Hhits as Htarget _.
    assert (Hrow : In row (rows t)).
    { apply (nearestFirst_In key). rewrite Hranked. now left. }
    assert (Hrid : rec_id row = sr_id target) by now subst target.
    assert (Hcontent : rec_content row = sr_content target) by now subst target.
    assert (Hmemory : sr_memory target = Some (sr_content target)) by now subst target.
    exists t, queryVector, row.
    split; [exact Hmem|]. split; [exact Hrow|].
    split; [exact Hrid|]. split; [exact Hcontent|].
    split; [exact (nearestFirst_head key _ _ _ Hranked)|].
    assert (Hrun : forgetByQuery query st =
              (Return {| success := true;
                         message :=
                           String.append "Forgot: "
                             (String dquote
                                (String.append (limitText (sr_content target) 100)
                                   (String dquote EmptyString))) |},
               set_memories
                 (Some {| dim := dim t;
                          rows := withoutId (sr_id target) (rows t) |})
                 (set_trace
                    (EvDelete (idFilter (sanitizeId (sr_id target))) :: w_trace st1)
                    st1))).
    { unfold forgetByQuery, bind at 1. rewrite Hsearch.
      unfold bind at 1.
      rewrite (deleteMemory_run _ _ _ Hinit1 Htable1 Hmem1 Hid).
      rewrite Hmemory, or_else_same. reflexivity. }
    rewrite Hrun. unfold outcome, after. fields.
    split; [reflexivity|]. split; [reflexivity|].
    intros Hnodup. apply withoutId_unique; assumption.
Qed.

(** One memory, found and forgotten. *)
Lemma forgetByQuery_forgets_witness :
  outcome (forgetByQuery "second"
             (after (addMemory "second" None None
                       (newClient lengthService None None))))
    = Return {| success := true;
                message := String.append "Forgot: "
                             (String dquote (String.append "second"
                                               (String dquote EmptyString))) |} /\
  option_map rows
    (w_memories (after (forgetByQuery "second"
                          (after (addMemory "second" None None
                                    (newClient lengthService None None))))))
    = Some [].
Proof.
  pose (st := after (addMemory "second" None None (newClient lengthService None None))).
  destruct (search "second" (Some 5) st) as [out st1] eqn:Hsearch.
  assert (Hout : exists target,
             out = Return [target] /\ sr_id target = "mem_1000_r0" /\
             sr_content target = "second").
  { vm_compute in Hsearch. injection Hsearch as <- _.
    eexists. split; [reflexivity|]. split; reflexivity. }
  destruct Hout as (target & -> & Hid & Hcontent).
  destruct (forgetByQuery_forgets "second" st st1 [target] Hsearch)
    as (_ & _ & _ & Hhit & _).
  destruct (Hhit target [] eq_refl) as (t & qv & row & Hmem & _ & _ & _ & _ & Hres & Hrows & _).
  { rewrite Hid. reflexivity. }
  fold st. rewrite Hres, Hrows, Hid, Hcontent.
  vm_compute in Hmem. injection Hmem as <-.
  split; reflexivity.
Defined.

(** C1 as the specification words it fails: with two memories stored
    under one id, forgetting the top hit takes both out of the table,
    not the single top-ranked one. *)
Lemma forgetByQuery_single_counterexample :
  ~ (forall query st st1 target others,
        search query (Some 5) st = (Return (target :: others), st1) ->
        exists t before row behind,
          w_memories st = Some t /\
          rows t = (before ++ row :: behind)%list /\
          rec_id row = sr_id target /\
          option_map rows (w_memories (after (forgetByQuery query st)))
            = Some (before ++ behind)%list).
Proof.
  intros H.
  destruct (search "second" (Some 5) twoUnderOneId) as [out st1] eqn:Hsearch.
  assert (Hout : exists target others, out = Return (target :: others)).
  { vm_compute in Hsearch. injection Hsearch as <- _. eauto. }
  destruct Hout as (target & others & ->).
  destruct (H _ _ _ _ _ Hsearch) as (t & before & row & behind & Hmem & Hrows & _ & Hafter).
  assert (Hlen : option_map (fun t => List.length (rows t)) (w_memories twoUnderOneId)
                 = Some 2) by (vm_compute; reflexivity).
  rewrite Hmem in Hlen. cbn in Hlen. injection Hlen as Hlen.
  rewrite Hrows, length_app in Hlen. cbn in Hlen.
  assert (Hgone : option_map (fun rs => List.length rs)
                    (option_map rows
                       (w_memories (after (forgetByQuery "second" twoUnderOneId))))
                  = Some 0) by (vm_compute; reflexivity).
  rewrite Hafter in Hgone. cbn in Hgone. injection Hgone as Hgone.
  rewrite length_app in Hgone. lia.
Qed.

(** ** Storing a record *)

Arguments readFilter : simpl never.
Arguments sanitizeId : simpl never.
Arguments idFilter : simpl never.
Arguments string_of_nat : simpl never.
Arguments withoutId : simpl never.

Lemma readFilter_init : readFilter (idFilter (sanitizeId "__init__")) = Some "__init__".
Proof. reflexivity. Qed.

Ltac run_store :=
  unfold storeRecord, ensureTable, createTable, table_delete, table_add,
    generateId, Date_now, Date_toISOString, Math_random_base36,
    try_catch, emit, modify, get, bind, ret, throw;
  cbn.

(** On a table that is there, under a handle that is cached: the rows a
    readable custom id does not name stay, and the record is appended. *)
Lemma storeRecord_existing (cleaned : string) (metadata : option Metadata)
    (customId : option string) (vector : Vector) (st : State) (t : Table) :
  table st = true ->
  w_memories st = Some t ->
  (forall cid, customId = Some cid -> hasQuote cid = false) ->
  exists st',
    storeRecord cleaned metadata customId vector st
      = (Return (finalId customId st), st') /\
    w_memories st' =
      Some {| dim := dim t;
              rows := (rowsKept customId (rows t) ++
                       [recordOf (finalId customId st) cleaned metadata vector
                          (w_now st)])%list |} /\
    table st' = true /\ db st' = db st /\ initPromise st' = initPromise st.
Proof.
  intros Htable Hmem Hid.
  destruct st as [d tb i n rnd dr ol c dist m pf tr sql].
  cbn in Htable, Hmem. subst tb m.
  destruct customId as [[|ch cs]|].
  - run_store. eexists. split; [reflexivity|]. repeat split.
  - run_store. rewrite (readFilter_sanitizeId _ (Hid _ eq_refl)). cbn.
    eexists. split; [reflexivity|]. repeat split.
  - run_store. eexists. split; [reflexivity|]. repeat split.
Qed.

(** With no table yet, on a connected client: the table is created at
    the dimension of the vector and holds the record alone. *)
Lemma storeRecord_fresh (cleaned : string) (metadata : option Metadata)
    (customId : option string) (vector : Vector) (st : State) :
  db st = true -> table st = false ->
  exists st',
    storeRecord cleaned metadata customId vector st
      = (Return (finalId customId st), st') /\
    w_memories st' =
      Some {| dim := List.length vector;
              rows := [recordOf (finalId customId st) cleaned metadata vector
                         (w_now st)] |} /\
    table st' = true /\ db st' = true /\ initPromise st' = initPromise st.
Proof.
  intros Hdb Htable.
  destruct st as [d tb i n rnd dr ol c dist m pf tr sql].
  cbn in Hdb, Htable. subst d tb.
  destruct customId as [[|ch cs]|].
  - run_store. rewrite readFilter_init. cbn.
    rewrite repeat_length.
    eexists. split; [reflexivity|]. repeat split.
  - run_store. rewrite readFilter_init. cbn.
    rewrite repeat_length.
    destruct (readFilter (idFilter (sanitizeId (String ch cs)))); cbn;
      [|destruct (sql (idFilter (sanitizeId (String ch cs)))); cbn];
      (eexists; split; [reflexivity|]; repeat split).
  - run_store. rewrite readFilter_init. cbn.
    rewrite repeat_length.
    eexists. split; [reflexivity|]. repeat split.
Qed.

(** ** Adding a memory *)

Lemma hasTable_after_init (st : State) (t : Table) :
  hasTable st t ->
  let st0 := after (ensureInitialized st) in
  initPromise st0 = true /\ db st0 = true /\ table st0 = true /\
  w_memories st0 = Some t.
Proof.
  intros [Hmem Hready]. cbv zeta.
  destruct (ensureInitialized_flags st) as (Hinit & Hdb & Htable & Hsame).
  destruct (ensureInitialized_world st) as (Hstore & _).
  rewrite Hstore.
  destruct (initPromise st) eqn:Hi.
  - destruct (Hready eq_refl) as [Hd Ht].
    rewrite (Hsame eq_refl). auto.
  - rewrite (Hdb eq_refl), (Htable eq_refl), Hmem. auto.
Qed.

(** What [addMemory] does by design on a table that is there: with an id
    of its own making the record is appended; with a custom id that is
    not empty and holds no quote the rows of that id go first, so the
    table ends with one row of that id. *)
Lemma addMemory_existing (content : string) (metadata : option Metadata)
    (customId : option string) (st st1 : State) (t : Table) (vector : Vector) :
  validContent content ->
  hasTable st t ->
  embed (trim content) (after (ensureInitialized st)) = (Return vector, st1) ->
  (forall cid, customId = Some cid -> hasQuote cid = false) ->
  outcome (addMemory content metadata customId st) = Return (finalId customId st1) /\
  w_memories (after (addMemory content metadata customId st)) =
    Some {| dim := dim t;
            rows := (rowsKept customId (rows t) ++
                     [recordOf (finalId customId st1) (trim content) metadata
                        vector (w_now st1)])%list |} /\
  (forall c cs, customId = Some (String c cs) ->
     List.length
       (filter (fun r => (rec_id r =? String c cs)%string)
          (rowsKept customId (rows t) ++
           [recordOf (finalId customId st1) (trim content) metadata vector
              (w_now st1)])%list) = 1).
Proof.
  intros Hvalid Htable Hembed Hid.
  destruct (hasTable_after_init st t Htable) as (Hinit0 & Hdb0 & Htable0 & Hmem0).
  pose proof (clientKept_embed (trim content) (after (ensureInitialized st))) as Hkept.
  rewrite Hembed in Hkept. cbn [snd] in Hkept.
  destruct Hkept as (Hdb1 & Htable1 & Hinit1 & Hmem1 & _).
  rewrite Htable0 in Htable1. rewrite Hmem0 in Hmem1.
  destruct (storeRecord_existing (trim content) metadata customId vector st1 t
              Htable1 Hmem1 Hid) as (st2 & Hrun & Hrows & _).
  assert (Hfull : addMemory content metadata customId st
                  = (Return (finalId customId st1), st2)).
  { rewrite (addMemory_valid content metadata customId st Hvalid).
    unfold bind at 1. now rewrite Hembed. }
  rewrite Hfull. unfold outcome, after. cbn [fst snd].
  split; [reflexivity|]. split; [exact Hrows|].
  intros c cs ->. cbn [rowsKept finalId].
  rewrite filter_app, length_app. cbn [filter recordOf rec_id].
  rewrite String.eqb_refl. cbn [List.length].
  assert (Hnone : forall rs,
             filter (fun r => (rec_id r =? String c cs)%string)
               (withoutId (String c cs) rs) = []).
  { unfold withoutId. induction rs as [|r rs IH]; [reflexivity|].
    cbn [filter]. destruct (rec_id r =? String c cs)%string eqn:E; cbn [negb filter].
    - exact IH.
    - rewrite E. exact IH. }
  rewrite Hnone. reflexivity.
Qed.

(** C3 breaks on the code: the empty string is a custom id for
    [customId ?? generateId()] and none for [if (customId)].  The record
    is stored under the empty id and that id is returned, but no row of
    that id is deleted first: the same call made twice leaves two rows
    with the empty id, and the second call asks the store for no
    delete. *)
Theorem addMemory_empty_customId_duplicates :
  outcome (addMemory "note" None (Some EmptyString)
             (newClient lengthService None None)) = Return EmptyString /\
  outcome (addMemory "note" None (Some EmptyString)
             (after (addMemory "note" None (Some EmptyString)
                       (newClient lengthService None None)))) = Return EmptyString /\
  option_map (fun t => map (fun r => (rec_id r, rec_content r)) (rows t))
    (w_memories storedTwice)
    = Some [(EmptyString, "note"); (EmptyString, "note")] /\
  since (after (addMemory "note" None (Some EmptyString)
                  (newClient lengthService None None))) storedTwice
    = [EvEmbed "note"; EvAdd EmptyString].
Proof.
  repeat split; vm_compute; reflexivity.
Qed.

(** ** Wiping the table *)

Lemma wipeAllMemories_run (st : State) (t : Table) :
  initPromise st = true -> db st = true -> table st = true ->
  w_memories st = Some t ->
  wipeAllMemories st =
  (Return (List.length (rows t)),
   set_table false
     (set_memories None
        (set_trace (EvDropTable :: EvCountRows :: w_trace st) st))).
Proof.
  intros Hinit Hdb Htable Hmem.
  unfold wipeAllMemories. rewrite init_first.
  destruct (ensureInitialized_flags st) as (_ & _ & _ & Hsame).
  rewrite (Hsame Hinit).
  destruct st as [d tb i n rnd dr ol c dist m pf tr sql].
  cbn in Hinit, Hdb, Htable, Hmem. subst d tb i m.
  reflexivity.
Qed.

Lemma wipeAllMemories_after_init (st : State) :
  wipeAllMemories st = wipeAllMemories (after (ensureInitialized st)).
Proof.
  unfold wipeAllMemories. rewrite !init_first.
  destruct (ensureInitialized_flags st) as (Hinit & _).
  destruct (ensureInitialized_flags (after (ensureInitialized st))) as (_ & _ & _ & Hsame).
  now rewrite (Hsame Hinit).
Qed.

(** C6: when the store has a table, [wipeAllMemories] counts its rows,
    then drops it, and returns that count; the table is gone and the
    handle is forgotten, so the dimension is bound no more: a search
    right after returns the empty list, and an [addMemory] of valid
    content whose embedding succeeds returns its id and leaves a new
    table of the dimension of the new vector, holding that record
    alone. *)
Theorem wipeAllMemories_resets (st : State) (t : Table) :
  hasTable st t ->
  outcome (wipeAllMemories st) = Return (List.length (rows t)) /\
  w_memories (after (wipeAllMemories st)) = None /\
  table (after (wipeAllMemories st)) = false /\
  since (after (ensureInitialized st)) (after (wipeAllMemories st))
    = [EvCountRows; EvDropTable] /\
  (forall query limit,
     outcome (search query limit (after (wipeAllMemories st))) = Return []) /\
  (forall content metadata customId vector st2,
     validContent content ->
     embed (trim content) (after (wipeAllMemories st)) = (Return vector, st2) ->
     outcome (addMemory content metadata customId (after (wipeAllMemories st)))
       = Return (finalId customId st2) /\
     w_memories (after (addMemory content metadata customId
                          (after (wipeAllMemories st))))
       = Some {| dim := List.length vector;
                 rows := [recordOf (finalId customId st2) (trim content) metadata
                            vector (w_now st2)] |}).
Proof.
  intros Htable.
  destruct (hasTable_after_init st t Htable) as (Hinit0 & Hdb0 & Htable0 & Hmem0).
  rewrite wipeAllMemories_after_init.
  remember (after (ensureInitialized st)) as st0 eqn:Hst0. clear Hst0.
  pose proof (wipeAllMemories_run st0 t Hinit0 Hdb0 Htable0 Hmem0) as Hwipe.
  set (st1 := set_table false
                (set_memories None
                   (set_trace (EvDropTable :: EvCountRows :: w_trace st0) st0)))
    in Hwipe.
  assert (Hout : outcome (wipeAllMemories st0) = Return (List.length (rows t)))
    by now rewrite Hwipe.
  assert (Hafter : after (wipeAllMemories st0) = st1) by now rewrite Hwipe.
  rewrite Hout, Hafter. clear Hwipe Hout Hafter.
  assert (Hinit1 : initPromise st1 = true) by exact Hinit0.
  assert (Hdb1 : db st1 = true) by exact Hdb0.
  assert (Htable1 : table st1 = false) by reflexivity.
  assert (Hsame1 : after (ensureInitialized st1) = st1).
  { destruct (ensureInitialized_flags st1) as (_ & _ & _ & Hsame). auto. }
  split; [reflexivity|]. split; [reflexivity|]. split; [reflexivity|].
  split; [subst st1; since_eval; reflexivity|].
  split.
  - intros query limit.
    rewrite search_noTable_run; [reflexivity|].
    split; [exact Htable1|]. rewrite Hinit1. discriminate.
  - intros content metadata customId vector st2 Hvalid Hembed.
    pose proof (clientKept_embed (trim content) st1) as Hkept.
    rewrite Hembed in Hkept. cbn [snd] in Hkept.
    destruct Hkept as (Hdb2 & Htable2 & _).
    rewrite Hdb1 in Hdb2. rewrite Htable1 in Htable2.
    destruct (storeRecord_fresh (trim content) metadata customId vector st2
                Hdb2 Htable2) as (st3 & Hrun & Hrows & _).
    assert (Hfull : addMemory content metadata customId st1
                    = (Return (finalId customId st2), st3)).
    { rewrite (addMemory_valid content metadata customId st1 Hvalid), Hsame1.
      unfold bind at 1. now rewrite Hembed. }
    rewrite Hfull. unfold outcome, after. cbn [fst snd].
    split; [reflexivity|exact Hrows].
Qed.

(** A table with one row is wiped: the count is 1 and the table is gone. *)
Lemma wipeAllMemories_resets_witness :
  outcome (wipeAllMemories
             (after (addMemory "note" None None (newClient lengthService None None))))
    = Return 1 /\
  w_memories
    (after (wipeAllMemories
              (after (addMemory "note" None None (newClient lengthService None None)))))
    = None.
Proof.
  pose (st := after (addMemory "note" None None (newClient lengthService None None))).
  assert (Htable : exists t, hasTable st t /\ List.length (rows t) = 1).
  { eexists. split; [split; [vm_compute; reflexivity|]|].
    - intros _. split; reflexivity.
    - reflexivity. }
  destruct Htable as (t & Htable & Hlen).
  destruct (wipeAllMemories_resets st t Htable) as (Hout & Hgone & _).
  fold st. rewrite Hout, Hlen. split; [reflexivity|exact Hgone].
Defined.

(** ** Start-up with several callers *)

Lemma initAt_initPromise (st : State) (p : InitPc) : initPromise (initAt st p) = true.
Proof.
  destruct st as [d tb i n rnd dr ol c dist [m|] pf tr sql]; destruct p; reflexivity.
Qed.

Lemma initAt_memories (st : State) (p : InitPc) :
  w_memories (initAt st p) = w_memories st.
Proof.
  destruct st as [d tb i n rnd dr ol c dist [m|] pf tr sql]; destruct p; reflexivity.
Qed.

(** The start-up that has run to its end has done what one call of
    [ensureInitialized] does. *)
Lemma initAt_Settled (st : State) :
  initPromise st = false ->
  initAt st Settled = after (ensureInitialized st).
Proof.
  intros Hinit.
  destruct st as [d tb i n rnd dr ol c dist [m|] pf tr sql];
    cbn in Hinit; subst i; reflexivity.
Qed.

Lemma invoke_startedOnce (st : State) (s : Startup) (caller : nat) :
  startedOnce st s -> startedOnce st (invoke caller s).
Proof.
  intros (Hcalls & Hclient & Hopen & Hawait).
  unfold invoke. rewrite Hclient, initAt_initPromise. cbn [negb].
  repeat split; cbn [doInitCalls client pc awaiting]; auto.
  intros c p [Heq|Hin]; [|eauto].
  injection Heq as _ <-. exact Hcalls.
Qed.

Lemma resume_startedOnce (st : State) (s : Startup) :
  startedOnce st s -> startedOnce st (resume s).
Proof.
  intros (Hcalls & Hclient & Hopen & Hawait).
  unfold resume. rewrite Hclient at 1. rewrite initAt_initPromise.
  destruct s as [cl p calls aw]. cbn [client pc doInitCalls awaiting] in *.
  subst cl.
  destruct p; try (repeat split; cbn [doInitCalls client pc awaiting];
                   auto; discriminate).
  - rewrite initAt_memories.
    destruct (w_memories st) as [m|] eqn:Hmem;
      repeat split; cbn [doInitCalls client pc awaiting]; auto;
      try discriminate.
    + intros _. congruence.
    + unfold initAt. now rewrite Hmem.
  - repeat split; cbn [doInitCalls client pc awaiting]; auto; try discriminate.
    unfold initAt.
    destruct (w_memories st) as [m|] eqn:Hmem; [reflexivity|].
    exfalso. now apply Hopen.
Qed.

Lemma run_snoc (acts : list Action) (a : Action) (s : Startup) :
  run (acts ++ [a])%list s = step (run acts s) a.
Proof. unfold run. now rewrite fold_left_app. Qed.

(** Before the first caller nothing has happened; from the first caller
    on there is one [doInit], whatever the schedule. *)
Lemma run_startedOnce (st : State) (acts : list Action) :
  initPromise st = false ->
  (existsb isInvoke acts = false /\ run acts (startup st) = startup st) \/
  (existsb isInvoke acts = true /\ startedOnce st (run acts (startup st))).
Proof.
  intros Hinit.
  induction acts as [|a acts IH] using rev_ind.
  - left. split; reflexivity.
  - rewrite existsb_app, run_snoc. cbn [existsb]. rewrite orb_false_r.
    destruct IH as [[Hnone Hsame]|[Hsome Hstarted]].
    + rewrite Hnone, Hsame. cbn [orb].
      destruct a as [caller|]; cbn [isInvoke step].
      * right. split; [reflexivity|].
        unfold invoke, startup. cbn [client]. rewrite Hinit. cbn [negb].
        repeat split; cbn [doInitCalls client pc awaiting]; try discriminate.
        intros c p [Heq|[]]. now injection Heq as _ <-.
      * left. split; [reflexivity|].
        unfold resume, startup. cbn [client]. now rewrite Hinit.
    + rewrite Hsome. cbn [orb]. right. split; [reflexivity|].
      destruct a as [caller|]; cbn [step];
        [now apply invoke_startedOnce|now apply resume_startedOnce].
Qed.

Lemma invoke_awaiting (caller : nat) (s : Startup) :
  map fst (awaiting (invoke caller s)) = caller :: map fst (awaiting s).
Proof.
  unfold invoke. destruct (negb (initPromise (client s))); reflexivity.
Qed.

Lemma resume_awaiting (s : Startup) : awaiting (resume s) = awaiting s.
Proof.
  unfold resume.
  destruct (initPromise (client s)); [|reflexivity].
  destruct (pc s); try reflexivity.
  destruct (w_memories (client s)); reflexivity.
Qed.

(** Every caller is waiting, and nobody else. *)
Lemma run_awaiting (acts : list Action) (s : Startup) (caller : nat) :
  In caller (map fst (awaiting (run acts s))) <->
  In (Invoke caller) acts \/ In caller (map fst (awaiting s)).
Proof.
  induction acts as [|a acts IH] using rev_ind.
  - cbn. intuition.
  - rewrite run_snoc, in_app_iff. cbn [In].
    destruct a as [c|]; cbn [step].
    + rewrite invoke_awaiting. cbn [In]. rewrite IH.
      split; [intros [->|[H|H]]; auto|intros [[H|[H|[]]]|H]; auto].
      injection H as ->. now left.
    + rewrite resume_awaiting, IH.
      split; [intros [H|H]; auto|intros [[H|[H|[]]]|H]; auto; discriminate].
Qed.

Lemma resume_awaitsLeft (st : State) (s : Startup) :
  startedOnce st s -> awaitsLeft (pc (resume s)) <= pred (awaitsLeft (pc s)).
Proof.
  intros (_ & Hclient & _).
  unfold resume. rewrite Hclient at 1. rewrite initAt_initPromise.
  destruct (pc s) eqn:Hpc; cbn [pc awaitsLeft pred]; try lia.
  - destruct (w_memories (client s)); cbn [pc awaitsLeft]; lia.
  - rewrite Hpc. cbn. lia.
Qed.

Lemma resumes_settle (st : State) (n : nat) (s : Startup) :
  startedOnce st s -> awaitsLeft (pc s) <= n ->
  pc (run (repeat Resume n) s) = Settled.
Proof.
  revert s. induction n as [|n IH]; intros s Hstarted Hleft.
  - cbn. destruct (pc s); cbn in Hleft; try lia. reflexivity.
  - cbn [repeat run fold_left step]. apply IH.
    + now apply resume_startedOnce.
    + pose proof (resume_awaitsLeft st s Hstarted). lia.
Qed.

Lemma awaitsLeft_bound (p : InitPc) : awaitsLeft p <= 5.
Proof. destruct p; cbn; lia. Qed.

(** C9: on a client that has not initialized, under every schedule of
    callers entering public operations and of resumptions of the
    [doInit] in flight, [doInit] is called once, by the first caller,
    and never again; every caller waits for the promise of that one
    call.  Once the [doInit] in flight has been resumed through its
    awaits the client is in the state a single [ensureInitialized]
    leaves: the two directories were made, the store was connected and
    the table was looked up exactly once, however many callers there
    were. *)
Theorem initialization_runs_once (st : State) (acts : list Action) :
  initPromise st = false ->
  doInitCalls (run acts (startup st)) = (if existsb isInvoke acts then 1 else 0) /\
  (forall caller,
     In (Invoke caller) acts <-> In (caller, 1) (awaiting (run acts (startup st)))) /\
  (forall caller promise,
     In (caller, promise) (awaiting (run acts (startup st))) -> promise = 1) /\
  (existsb isInvoke acts = true ->
   pc (run acts (startup st)) = Settled ->
   client (run acts (startup st)) = after (ensureInitialized st)) /\
  (existsb isInvoke acts = true ->
   forall n, 5 <= n ->
     pc (run (acts ++ repeat Resume n)%list (startup st)) = Settled /\
     doInitCalls (run (acts ++ repeat Resume n)%list (startup st)) = 1 /\
     client (run (acts ++ repeat Resume n)%list (startup st))
       = after (ensureInitialized st) /\
     since st (client (run (acts ++ repeat Resume n)%list (startup st)))
       = ([EvMkdir; EvMkdir; EvConnect; EvTableNames] ++
          match w_memories st with Some _ => [EvOpenTable] | None => [] end)%list).
Proof.
  intros Hinit.
  pose proof (run_startedOnce st acts Hinit) as Hrun.
  split; [|split; [|split; [|split]]].
  - destruct Hrun as [[-> ->]|[-> (Hcalls & _)]]; [reflexivity|exact Hcalls].
  - intros caller. split.
    + intros Hin.
      assert (Hsome : existsb isInvoke acts = true).
      { apply existsb_exists. exists (Invoke caller). now split. }
      destruct Hrun as [[Hnone _]|[_ (_ & _ & _ & Hawait)]]; [congruence|].
      assert (Hfst : In caller (map fst (awaiting (run acts (startup st))))).
      { apply run_awaiting. now left. }
      apply in_map_iff in Hfst. destruct Hfst as ([c p] & Hc & Hcp).
      cbn in Hc. subst c. now rewrite <- (Hawait caller p Hcp).
    + intros Hin.
      assert (Hfst : In caller (map fst (awaiting (run acts (startup st))))).
      { apply in_map_iff. exists (caller, 1). now split. }
      apply run_awaiting in Hfst. destruct Hfst as [Hacts|[]]. exact Hacts.
  - intros caller promise Hin.
    destruct Hrun as [[_ Hsame]|[_ (_ & _ & _ & Hawait)]]; [|eauto].
    rewrite Hsame in Hin. destruct Hin.
  - intros Hsome Hpc.
    destruct Hrun as [[Hnone _]|[_ (_ & Hclient & _)]]; [congruence|].
    rewrite Hclient, Hpc. now apply initAt_Settled.
  - intros Hsome n Hn.
    destruct Hrun as [[Hnone _]|[_ Hstarted]]; [congruence|].
    assert (Hall : existsb isInvoke (acts ++ repeat Resume n)%list = true).
    { rewrite existsb_app, Hsome. reflexivity. }
    destruct (run_startedOnce st (acts ++ repeat Resume n)%list Hinit)
      as [[Hnone _]|[_ (Hcalls & Hclient & _)]]; [congruence|].
    assert (Hpc : pc (run (acts ++ repeat Resume n)%list (startup st)) = Settled).
    { unfold run. rewrite fold_left_app. apply (resumes_settle st); [exact Hstarted|].
      pose proof (awaitsLeft_bound (pc (run acts (startup st)))).
      unfold run in *. lia. }
    split; [exact Hpc|]. split; [exact Hcalls|].
    rewrite Hclient, Hpc, (initAt_Settled st Hinit).
    split; [reflexivity|]. now apply since_init_fresh.
Qed.

(** Three callers enter before the [doInit] of the first has got past
    its first await; one start-up is run, and all three wait for it. *)
Lemma initialization_runs_once_witness :
  doInitCalls
    (run [Invoke 1; Invoke 2; Resume; Invoke 3; Resume; Resume; Resume; Resume]
       (startup (newClient lengthService None None))) = 1 /\
  client
    (run [Invoke 1; Invoke 2; Resume; Invoke 3; Resume; Resume; Resume; Resume]
       (startup (newClient lengthService None None)))
    = after (ensureInitialized (newClient lengthService None None)).
Proof.
  destruct (initialization_runs_once (newClient lengthService None None)
              [Invoke 1; Invoke 2; Resume; Invoke 3; Resume; Resume; Resume; Resume]
              eq_refl) as (Hcalls & _ & _ & Hsettled & _).
  split; [exact Hcalls|].
  apply Hsettled; reflexivity.
Defined.

(** * Further properties of the client *)

(** ** What a search returns *)

Lemma insertByDistance_sorted (key : MemoryRecord -> Q) (r : MemoryRecord)
    (l : list MemoryRecord) :
  StronglySorted (fun a b => (key a <= key b)%Q) l ->
  StronglySorted (fun a b => (key a <= key b)%Q) (insertByDistance key r l).
Proof.
  induction l as [|x l IH]; intros Hsorted; cbn [insertByDistance].
  - constructor; constructor.
  - inversion Hsorted as [|? ? Hl Hx]; subst.
    destruct (Qle_bool (key r) (key x)) eqn:Hle.
    + apply Qle_bool_iff in Hle.
      constructor; [exact Hsorted|].
      constructor; [exact Hle|].
      apply Forall_forall. intros y Hy.
      rewrite Forall_forall in Hx.
      eapply Qle_trans; [exact Hle|apply Hx; exact Hy].
    + assert (Hxr : (key x <= key r)%Q).
      { apply Qlt_le_weak, Qnot_le_lt. intros Hc.
        apply Qle_bool_iff in Hc. congruence. }
      constructor; [apply IH; exact Hl|].
      apply Forall_forall. intros y Hy.
      apply insertByDistance_In in Hy. destruct Hy as [->|Hy]; [exact Hxr|].
      rewrite Forall_forall in Hx. apply Hx; exact Hy.
Qed.

Lemma nearestFirst_sorted (key : MemoryRecord -> Q) (rs : list MemoryRecord) :
  StronglySorted (fun a b => (key a <= key b)%Q) (nearestFirst key rs).
Proof.
  unfold nearestFirst. induction rs as [|r rs IH]; cbn [fold_right].
  - constructor.
  - apply insertByDistance_sorted. exact IH.
Qed.

Lemma insertByDistance_length (key : MemoryRecord -> Q) (r : MemoryRecord)
    (l : list MemoryRecord) :
  List.length (insertByDistance key r l) = S (List.length l).
Proof.
  induction l as [|x l IH]; cbn [insertByDistance]; [reflexivity|].
  destruct (Qle_bool (key r) (key x)); cbn [List.length]; [reflexivity|].
  now rewrite IH.
Qed.

Lemma nearestFirst_length (key : MemoryRecord -> Q) (rs : list MemoryRecord) :
  List.length (nearestFirst key rs) = List.length rs.
Proof.
  unfold nearestFirst. induction rs as [|r rs IH]; cbn [fold_right List.length].
  - reflexivity.
  - now rewrite insertByDistance_length, IH.
Qed.

Lemma firstn_In {A} (n : nat) (l : list A) (x : A) :
  In x (firstn n l) -> In x l.
Proof.
  revert n. induction l as [|y l IH]; intros [|n] Hin; cbn [firstn] in Hin;
    try (destruct Hin; fail).
  destruct Hin as [->|Hin]; [now left|].
  right. eapply IH. exact Hin.
Qed.

Lemma StronglySorted_firstn {A} (R : A -> A -> Prop) (n : nat) (l : list A) :
  StronglySorted R l -> StronglySorted R (firstn n l).
Proof.
  revert n. induction l as [|x l IH]; intros [|n] Hsorted; cbn [firstn];
    try constructor.
  - inversion Hsorted; subst. now apply IH.
  - inversion Hsorted as [|? ? _ Hx]; subst.
    rewrite Forall_forall in *. intros y Hy.
    apply Hx. eapply firstn_In; exact Hy.
Qed.

Lemma StronglySorted_map {A B} (R : A -> A -> Prop) (R' : B -> B -> Prop)
    (f : A -> B) (l : list A) :
  (forall a b, R a b -> R' (f a) (f b)) ->
  StronglySorted R l -> StronglySorted R' (map f l).
Proof.
  intros Hf. induction l as [|x l IH]; intros Hsorted; cbn [map]; constructor.
  - inversion Hsorted; subst. now apply IH.
  - inversion Hsorted as [|? ? _ Hx]; subst.
    rewrite Forall_forall in *. intros y Hy.
    apply in_map_iff in Hy. destruct Hy as (a & <- & Ha). apply Hf, Hx, Ha.
Qed.

(** Every way [search] can return: without a table handle it returns
    nothing, with one it returns the nearest rows of the table to the
    vector [embed] returns for the query. *)
Lemma search_returns (query : string) (limit : option nat) (st st1 : State)
    (results : list SearchResult) :
  search query limit st = (Return results, st1) ->
  (table (after (ensureInitialized st)) = false /\ results = []) \/
  (table (after (ensureInitialized st)) = true /\
   exists t queryVector,
     w_memories st = Some t /\
     outcome (embed query (after (ensureInitialized st))) = Return queryVector /\
     results =
       map toSearchResult
         (map (hitOf (fun r => w_distance st queryVector (rec_vector r)))
            (firstn (match limit with Some n => n | None => 5 end)
               (nearestFirst (fun r => w_distance st queryVector (rec_vector r))
                  (rows t))))).
Proof.
  unfold search. rewrite init_first.
  destruct (ensureInitialized_world st) as (Hmem & _ & _ & _ & _ & _ & _ & Hdist).
  remember (after (ensureInitialized st)) as st0 eqn:Hst0. clear Hst0.
  unfold bind at 1, get.
  destruct (table st0) eqn:Htable; cbn [negb].
  - intros Hrun. right. split; [reflexivity|].
    revert Hrun. unfold bind at 1.
    pose proof (clientKept_embed query st0) as Hkept.
    destruct (embed query st0) as [[queryVector|e] st2]; [|discriminate].
    cbn [snd] in Hkept.
    destruct Hkept as (_ & _ & _ & Hmem2 & _ & Hdist2 & _).
    unfold bind at 1, table_vectorSearch, bind at 1, emit, modify, bind at 1, get.
    fields.
    destruct (w_memories st2) as [t|] eqn:Hstore; [|discriminate].
    destruct (match limit with Some n => n | None => 5 end =? 0); [discriminate|].
    destruct (List.length queryVector =? dim t); [|discriminate].
    unfold ret. intros Hrun. injection Hrun as Hresults _.
    exists t, queryVector.
    rewrite <- Hmem, <- Hmem2, <- Hdist, <- Hdist2.
    split; [reflexivity|]. split; [reflexivity|]. now rewrite <- Hresults.
  - unfold ret. intros Hrun. injection Hrun as <- _. left. split; reflexivity.
Qed.

(** X1: whatever [search] returns is ranked: no later result has a
    greater similarity, there are never more results than the limit, and
    each result is a row of the table, with its id and content, whose
    similarity is one minus the distance the store measures between the
    vector [embed] returned for the query and the vector of that row; on
    a store that has a table there are as many results as the limit and
    the rows allow. *)
Theorem search_ranked (query : string) (limit : option nat) (st st1 : State)
    (results : list SearchResult) :
  search query limit st = (Return results, st1) ->
  StronglySorted bySimilarity results /\
  List.length results <= match limit with Some n => n | None => 5 end /\
  (forall r, In r results ->
     exists t row queryVector,
       w_memories st = Some t /\ In row (rows t) /\
       outcome (embed query (after (ensureInitialized st))) = Return queryVector /\
       sr_id r = rec_id row /\ sr_content r = rec_content row /\
       sr_memory r = Some (rec_content row) /\
       sr_similarity r
         = Some (1 - w_distance st queryVector (rec_vector row))%Q) /\
  (forall t, hasTable st t ->
     List.length results
       = Nat.min (match limit with Some n => n | None => 5 end)
                 (List.length (rows t))).
Proof.
  intros Hrun.
  destruct (search_returns _ _ _ _ _ Hrun)
    as [[Htable ->]|[Htable (t & qv & Hmem & Hqv & ->)]].
  - split; [constructor|]. split; [cbn; lia|]. split; [intros r []|].
    intros t Ht. destruct (hasTable_after_init st t Ht) as (_ & _ & Htrue & _).
    congruence.
  - set (key := fun r => w_distance st qv (rec_vector r)).
    split; [|split; [|split]].
    + rewrite map_map.
      apply (StronglySorted_map (fun a b => (key a <= key b)%Q)).
      * intros a b Hab. unfold bySimilarity, toSearchResult, hitOf. cbn.
        unfold Qminus. apply Qplus_le_r, Qopp_le_compat. exact Hab.
      * apply StronglySorted_firstn, nearestFirst_sorted.
    + rewrite !length_map. apply firstn_le_length.
    + intros r Hr. rewrite map_map in Hr. apply in_map_iff in Hr.
      destruct Hr as (row & <- & Hrow).
      apply firstn_In in Hrow. apply -> (nearestFirst_In key) in Hrow.
      exists t, row, qv. repeat split; auto.
    + intros t' [Hmem' _]. rewrite Hmem in Hmem'. injection Hmem' as <-.
      rewrite !length_map, length_firstn, nearestFirst_length. reflexivity.
Qed.

(** The query of three characters lies at distance 0 from [c], 4 from [a]
    and 9 from [b]: the two nearest come back, [c] first. *)
Lemma search_ranked_witness :
  StronglySorted bySimilarity
    (match outcome (search "abc" (Some 2) threeApart) with
     | Return results => results
     | Throw _ => []
     end) /\
  map (fun r => (sr_id r, sr_similarity r))
    (match outcome (search "abc" (Some 2) threeApart) with
     | Return results => results
     | Throw _ => []
     end) = [("c", Some (1 - 0)%Q); ("a", Some (1 - 4)%Q)].
Proof.
  destruct (search "abc" (Some 2) threeApart) as [out st1] eqn:Hsearch.
  assert (Hout : exists results,
            out = Return results /\
            map (fun r => (sr_id r, option_map Qred (sr_similarity r))) results
            = [("c", Some 1%Q); ("a", Some (-3)%Q)]).
  { vm_compute in Hsearch. injection Hsearch as <- _.
    eexists. split; reflexivity. }
  destruct Hout as (results & -> & Hids).
  destruct (search_ranked "abc" (Some 2) threeApart st1 results Hsearch)
    as (Hsorted & _ & Hrows & _).
  split; [exact Hsorted|].
  cbn [outcome fst].
  destruct results as [|r1 [|r2 [|r3 rest]]]; try discriminate Hids.
  cbn [map] in Hids |- *.
  injection Hids as Hid1 _ Hid2 _.
  destruct (Hrows r1 (or_introl eq_refl))
    as (t1 & row1 & qv1 & Hmem1 & Hin1 & Hqv1 & Hrid1 & _ & _ & Hsim1).
  destruct (Hrows r2 (or_intror (or_introl eq_refl)))
    as (t2 & row2 & qv2 & Hmem2 & Hin2 & Hqv2 & Hrid2 & _ & _ & Hsim2).
  vm_compute in Hmem1, Hmem2, Hqv1, Hqv2.
  injection Hmem1 as <-. injection Hmem2 as <-.
  injection Hqv1 as <-. injection Hqv2 as <-.
  rewrite Hid1 in Hrid1. rewrite Hid2 in Hrid2.
  rewrite Hsim1, Hsim2, Hid1, Hid2.
  cbn [rows In] in Hin1, Hin2.
  destruct Hin1 as [<-|[<-|[<-|[]]]]; try discriminate Hrid1.
  destruct Hin2 as [<-|[<-|[<-|[]]]]; try discriminate Hrid2.
  reflexivity.
Defined.

(** ** How long [embed] waits *)

Lemma embed_calls_and_clock (text : string) (st : State) :
  (w_calls (after (embed text st)) = w_calls st + 1 /\
   w_now (after (embed text st)) = w_now st) \/
  (w_calls (after (embed text st)) = w_calls st + 2 /\
   w_now (after (embed text st)) = w_now st + 1000) \/
  (w_calls (after (embed text st)) = w_calls st + 3 /\
   w_now (after (embed text st)) = w_now st + 3000).
Proof.
  destruct st as [d t i n rnd dr ol c dist m pf tr sql].
  run_embed.
  destruct (ol c text) eqn:E0; cbn; [left; lia|].
  destruct (ol (S c) text) eqn:E1; cbn; [right; left; lia|].
  destruct (ol (S (S c)) text) eqn:E2; cbn; right; right; lia.
Qed.

(** X2: the time [embed] spends waiting is fixed by the number of
    requests it sends: none after one request, the base delay after two,
    three times the base delay after three, whether the third request is
    answered or not; so never more than three times the base delay, and
    never anything after the last attempt. *)
Theorem embed_waits (text : string) (st : State) :
  w_now (after (embed text st))
    = w_now st +
      match w_calls (after (embed text st)) - w_calls st with
      | 0 | 1 => 0
      | 2 => EMBED_RETRY_DELAY_MS
      | _ => 3 * EMBED_RETRY_DELAY_MS
      end /\
  w_now (after (embed text st)) <= w_now st + 3 * EMBED_RETRY_DELAY_MS.
Proof.
  unfold EMBED_RETRY_DELAY_MS.
  destruct (embed_calls_and_clock text st)
    as [[Hcalls Hnow]|[[Hcalls Hnow]|[Hcalls Hnow]]]; rewrite Hcalls, Hnow.
  - replace (w_calls st + 1 - w_calls st) with 1 by lia. lia.
  - replace (w_calls st + 2 - w_calls st) with 2 by lia. lia.
  - replace (w_calls st + 3 - w_calls st) with 3 by lia. lia.
Qed.

(** ** Deleting by id *)

Lemma withoutId_In (id : string) (rs : list MemoryRecord) (r : MemoryRecord) :
  In r (withoutId id rs) <-> In r rs /\ rec_id r <> id.
Proof.
  unfold withoutId. rewrite filter_In, negb_true_iff.
  split; intros [Hin Hid]; split; auto.
  - intros Heq. apply String.eqb_eq in Heq. congruence.
  - destruct (rec_id r =? id)%string eqn:E; [|reflexivity].
    apply String.eqb_eq in E. contradiction.
Qed.

Lemma withoutId_absent (id : string) (rs : list MemoryRecord) :
  ~ In id (map rec_id rs) -> withoutId id rs = rs.
Proof.
  unfold withoutId. induction rs as [|r rs IH]; intros Hnot; [reflexivity|].
  cbn [filter]. cbn [map In] in Hnot.
  destruct (rec_id r =? id)%string eqn:E.
  - apply String.eqb_eq in E. tauto.
  - cbn [negb]. f_equal. apply IH. tauto.
Qed.

Lemma withoutId_twice (id : string) (rs : list MemoryRecord) :
  withoutId id (withoutId id rs) = withoutId id rs.
Proof.
  apply withoutId_absent. intros Hin.
  apply in_map_iff in Hin. destruct Hin as (r & Hid & Hr).
  apply withoutId_In in Hr. tauto.
Qed.

Lemma deleteMemory_noTable_run (id : string) (st : State) :
  noTable st ->
  deleteMemory id st = (Return tt, after (ensureInitialized st)).
Proof.
  intros Hno.
  pose proof (noTable_after_init st Hno) as Htable.
  unfold deleteMemory. rewrite init_first.
  unfold bind, get. rewrite Htable. reflexivity.
Qed.

Lemma deleteMemory_hasTable_run (id : string) (st : State) (t : Table) :
  hasTable st t ->
  hasQuote id = false ->
  exists st',
    deleteMemory id st = (Return tt, st') /\
    w_memories st' = Some {| dim := dim t; rows := withoutId id (rows t) |} /\
    initPromise st' = true /\ db st' = true /\ table st' = true.
Proof.
  intros Htable Hid.
  destruct (hasTable_after_init st t Htable) as (Hinit0 & Hdb0 & Htable0 & Hmem0).
  assert (Hsame : deleteMemory id st = deleteMemory id (after (ensureInitialized st))).
  { unfold deleteMemory. rewrite !init_first.
    destruct (ensureInitialized_flags (after (ensureInitialized st)))
      as (_ & _ & _ & Hsame).
    now rewrite (Hsame Hinit0). }
  rewrite Hsame, (deleteMemory_run _ _ _ Hinit0 Htable0 Hmem0 Hid).
  eexists. split; [reflexivity|]. fields. auto.
Qed.

(** X3: [deleteMemory] on a store without a table does nothing and
    raises nothing; on a store with a table, for an id that holds no
    quote (neither a double nor a single one), it succeeds and leaves
    exactly the rows of other ids, in their order: no row of that id is
    left, and when no row had that id the table is what it was. *)
Theorem deleteMemory_removes (id : string) (st : State) :
  (noTable st ->
     outcome (deleteMemory id st) = Return tt /\
     after (deleteMemory id st) = after (ensureInitialized st) /\
     w_memories (after (deleteMemory id st)) = w_memories st) /\
  (forall t,
     hasTable st t -> hasQuote id = false ->
     outcome (deleteMemory id st) = Return tt /\
     w_memories (after (deleteMemory id st))
       = Some {| dim := dim t; rows := withoutId id (rows t) |} /\
     (forall r, In r (withoutId id (rows t)) <-> In r (rows t) /\ rec_id r <> id) /\
     (~ In id (map rec_id (rows t)) -> withoutId id (rows t) = rows t)).
Proof.
  split.
  - intros Hno. rewrite (deleteMemory_noTable_run id st Hno).
    destruct (ensureInitialized_world st) as (Hmem & _).
    repeat split; auto.
  - intros t Htable Hid.
    destruct (deleteMemory_hasTable_run id st t Htable Hid) as (st' & Hrun & Hrows & _).
    rewrite Hrun. unfold outcome, after. cbn [fst snd].
    split; [reflexivity|]. split; [exact Hrows|].
    split; [intros r; apply withoutId_In|apply withoutId_absent].
Qed.

Lemma deleteMemory_removes_witness :
  option_map (fun t => map rec_id (rows t))
    (w_memories (after (deleteMemory "dup" twoUnderOneId))) = Some [].
Proof.
  destruct (proj2 (deleteMemory_removes "dup" twoUnderOneId)
              {| dim := 2;
                 rows := match w_memories twoUnderOneId with
                         | Some t => rows t
                         | None => []
                         end |})
    as (_ & Hrows & _).
  - split; [reflexivity|discriminate].
  - reflexivity.
  - rewrite Hrows. reflexivity.
Defined.

(** X4: storing under a custom id and deleting by that id undo each
    other: on a store with a table, after an [addMemory] that succeeds
    under a custom id that is not empty and holds no quote (neither a
    double nor a single one), [deleteMemory] of that id succeeds and
    leaves the rows the table had under other ids. *)
Theorem addMemory_then_deleteMemory (content : string) (metadata : option Metadata)
    (c : ascii) (cs : string) (st st1 : State) (t : Table) (vector : Vector) :
  validContent content ->
  hasTable st t ->
  embed (trim content) (after (ensureInitialized st)) = (Return vector, st1) ->
  hasQuote (String c cs) = false ->
  outcome (addMemory content metadata (Some (String c cs)) st)
    = Return (String c cs) /\
  outcome (deleteMemory (String c cs)
             (after (addMemory content metadata (Some (String c cs)) st)))
    = Return tt /\
  w_memories
    (after (deleteMemory (String c cs)
              (after (addMemory content metadata (Some (String c cs)) st))))
    = Some {| dim := dim t; rows := withoutId (String c cs) (rows t) |}.
Proof.
  intros Hvalid Htable Hembed Hid.
  destruct (hasTable_after_init st t Htable) as (Hinit0 & Hdb0 & Htable0 & Hmem0).
  pose proof (clientKept_embed (trim content) (after (ensureInitialized st))) as Hkept.
  rewrite Hembed in Hkept. cbn [snd] in Hkept.
  destruct Hkept as (Hdb1 & Htable1 & Hinit1 & Hmem1 & _).
  rewrite Htable0 in Htable1. rewrite Hmem0 in Hmem1.
  rewrite Hdb0 in Hdb1. rewrite Hinit0 in Hinit1.
  destruct (storeRecord_existing (trim content) metadata (Some (String c cs))
              vector st1 t Htable1 Hmem1)
    as (st2 & Hrun & Hrows & Htable2 & Hdb2 & Hinit2).
  { intros cid Hcid. injection Hcid as <-. exact Hid. }
  assert (Hfull : addMemory content metadata (Some (String c cs)) st
                  = (Return (String c cs), st2)).
  { rewrite (addMemory_valid content metadata _ st Hvalid).
    unfold bind at 1. now rewrite Hembed. }
  assert (Hout : outcome (addMemory content metadata (Some (String c cs)) st)
                 = Return (String c cs)) by now rewrite Hfull.
  assert (Hafter : after (addMemory content metadata (Some (String c cs)) st) = st2)
    by now rewrite Hfull.
  rewrite Hout, Hafter. clear Hout Hafter.
  split; [reflexivity|].
  assert (Hhas : hasTable st2
            {| dim := dim t;
               rows := (rowsKept (Some (String c cs)) (rows t) ++
                        [recordOf (finalId (Some (String c cs)) st1) (trim content)
                           metadata vector (w_now st1)])%list |}).
  { split; [exact Hrows|]. intros _. split; congruence. }
  destruct (deleteMemory_hasTable_run (String c cs) st2 _ Hhas Hid)
    as (st3 & Hdel & Hrows3 & _).
  rewrite Hdel. unfold outcome, after. cbn [fst snd].
  split; [reflexivity|].
  rewrite Hrows3. cbn [dim rows rowsKept finalId].
  unfold withoutId at 1. rewrite filter_app. cbn [filter recordOf rec_id].
  rewrite String.eqb_refl. cbn [negb]. rewrite app_nil_r.
  fold (withoutId (String c cs) (withoutId (String c cs) (rows t))).
  now rewrite withoutId_twice.
Qed.

Lemma addMemory_then_deleteMemory_witness :
  option_map (fun t => map rec_id (rows t))
    (w_memories
       (after (deleteMemory "k1"
                 (after (addMemory "n" None (Some "k1") twoUnderOneId)))))
    = Some ["dup"; "dup"].
Proof.
  destruct (embed (trim "n") (after (ensureInitialized twoUnderOneId)))
    as [out st1] eqn:Hembed.
  assert (Hout : out = Return [1%Q; 1%Q]).
  { vm_compute in Hembed. now injection Hembed as <- _. }
  subst out.
  destruct (addMemory_then_deleteMemory "n" None "k"%char "1" twoUnderOneId st1
              {| dim := 2;
                 rows := match w_memories twoUnderOneId with
                         | Some t => rows t
                         | None => []
                         end |} [1%Q; 1%Q])
    as (_ & _ & Hrows).
  - split; [discriminate|]. apply Nat.leb_le. vm_compute. reflexivity.
  - split; [reflexivity|discriminate].
  - exact Hembed.
  - reflexivity.
  - rewrite Hrows. reflexivity.
Defined.

Lemma escapeQuotes_noDoubleQuote (s : string) :
  hasDoubleQuote s = false -> hasDoubleQuote (escapeQuotes s) = false.
Proof.
  unfold hasDoubleQuote.
  induction s as [|c s IH]; intros Hno; [reflexivity|].
  cbn [list_ascii_of_string existsb] in Hno.
  apply orb_false_iff in Hno. destruct Hno as [Hc Hno].
  cbn [escapeQuotes].
  destruct (Ascii.eqb c dquote || Ascii.eqb c squote);
    cbn [list_ascii_of_string existsb]; rewrite Hc, (IH Hno); reflexivity.
Qed.

Lemma escapeQuotes_longer (s : string) :
  hasQuote s = true -> String.length s < String.length (escapeQuotes s).
Proof.
  unfold hasQuote.
  induction s as [|c s IH]; intros Hq; [discriminate|].
  cbn [list_ascii_of_string existsb] in Hq. cbn [escapeQuotes].
  destruct (Ascii.eqb c dquote || Ascii.eqb c squote) eqn:Hc.
  - cbn [String.length]. pose proof (escapeQuotes_length s). lia.
  - cbn [orb] in Hq. cbn [String.length]. specialize (IH Hq). lia.
Qed.

(** X26: a memory whose id holds an apostrophe cannot be deleted by its
    id.  For an id with a single quote and no double quote, on a store
    with a table, [deleteMemory] succeeds and takes out the rows whose id
    is the escaped text [sanitizeId] makes of the id, which is never the
    id itself: every row stored under the id is still there. *)
Theorem deleteMemory_misses_quoted (id : string) (st : State) (t : Table) :
  hasTable st t -> hasDoubleQuote id = false -> hasQuote id = true ->
  outcome (deleteMemory id st) = Return tt /\
  w_memories (after (deleteMemory id st))
    = Some {| dim := dim t; rows := withoutId (sanitizeId id) (rows t) |} /\
  sanitizeId id <> id /\
  (forall r, In r (rows t) -> rec_id r = id ->
     In r (withoutId (sanitizeId id) (rows t))).
Proof.
  intros Htable Hdouble Hquote.
  destruct (hasTable_after_init st t Htable) as (Hinit0 & Hdb0 & Htable0 & Hmem0).
  assert (Hne : sanitizeId id <> id).
  { rewrite sanitizeId_escapeQuotes. intros Heq.
    pose proof (escapeQuotes_longer id Hquote) as Hlen.
    rewrite Heq in Hlen. lia. }
  assert (Hread : readFilter (idFilter (sanitizeId id)) = Some (sanitizeId id)).
  { apply readFilter_verbatim. rewrite sanitizeId_escapeQuotes.
    now apply escapeQuotes_noDoubleQuote. }
  assert (Hrun : deleteMemory id st =
            (Return tt,
             set_memories
               (Some {| dim := dim t; rows := withoutId (sanitizeId id) (rows t) |})
               (set_trace (EvDelete (idFilter (sanitizeId id))
                             :: w_trace (after (ensureInitialized st)))
                  (after (ensureInitialized st))))).
  { unfold deleteMemory. rewrite init_first.
    remember (after (ensureInitialized st)) as st0 eqn:Hst0. clear Hst0.
    unfold bind at 1, get. rewrite Htable0. cbn [negb].
    unfold table_delete, bind, emit, modify, get. fields.
    rewrite Hmem0, Hread. reflexivity. }
  rewrite Hrun. unfold outcome, after. fields.
  split; [reflexivity|]. split; [reflexivity|]. split; [exact Hne|].
  intros r Hin Hid. apply withoutId_In. split; [exact Hin|].
  rewrite Hid. intros Heq. apply Hne. now symmetry.
Qed.

Lemma deleteMemory_misses_quoted_witness :
  option_map (fun t => map rec_id (rows t))
    (w_memories (after (deleteMemory "it's" apostropheId))) = Some ["it's"].
Proof.
  destruct (deleteMemory_misses_quoted "it's" apostropheId
              {| dim := 2;
                 rows := match w_memories apostropheId with
                         | Some t => rows t
                         | None => []
                         end |})
    as (_ & Hrows & _).
  - split; [reflexivity|discriminate].
  - reflexivity.
  - reflexivity.
  - rewrite Hrows. reflexivity.
Defined.

(** ** The client's view of the store *)

Lemma staysSettled_refl (st : State) : staysSettled st st.
Proof. intros H. exact H. Qed.

Lemma staysSettled_trans (a b c : State) :
  staysSettled a b -> staysSettled b c -> staysSettled a c.
Proof. unfold staysSettled. auto. Qed.

Lemma init_settles (st : State) :
  consistent st -> settled (after (ensureInitialized st)).
Proof.
  intros [Hready Hfresh].
  destruct (ensureInitialized_flags st) as (Hinit & Hdb & Htable & Hsame).
  destruct (ensureInitialized_world st) as (Hmem & _).
  destruct (initPromise st) eqn:Hi.
  - rewrite (Hsame eq_refl). now apply Hready.
  - unfold settled. rewrite Hinit, (Hdb eq_refl), (Htable eq_refl), Hmem.
    repeat split; try reflexivity.
    + destruct (w_memories st); [discriminate|].
      rewrite (Hfresh eq_refl). discriminate.
    + destruct (w_memories st); [reflexivity|]. intros H. now elim H.
Qed.

Lemma staysSettled_ensureInitialized : keeps staysSettled ensureInitialized.
Proof.
  intros st Hsettled.
  destruct (ensureInitialized_flags st) as (_ & _ & _ & Hsame).
  fold (after (ensureInitialized st)).
  rewrite (Hsame (proj1 Hsettled)). exact Hsettled.
Qed.

Lemma staysSettled_emit (e : Event) : keeps staysSettled (emit e).
Proof. intros st Hsettled. exact Hsettled. Qed.

Lemma staysSettled_embed (text : string) : keeps staysSettled (embed text).
Proof.
  intros st (Hinit & Hdb & Htable).
  destruct (clientKept_embed text st) as (Hdb' & Htable' & Hinit' & Hmem' & _).
  unfold settled. rewrite Hdb', Htable', Hinit', Hmem'. auto.
Qed.

Lemma staysSettled_table_delete (text : string) : keeps staysSettled (table_delete text).
Proof.
  intros st (Hinit & Hdb & Htable).
  unfold table_delete, bind, emit, modify, get, throw. fields.
  destruct (w_memories st) eqn:Hmem; [|cbn; unfold settled; fields; now rewrite Hmem].
  destruct (readFilter text); cbn; fields; [|destruct (w_sql st text)];
    cbn; unfold settled; fields;
    try (now rewrite Hmem);
    repeat split; auto; try discriminate; intros _; apply Htable; discriminate.
Qed.

Lemma staysSettled_table_add (record : MemoryRecord) : keeps staysSettled (table_add record).
Proof.
  intros st (Hinit & Hdb & Htable).
  unfold table_add, bind, emit, modify, get, throw. fields.
  destruct (w_memories st) eqn:Hmem; [|cbn; unfold settled; fields; now rewrite Hmem].
  cbn; unfold settled; fields.
  repeat split; auto; try discriminate. intros _. apply Htable. discriminate.
Qed.

Lemma staysSettled_table_vectorSearch (queryVector : Vector) (limit : nat) :
  keeps staysSettled (table_vectorSearch queryVector limit).
Proof.
  intros st Hsettled.
  unfold table_vectorSearch, bind, emit, modify, get, throw, ret. fields.
  destruct (w_memories st) eqn:Hmem; [|exact Hsettled].
  destruct (limit =? 0); [exact Hsettled|].
  destruct (List.length queryVector =? dim t); exact Hsettled.
Qed.

Lemma staysSettled_ensureTable (vectorDim : nat) : keeps staysSettled (ensureTable vectorDim).
Proof.
  intros st (Hinit & Hdb & Htable).
  destruct st as [d tb i n rnd dr ol c dist m pf tr sql]. cbn in Hinit, Hdb, Htable.
  subst d i.
  destruct tb.
  - cbn. unfold settled. cbn. auto.
  - assert (m = None) as ->.
    { destruct m; [|reflexivity]. destruct Htable as [_ H].
      discriminate H. discriminate. }
    unfold ensureTable, createTable, table_delete, Date_toISOString,
      emit, modify, get, bind, ret, throw. cbn.
    rewrite readFilter_init. cbn. unfold settled. cbn.
    repeat split; auto; discriminate.
Qed.

Lemma staysSettled_generateId : keeps staysSettled generateId.
Proof. intros st Hsettled. exact Hsettled. Qed.

Lemma staysSettled_Date_toISOString : keeps staysSettled Date_toISOString.
Proof. intros st Hsettled. exact Hsettled. Qed.

Lemma staysSettled_readProfile : keeps staysSettled readProfile.
Proof.
  intros st Hsettled.
  unfold readProfile, bind, emit, modify, get, throw, ret. fields.
  destruct (w_profile st) as [[p|raw]|]; exact Hsettled.
Qed.

Lemma staysSettled_writeProfile (p : UserProfile) : keeps staysSettled (writeProfile p).
Proof. intros st Hsettled. exact Hsettled. Qed.

(* Closes the goals [keeps_steps] leaves for the primitives. *)
Ltac settled_primitives :=
  first
    [ apply staysSettled_ensureInitialized
    | apply staysSettled_emit
    | apply staysSettled_embed
    | apply staysSettled_table_delete
    | apply staysSettled_table_add
    | apply staysSettled_table_vectorSearch
    | apply staysSettled_ensureTable
    | apply staysSettled_generateId
    | apply staysSettled_Date_toISOString
    | apply staysSettled_readProfile
    | apply staysSettled_writeProfile ].

Lemma staysSettled_search (query : string) (limit : option nat) :
  keeps staysSettled (search query limit).
Proof.
  unfold search.
  keeps_steps staysSettled_refl staysSettled_trans; settled_primitives.
Qed.

Lemma staysSettled_deleteMemory (id : string) : keeps staysSettled (deleteMemory id).
Proof.
  unfold deleteMemory.
  keeps_steps staysSettled_refl staysSettled_trans; settled_primitives.
Qed.

Lemma staysSettled_addMemory (content : string) (metadata : option Metadata)
    (customId : option string) :
  keeps staysSettled (addMemory content metadata customId).
Proof.
  unfold addMemory. cbv zeta.
  keeps_steps staysSettled_refl staysSettled_trans; settled_primitives.
Qed.

Lemma staysSettled_forgetByQuery (query : string) : keeps staysSettled (forgetByQuery query).
Proof.
  unfold forgetByQuery.
  keeps_steps staysSettled_refl staysSettled_trans;
    first [apply staysSettled_search | apply staysSettled_deleteMemory].
Qed.

Lemma staysSettled_updateProfile (staticFacts dynamicFacts : option (list string)) :
  keeps staysSettled (updateProfile staticFacts dynamicFacts).
Proof.
  unfold updateProfile.
  keeps_steps staysSettled_refl staysSettled_trans; settled_primitives.
Qed.

Lemma staysSettled_getProfile (query : option string) :
  keeps staysSettled (getProfile query).
Proof.
  unfold getProfile.
  keeps_steps staysSettled_refl staysSettled_trans;
    first [apply staysSettled_search | settled_primitives].
Qed.

Lemma staysSettled_wipeAllMemories : keeps staysSettled wipeAllMemories.
Proof.
  intros st Hsettled. pose proof Hsettled as (Hinit & Hdb & Htable).
  unfold wipeAllMemories. rewrite init_first.
  destruct (ensureInitialized_flags st) as (_ & _ & _ & Hsame).
  rewrite (Hsame Hinit).
  destruct st as [d tb i n rnd dr ol c dist m pf tr sql]. cbn in Hinit, Hdb, Htable.
  subst d i.
  destruct tb.
  - destruct m as [t|]; [|destruct Htable as [H _]; now elim (H eq_refl)].
    cbn. unfold settled. cbn. repeat split; auto; try discriminate;
      try (intros H; now elim H).
  - cbn. unfold settled. cbn. auto.
Qed.

(** Every operation starts with the lazy initialization, so what holds of
    it on settled clients holds of it after any consistent client. *)
Lemma settled_after {A} (m : M A) (st : State) :
  keeps staysSettled m ->
  m st = m (after (ensureInitialized st)) ->
  consistent st -> settled (after (m st)).
Proof.
  intros Hkeeps Hsame Hcons. rewrite Hsame.
  apply Hkeeps, init_settles, Hcons.
Qed.

Lemma init_twice {A} (k : M A) (st : State) :
  (ensureInitialized ;; k) st
  = (ensureInitialized ;; k) (after (ensureInitialized st)).
Proof.
  rewrite !init_first.
  destruct (ensureInitialized_flags st) as (Hinit & _).
  destruct (ensureInitialized_flags (after (ensureInitialized st)))
    as (_ & _ & _ & Hsame).
  now rewrite (Hsame Hinit).
Qed.

(** X5: the client's view of the store is an invariant.  A new client is
    consistent; from a consistent client every public operation, however
    it ends, leaves a client that has initialized, is connected and holds
    the table handle exactly when the store has the table; and [close]
    leaves a consistent client. *)
Theorem operations_keep_consistent (st : State) :
  consistent st ->
  (forall content metadata customId,
     settled (after (addMemory content metadata customId st))) /\
  (forall query limit, settled (after (search query limit st))) /\
  (forall query, settled (after (getProfile query st))) /\
  (forall staticFacts dynamicFacts,
     settled (after (updateProfile staticFacts dynamicFacts st))) /\
  (forall id, settled (after (deleteMemory id st))) /\
  (forall query, settled (after (forgetByQuery query st))) /\
  settled (after (wipeAllMemories st)) /\
  consistent (after (close st)) /\
  (forall ollama memories profile, consistent (newClient ollama memories profile)).
Proof.
  intros Hcons.
  split; [|split; [|split; [|split; [|split; [|split; [|split; [|split]]]]]]].
  - intros. apply settled_after; [apply staysSettled_addMemory| |exact Hcons].
    unfold addMemory. apply init_twice.
  - intros. apply settled_after; [apply staysSettled_search| |exact Hcons].
    unfold search. apply init_twice.
  - intros. apply settled_after; [apply staysSettled_getProfile| |exact Hcons].
    unfold getProfile. apply init_twice.
  - intros. apply settled_after; [apply staysSettled_updateProfile| |exact Hcons].
    unfold updateProfile. apply init_twice.
  - intros. apply settled_after; [apply staysSettled_deleteMemory| |exact Hcons].
    unfold deleteMemory. apply init_twice.
  - intros query. unfold forgetByQuery, bind at 1.
    assert (Hsearch : settled (after (search query (Some 5) st))).
    { apply settled_after; [apply staysSettled_search| |exact Hcons].
      unfold search. apply init_twice. }
    unfold after in *.
    destruct (search query (Some 5) st) as [[results|e] st1]; cbn [snd] in *;
      [|exact Hsearch].
    destruct results as [|target others]; [exact Hsearch|].
    unfold bind at 1.
    pose proof (staysSettled_deleteMemory (sr_id target) st1 Hsearch) as Hdel.
    destruct (deleteMemory (sr_id target) st1) as [[u|e] st2]; exact Hdel.
  - apply settled_after; [apply staysSettled_wipeAllMemories| |exact Hcons].
    unfold wipeAllMemories. apply init_twice.
  - destruct Hcons as [Hready Hfresh].
    destruct st as [d tb i n rnd dr ol c dist m pf tr sql].
    unfold close, bind, get, modify, ret. cbn in *.
    destruct d; cbn.
    + split; [discriminate|reflexivity].
    + split; [exact Hready|exact Hfresh].
  - intros. split; [discriminate|reflexivity].
Qed.

Lemma operations_keep_consistent_witness :
  settled (after (wipeAllMemories
                    (after (addMemory "note" None None
                              (newClient lengthService None None))))).
Proof.
  assert (Hnew : consistent (newClient lengthService None None))
    by (split; [discriminate|reflexivity]).
  destruct (operations_keep_consistent _ Hnew) as (Hadd & _).
  specialize (Hadd "note" None None).
  assert (Hcons : consistent (after (addMemory "note" None None
                                       (newClient lengthService None None)))).
  { split; [intros _; exact Hadd|].
    destruct Hadd as (Hinit & _). intros Hc. congruence. }
  destruct (operations_keep_consistent _ Hcons) as (_ & _ & _ & _ & _ & _ & Hwipe & _).
  exact Hwipe.
Defined.
(** ** Closing and reopening *)

(** What [embed] returns depends on the service and on the count of
    requests alone. *)
Lemma embed_outcome_depends (text : string) (s1 s2 : State) :
  w_ollama s1 = w_ollama s2 -> w_calls s1 = w_calls s2 ->
  outcome (embed text s1) = outcome (embed text s2).
Proof.
  intros Hol Hcalls.
  destruct s1 as [d1 t1 i1 n1 rnd1 dr1 ol c dist1 m1 pf1 tr1].
  destruct s2 as [d2 t2 i2 n2 rnd2 dr2 ol2 c2 dist2 m2 pf2 tr2].
  cbn in Hol, Hcalls. subst ol2 c2.
  run_embed.
  destruct (ol c text) eqn:E0; cbn; [reflexivity|].
  destruct (ol (S c) text) eqn:E1; cbn; [reflexivity|].
  destruct (ol (S (S c)) text) eqn:E2; cbn; reflexivity.
Qed.

Lemma bind_run {A B} (m : M A) (k : A -> M B) (st : State) :
  bind m k st =
  match m st with
  | (Return a, st') => k a st'
  | (Throw e, st') => (Throw e, st')
  end.
Proof. reflexivity. Qed.

Lemma search_initialized (query : string) (limit : option nat) (st : State) :
  initPromise st = true ->
  search query limit st =
  (if negb (table st) then ret []
   else
     queryVector <- embed query ;;
     results <- table_vectorSearch queryVector
                  (match limit with Some n => n | None => 5 end) ;;
     ret (map toSearchResult results)) st.
Proof.
  intros Hinit. unfold search. rewrite init_first.
  destruct (ensureInitialized_flags st) as (_ & _ & _ & Hsame).
  rewrite (Hsame Hinit). reflexivity.
Qed.

(** What [search] returns on an initialized client depends on the handle,
    the table, the metric, the service and the count of requests
    alone. *)
Lemma search_outcome_depends (query : string) (limit : option nat) (s1 s2 : State) :
  initPromise s1 = true -> initPromise s2 = true ->
  table s1 = table s2 ->
  w_memories s1 = w_memories s2 -> w_distance s1 = w_distance s2 ->
  w_ollama s1 = w_ollama s2 -> w_calls s1 = w_calls s2 ->
  outcome (search query limit s1) = outcome (search query limit s2).
Proof.
  intros Hi1 Hi2 Htable Hmem Hdist Hol Hcalls.
  rewrite (search_initialized query limit s1 Hi1), (search_initialized query limit s2 Hi2).
  rewrite Htable.
  destruct (table s2); cbn [negb]; [|reflexivity].
  pose proof (embed_outcome_depends query s1 s2 Hol Hcalls) as Hembed.
  pose proof (clientKept_embed query s1) as Hk1.
  pose proof (clientKept_embed query s2) as Hk2.
  unfold outcome in Hembed.
  rewrite (bind_run (embed query) _ s1), (bind_run (embed query) _ s2).
  destruct (embed query s1) as [[v1|e1] s1']; destruct (embed query s2) as [[v2|e2] s2'];
    cbn [fst snd] in *; try discriminate; [|now injection Hembed as ->].
  injection Hembed as ->.
  destruct Hk1 as (_ & _ & _ & Hm1 & _ & Hd1 & _).
  destruct Hk2 as (_ & _ & _ & Hm2 & _ & Hd2 & _).
  unfold table_vectorSearch, bind, emit, modify, get, throw, ret, outcome. fields.
  rewrite Hm1, Hm2, Hd1, Hd2, Hmem, Hdist.
  destruct (w_memories s2) as [t|]; [|reflexivity].
  destruct (match limit with Some n => n | None => 5 end =? 0); [reflexivity|].
  destruct (List.length v2 =? dim t); reflexivity.
Qed.

Lemma close_run (st : State) :
  close st =
  (Return tt,
   if db st then set_initPromise false (set_db false (set_table false st)) else st).
Proof.
  unfold close, bind, get, modify, ret. now destruct (db st).
Qed.

(** X6: [close] forgets the connection, the handle and the cached
    initialization of a connected client and does nothing on another
    one; it raises nothing and touches neither the table nor the
    profile file.  Nothing is lost by it: the next operation
    initializes again, and a search on the closed client returns what
    the same search on the client before [close] returns. *)
Theorem close_reopens (st : State) :
  consistent st ->
  outcome (close st) = Return tt /\
  w_memories (after (close st)) = w_memories st /\
  w_profile (after (close st)) = w_profile st /\
  (db st = true ->
     db (after (close st)) = false /\ table (after (close st)) = false /\
     initPromise (after (close st)) = false) /\
  (db st = false -> after (close st) = st) /\
  (forall query limit,
     outcome (search query limit (after (close st)))
       = outcome (search query limit st)).
Proof.
  intros Hcons. rewrite close_run. unfold outcome at 1, after. cbn [fst snd].
  split; [reflexivity|].
  split; [now destruct (db st)|].
  split; [now destruct (db st)|].
  split; [intros ->; repeat split|].
  split; [now intros ->|].
  intros query limit.
  assert (Hopen : forall s, consistent s ->
            outcome (search query limit s)
              = outcome (search query limit (after (ensureInitialized s)))).
  { intros s _. unfold search. now rewrite init_twice. }
  assert (Hclosed : consistent
            (if db st then set_initPromise false (set_db false (set_table false st))
             else st)).
  { destruct (db st); [|exact Hcons]. split; [discriminate|reflexivity]. }
  rewrite (Hopen _ Hclosed), (Hopen _ Hcons).
  pose proof (init_settles _ Hclosed) as (Hi1 & _ & Ht1).
  pose proof (init_settles _ Hcons) as (Hi2 & _ & Ht2).
  destruct (ensureInitialized_world
              (if db st then set_initPromise false (set_db false (set_table false st))
               else st))
    as (Hm1 & _ & Hc1 & _ & _ & Ho1 & _ & Hd1).
  destruct (ensureInitialized_world st) as (Hm2 & _ & Hc2 & _ & _ & Ho2 & _ & Hd2).
  assert (Hmems : w_memories
            (after (ensureInitialized
               (if db st then set_initPromise false (set_db false (set_table false st))
                else st)))
          = w_memories (after (ensureInitialized st))).
  { rewrite Hm1, Hm2. now destruct (db st). }
  apply search_outcome_depends; try assumption.
  - rewrite <- Hmems in Ht2.
    destruct (table (after (ensureInitialized st)));
      destruct (table (after (ensureInitialized
                  (if db st
                   then set_initPromise false (set_db false (set_table false st))
                   else st)))); try reflexivity.
    + apply Ht1. apply Ht2. reflexivity.
    + symmetry. apply Ht2. apply Ht1. reflexivity.
  - rewrite Hd1, Hd2. now destruct (db st).
  - rewrite Ho1, Ho2. now destruct (db st).
  - rewrite Hc1, Hc2. now destruct (db st).
Qed.

Lemma close_reopens_witness :
  outcome (search "second" None (after (close (after (ensureInitialized twoUnderOneId)))))
  = outcome (search "second" None (after (ensureInitialized twoUnderOneId))).
Proof.
  apply (close_reopens (after (ensureInitialized twoUnderOneId))).
  split; [intros _|discriminate].
  repeat split; try reflexivity; discriminate.
Defined.

(** ** Reading the profile *)

Lemma readProfile_or_fresh (st : State) :
  try_catch readProfile (fun _ => ret freshProfile) st
  = (Return (priorProfile st), emitted EvReadFile st).
Proof.
  unfold priorProfile.
  destruct st as [d t i n rnd dr ol c dist m [[p|raw]|] tr sql]; reflexivity.
Qed.

Lemma getProfile_initialized (query : option string) (st : State) :
  initPromise st = true ->
  getProfile query st =
  (searchResults <-
     match query with
     | Some (String c q) =>
         if table st then
           results <- search (String c q) (Some 10) ;;
           ret (map toProfileSearchResult results)
         else ret []
     | _ => ret []
     end ;;
   ret {| pr_static := static (priorProfile st);
          pr_dynamic := dynamic (priorProfile st);
          pr_searchResults := searchResults |}) (emitted EvReadFile st).
Proof.
  intros Hinit. unfold getProfile. rewrite init_first.
  destruct (ensureInitialized_flags st) as (_ & _ & _ & Hsame).
  rewrite (Hsame Hinit).
  rewrite bind_run, readProfile_or_fresh. reflexivity.
Qed.

Lemma getProfile_after_init (query : option string) (st : State) :
  getProfile query st = getProfile query (after (ensureInitialized st)).
Proof. unfold getProfile. apply init_twice. Qed.

Lemma profileKept_search (query : string) (limit : option nat) (st : State) :
  w_profile (after (search query limit st)) = w_profile st.
Proof.
  unfold search. rewrite init_first.
  destruct (ensureInitialized_world st) as (_ & Hprofile & _).
  remember (after (ensureInitialized st)) as st0 eqn:Hst0. clear Hst0.
  rewrite <- Hprofile. clear Hprofile.
  rewrite bind_run. cbn [get].
  destruct (table st0); cbn [negb]; [|reflexivity].
  rewrite bind_run.
  pose proof (clientKept_embed query st0) as Hkept.
  destruct (embed query st0) as [[v|e] st1]; cbn [snd] in Hkept;
    destruct Hkept as (_ & _ & _ & _ & Hprofile & _); [|exact Hprofile].
  rewrite <- Hprofile.
  unfold table_vectorSearch, bind, emit, modify, get, throw, ret, after. fields.
  destruct (w_memories st1) as [t|]; [|reflexivity].
  destruct (match limit with Some n => n | None => 5 end =? 0); [reflexivity|].
  destruct (List.length v =? dim t); reflexivity.
Qed.

(** X7: [getProfile] only reads.  Whatever the query and however it
    ends, the table and the profile file are what they were.  Without a
    query, with an empty one, or on a store without a table it succeeds
    with the stable and dynamic facts of the profile file (none when the
    file is missing or does not parse) and no search results, and sends
    nothing to the embedding service.  With a query, on a store that has
    a table, it returns the hits of [search] with limit 10 repackaged,
    and fails exactly when that search fails, with its error. *)
Theorem getProfile_reads (query : option string) (st : State) :
  w_memories (after (getProfile query st)) = w_memories st /\
  w_profile (after (getProfile query st)) = w_profile st /\
  (query = None \/ query = Some EmptyString \/ noTable st ->
     outcome (getProfile query st)
       = Return {| pr_static := static (priorProfile st);
                   pr_dynamic := dynamic (priorProfile st);
                   pr_searchResults := [] |} /\
     w_calls (after (getProfile query st)) = w_calls st) /\
  (forall c q t,
     query = Some (String c q) -> hasTable st t ->
     outcome (getProfile query st)
       = match outcome (search (String c q) (Some 10) st) with
         | Return results =>
             Return {| pr_static := static (priorProfile st);
                       pr_dynamic := dynamic (priorProfile st);
                       pr_searchResults := map toProfileSearchResult results |}
         | Throw e => Throw e
         end).
Proof.
  destruct (ensureInitialized_flags st) as (Hinit & _).
  destruct (ensureInitialized_world st)
    as (Hmem & Hprofile & Hcalls & _ & _ & Hol & _ & Hdist).
  assert (Hprior : priorProfile (after (ensureInitialized st)) = priorProfile st).
  { unfold priorProfile. now rewrite Hprofile. }
  rewrite getProfile_after_init, (getProfile_initialized query _ Hinit), Hprior.
  remember (after (ensureInitialized st)) as st0 eqn:Hst0.
  assert (Hquiet :
    (fun s : State =>
       (Return {| pr_static := static (priorProfile st);
                  pr_dynamic := dynamic (priorProfile st);
                  pr_searchResults := [] |}, s)) (emitted EvReadFile st0)
    = (searchResults <- ret [] ;;
       ret {| pr_static := static (priorProfile st);
              pr_dynamic := dynamic (priorProfile st);
              pr_searchResults := searchResults |}) (emitted EvReadFile st0))
    by reflexivity.
  split; [|split; [|split]].
  - destruct query as [[|c q]|]; try (rewrite <- Hquiet; exact Hmem).
    destruct (table st0); [|rewrite <- Hquiet; exact Hmem].
    rewrite bind_run, bind_run.
    pose proof (storeKept_search (String c q) (Some 10) (emitted EvReadFile st0)) as Hk.
    unfold storeKept in Hk.
    destruct (search (String c q) (Some 10) (emitted EvReadFile st0)) as [[rs|e] s1];
      cbn [snd] in Hk; unfold after; cbn [snd ret]; rewrite Hk; exact Hmem.
  - destruct query as [[|c q]|]; try (rewrite <- Hquiet; exact Hprofile).
    destruct (table st0); [|rewrite <- Hquiet; exact Hprofile].
    rewrite bind_run, bind_run.
    pose proof (profileKept_search (String c q) (Some 10) (emitted EvReadFile st0)) as Hk.
    unfold after in Hk.
    destruct (search (String c q) (Some 10) (emitted EvReadFile st0)) as [[rs|e] s1];
      cbn [snd] in Hk; unfold after; cbn [snd ret]; rewrite Hk; exact Hprofile.
  - intros [->|[->|Hno]]; try (split; [reflexivity|exact Hcalls]).
    assert (Htable : table st0 = false) by (subst st0; now apply noTable_after_init).
    rewrite Htable.
    destruct query as [[|c q]|]; split; try reflexivity; exact Hcalls.
  - intros c q t -> Htable.
    destruct (hasTable_after_init st t Htable) as (_ & _ & Htable0 & _).
    rewrite <- Hst0 in Htable0. rewrite Htable0.
    assert (Hsearch : outcome (search (String c q) (Some 10) (emitted EvReadFile st0))
                      = outcome (search (String c q) (Some 10) st)).
    { transitivity (outcome (search (String c q) (Some 10) st0)).
      - apply search_outcome_depends; try reflexivity; assumption.
      - subst st0. unfold search. now rewrite <- init_twice. }
    rewrite <- Hsearch. rewrite bind_run, bind_run.
    destruct (search (String c q) (Some 10) (emitted EvReadFile st0)) as [[rs|e] s1];
      reflexivity.
Qed.

Lemma getProfile_reads_witness :
  outcome (getProfile (Some "what") (newClient lengthService None None))
  = Return {| pr_static := []; pr_dynamic := []; pr_searchResults := [] |}.
Proof.
  apply (getProfile_reads (Some "what") (newClient lengthService None None)).
  right. right. split; reflexivity.
Defined.

(** ** Writing the profile and reading it back *)

Lemma updateProfile_written (staticFacts dynamicFacts : option (list string))
    (st : State) :
  initPromise (after (updateProfile staticFacts dynamicFacts st)) = true /\
  priorProfile (after (updateProfile staticFacts dynamicFacts st)) =
  {| static :=
       (static (priorProfile st) ++
        match staticFacts with
        | Some facts => filter (isNewFact (static (priorProfile st))) facts
        | None => []
        end)%list;
     dynamic :=
       match dynamicFacts with
       | Some facts => firstn 20 facts
       | None => dynamic (priorProfile st)
       end;
     lastUpdated := Some (w_now st) |}.
Proof.
  destruct (ensureInitialized_flags st) as (Hinit & _).
  destruct (ensureInitialized_world st) as (_ & Hprofile & _ & Hnow & _).
  assert (Hprior : priorProfile (after (ensureInitialized st)) = priorProfile st).
  { unfold priorProfile. now rewrite Hprofile. }
  rewrite updateProfile_after_init, (updateProfile_run _ _ _ Hinit), Hprior, Hnow.
  split; [exact Hinit|reflexivity].
Qed.

(** X8: merging the same facts again changes nothing: after
    [updateProfile] has run, a second run with the same arguments leaves
    the same stable facts and the same dynamic facts. *)
Theorem updateProfile_idempotent (staticFacts dynamicFacts : option (list string))
    (st : State) :
  static (priorProfile
            (after (updateProfile staticFacts dynamicFacts
                      (after (updateProfile staticFacts dynamicFacts st)))))
    = static (priorProfile (after (updateProfile staticFacts dynamicFacts st))) /\
  dynamic (priorProfile
             (after (updateProfile staticFacts dynamicFacts
                       (after (updateProfile staticFacts dynamicFacts st)))))
    = dynamic (priorProfile (after (updateProfile staticFacts dynamicFacts st))).
Proof.
  destruct (updateProfile_written staticFacts dynamicFacts
              (after (updateProfile staticFacts dynamicFacts st))) as (_ & ->).
  destruct (updateProfile_written staticFacts dynamicFacts st) as (_ & ->).
  cbn [static dynamic]. split.
  - destruct staticFacts as [facts|]; [|now rewrite app_nil_r].
    assert (Hnone : filter
              (isNewFact (static (priorProfile st) ++
                          filter (isNewFact (static (priorProfile st))) facts)%list)
              facts = []).
    { assert (H : forall l, (forall f, In f l -> In f facts) ->
                 filter (isNewFact (static (priorProfile st) ++
                           filter (isNewFact (static (priorProfile st))) facts)%list)
                   l = []).
      { induction l as [|f l IH]; intros Hl; [reflexivity|].
        cbn [filter].
        destruct (isNewFact _ f) eqn:Hnew.
        - exfalso. apply isNewFact_spec in Hnew. apply Hnew.
          apply in_or_app.
          destruct (in_dec string_dec f (static (priorProfile st))) as [Hin|Hnot];
            [now left|right].
          apply filter_In. split; [apply Hl; now left|].
          now apply isNewFact_spec.
        - apply IH. intros g Hg. apply Hl. now right. }
      apply H. auto. }
    now rewrite Hnone, app_nil_r.
  - now destruct dynamicFacts.
Qed.

(** X9: what [updateProfile] wrote is what [getProfile] reads: without a
    query, [getProfile] right after [updateProfile] returns the prior
    stable facts followed by the new ones, and the dynamic facts
    [updateProfile] settled on. *)
Theorem updateProfile_then_getProfile (staticFacts dynamicFacts : option (list string))
    (st : State) :
  outcome (getProfile None (after (updateProfile staticFacts dynamicFacts st)))
  = Return {| pr_static :=
                (static (priorProfile st) ++
                 match staticFacts with
                 | Some facts => filter (isNewFact (static (priorProfile st))) facts
                 | None => []
                 end)%list;
              pr_dynamic :=
                match dynamicFacts with
                | Some facts => firstn 20 facts
                | None => dynamic (priorProfile st)
                end;
              pr_searchResults := [] |}.
Proof.
  destruct (updateProfile_written staticFacts dynamicFacts st) as (Hinit & Hwritten).
  rewrite (getProfile_initialized None _ Hinit), Hwritten. reflexivity.
Qed.

(** ** What a failed forget leaves *)

Lemma deleteMemory_throws (id : string) (st st' : State) (e : Thrown) :
  deleteMemory id st = (Throw e, st') -> w_memories st' = w_memories st.
Proof.
  unfold deleteMemory. rewrite init_first.
  destruct (ensureInitialized_world st) as (Hmem & _).
  remember (after (ensureInitialized st)) as st0 eqn:Hst0. clear Hst0.
  rewrite <- Hmem. clear Hmem.
  rewrite bind_run. cbn [get].
  destruct (table st0); cbn [negb]; [|discriminate].
  unfold table_delete, bind, emit, modify, get, throw, ret. fields.
  destruct (w_memories st0) as [t|] eqn:Hstore.
  - destruct (readFilter (idFilter (sanitizeId id))); [discriminate|].
    destruct (w_sql st0 (idFilter (sanitizeId id))); [|discriminate].
    intros H. injection H as _ <-. exact Hstore.
  - intros H. injection H as _ <-. exact Hstore.
Qed.

(** X10: [forgetByQuery] deletes only when it reports success: when it
    throws (the search failed, or the store refused the delete) and when
    it answers [success = false], the table is what it was. *)
Theorem forgetByQuery_harmless (query : string) (st : State) :
  match outcome (forgetByQuery query st) with
  | Return r =>
      success r = false ->
      w_memories (after (forgetByQuery query st)) = w_memories st
  | Throw _ => w_memories (after (forgetByQuery query st)) = w_memories st
  end.
Proof.
  pose proof (storeKept_search query (Some 5) st) as Hsearch.
  unfold storeKept in Hsearch.
  unfold forgetByQuery. rewrite bind_run.
  destruct (search query (Some 5) st) as [[results|e] st1]; cbn [snd] in Hsearch;
    [|exact Hsearch].
  destruct results as [|target others]; [intros _; exact Hsearch|].
  rewrite bind_run.
  destruct (deleteMemory (sr_id target) st1) as [[u|e] st2] eqn:Hdel.
  - cbn. discriminate.
  - cbn. rewrite (deleteMemory_throws _ _ _ _ Hdel). exact Hsearch.
Qed.

Lemma forgetByQuery_harmless_witness :
  w_memories (after (forgetByQuery "gone" (newClient lengthService None None))) = None.
Proof.
  pose proof (forgetByQuery_harmless "gone" (newClient lengthService None None)) as H.
  vm_compute in H. exact (H eq_refl).
Defined.

(** ** Trimming *)

Lemma trimEnd_cons (c : ascii) (s : string) :
  trimEnd (String c s) =
  match trimEnd s with
  | EmptyString => if isWhiteSpace c then EmptyString else String c EmptyString
  | t => String c t
  end.
Proof. reflexivity. Qed.

Lemma trimEnd_idempotent (s : string) : trimEnd (trimEnd s) = trimEnd s.
Proof.
  induction s as [|c s IH]; [reflexivity|].
  rewrite trimEnd_cons.
  destruct (trimEnd s) as [|x t] eqn:Hs.
  - destruct (isWhiteSpace c) eqn:Hc; [reflexivity|].
    rewrite trimEnd_cons. cbn [trimEnd]. now rewrite Hc.
  - rewrite trimEnd_cons, IH. reflexivity.
Qed.

Lemma trimStart_head (s : string) (c : ascii) (rest : string) :
  trimStart s = String c rest -> isWhiteSpace c = false.
Proof.
  induction s as [|x s IH]; [discriminate|].
  cbn [trimStart]. destruct (isWhiteSpace x) eqn:Hx; [exact IH|].
  intros H. injection H as <- _. exact Hx.
Qed.

Lemma trimEnd_head (s : string) (c : ascii) (rest : string) :
  isWhiteSpace c = false ->
  exists rest', trimEnd (String c rest) = String c rest'.
Proof.
  intros Hc. cbn [trimEnd]. rewrite Hc.
  destruct (trimEnd rest); eauto.
Qed.

Lemma trim_head (s : string) (c : ascii) (rest : string) :
  trim s = String c rest -> isWhiteSpace c = false.
Proof.
  unfold trim.
  destruct (trimStart s) as [|x t] eqn:Hstart; [discriminate|].
  pose proof (trimStart_head _ _ _ Hstart) as Hx.
  destruct (trimEnd_head s x t Hx) as (rest' & ->).
  intros H. injection H as <- _. exact Hx.
Qed.

Lemma trimEnd_last (s pre : string) (c : ascii) :
  trimEnd s = String.append pre (String c EmptyString) -> isWhiteSpace c = false.
Proof.
  revert pre. induction s as [|x s IH]; intros pre.
  - destruct pre; discriminate.
  - cbn [trimEnd].
    destruct (trimEnd s) as [|y t] eqn:Hs.
    + destruct (isWhiteSpace x) eqn:Hx; [destruct pre; discriminate|].
      destruct pre as [|p pre]; cbn [String.append].
      * intros H. injection H as <-. exact Hx.
      * intros H. injection H as _ H. destruct pre; discriminate.
    + destruct pre as [|p pre]; cbn [String.append].
      * discriminate.
      * intros H. injection H as _ H. now apply (IH pre).
Qed.

Lemma trim_idempotent (s : string) : trim (trim s) = trim s.
Proof.
  unfold trim.
  destruct (trimStart s) as [|x t] eqn:Hstart; [reflexivity|].
  pose proof (trimStart_head _ _ _ Hstart) as Hx.
  destruct (trimEnd_head s x t Hx) as (rest' & Hend).
  rewrite Hend at 1. cbn [trimStart]. rewrite Hx.
  rewrite <- Hend. apply trimEnd_idempotent.
Qed.

(** X11: white space around the content never matters and is never
    stored: [addMemory] of a content and of its trimmed form are the
    same computation, trimming twice is trimming once, and a trimmed
    text neither starts nor ends with a white space character. *)
Theorem addMemory_trims (content : string) :
  (forall metadata customId st,
     addMemory content metadata customId st
       = addMemory (trim content) metadata customId st) /\
  trim (trim content) = trim content /\
  (forall c rest, trim content = String c rest -> isWhiteSpace c = false) /\
  (forall pre c,
     trim content = String.append pre (String c EmptyString) ->
     isWhiteSpace c = false).
Proof.
  split; [|split; [apply trim_idempotent|split]].
  - intros. unfold addMemory. cbv zeta. now rewrite trim_idempotent.
  - apply trim_head.
  - intros pre c. unfold trim. apply trimEnd_last.
Qed.

Lemma addMemory_trims_witness :
  isWhiteSpace "a"%char = false.
Proof.
  apply (proj1 (proj2 (proj2 (addMemory_trims "  a b  "))) "a"%char " b").
  reflexivity.
Defined.

(** ** Escaping is faithful *)

Lemma escapeQuotes_head (s : string) (q : ascii) (rest : string) :
  escapeQuotes s = String q rest ->
  Ascii.eqb q dquote || Ascii.eqb q squote = false.
Proof.
  destruct s as [|c s]; [discriminate|].
  cbn [escapeQuotes].
  destruct (Ascii.eqb c dquote || Ascii.eqb c squote) eqn:Hc.
  - intros H. injection H as <- _. reflexivity.
  - intros H. injection H as <- _. exact Hc.
Qed.

Lemma unescape_escapeQuotes (s : string) : unescapeQuotes (escapeQuotes s) = s.
Proof.
  induction s as [|c s IH]; [reflexivity|].
  cbn [escapeQuotes].
  destruct (Ascii.eqb c dquote || Ascii.eqb c squote) eqn:Hc.
  - cbn [unescapeQuotes]. rewrite Ascii.eqb_refl, Hc. now rewrite IH.
  - cbn [unescapeQuotes].
    destruct (Ascii.eqb c backslash) eqn:Hb; [|now rewrite IH].
    destruct (escapeQuotes s) as [|q rest] eqn:Hs.
    + destruct s as [|x s']; [reflexivity|].
      cbn [escapeQuotes] in Hs.
      destruct (Ascii.eqb x dquote || Ascii.eqb x squote); discriminate.
    + rewrite (escapeQuotes_head _ _ _ Hs). now rewrite IH.
Qed.

(** X12: [sanitizeId] loses nothing: two different ids never give the
    same escaped text (dropping the backslash before each quote gives
    the id back), an id without quotes is left as it is, and no id gets
    shorter. *)
Theorem sanitizeId_faithful (id : string) :
  (forall id', sanitizeId id = sanitizeId id' -> id = id') /\
  unescapeQuotes (sanitizeId id) = id /\
  (hasQuote id = false -> sanitizeId id = id) /\
  String.length id <= String.length (sanitizeId id).
Proof.
  rewrite !sanitizeId_escapeQuotes.
  split; [|split; [apply unescape_escapeQuotes|split;
    [apply escapeQuotes_plain|apply escapeQuotes_length]]].
  intros id' H. rewrite !sanitizeId_escapeQuotes in H.
  rewrite <- (unescape_escapeQuotes id), <- (unescape_escapeQuotes id'). now rewrite H.
Qed.

Lemma sanitizeId_faithful_witness : sanitizeId "mem_1000_r0" = "mem_1000_r0".
Proof.
  apply (sanitizeId_faithful "mem_1000_r0"). reflexivity.
Defined.

(** ** Storing without a custom id *)

Lemma table_eta (t : Table) : {| dim := dim t; rows := rows t |} = t.
Proof. now destruct t. Qed.

(** Without a custom id [addMemory] either throws and leaves the rows as
    they are, or appends one record and returns its id. *)
Lemma addMemory_generated (content : string) (metadata : option Metadata)
    (st : State) (t : Table) :
  hasTable st t ->
  (exists e st',
     addMemory content metadata None st = (Throw e, st') /\
     w_memories st' = Some t) \/
  (exists id st' record,
     addMemory content metadata None st = (Return id, st') /\
     w_memories st' = Some {| dim := dim t; rows := (rows t ++ [record])%list |} /\
     rec_id record = id /\ rec_content record = trim content /\
     rec_metadata record = JsonOf (match metadata with Some m => m | None => [] end)).
Proof.
  intros Htable.
  destruct (hasTable_after_init st t Htable) as (Hinit0 & Hdb0 & Htable0 & Hmem0).
  unfold addMemory. rewrite init_first. cbv zeta.
  remember (after (ensureInitialized st)) as st0 eqn:Hst0. clear Hst0.
  destruct (trim content) as [|c cleaned] eqn:Hclean.
  { left. eexists _, _. split; [reflexivity|exact Hmem0]. }
  destruct (MAX_CONTENT_LENGTH <? String.length (String c cleaned)).
  { left. eexists _, _. split; [reflexivity|exact Hmem0]. }
  rewrite bind_run.
  pose proof (clientKept_embed (String c cleaned) st0) as Hkept.
  destruct (embed (String c cleaned) st0) as [[vector|e] st1]; cbn [snd] in Hkept;
    destruct Hkept as (Hdb1 & Htable1 & Hinit1 & Hmem1 & _).
  - rewrite Htable0 in Htable1. rewrite Hmem0 in Hmem1.
    fold (storeRecord (String c cleaned) metadata None vector).
    destruct st1 as [d tb i n rnd dr ol k dist m pf tr sql].
    cbn in Htable1, Hmem1. subst tb m.
    right. run_store.
    eexists _, _, _. split; [reflexivity|]. cbn. repeat split.
  - left. eexists _, _. split; [reflexivity|]. now rewrite Hmem1.
Qed.

(** X13: without a custom id [addMemory] never takes a row away: on a
    store with a table, however the call ends, the rows that were there
    are still there, in their order, followed by at most the new
    record; the new record is there exactly when the call returns, and
    it carries the returned id and the trimmed content. *)
Theorem addMemory_generated_appends (content : string) (metadata : option Metadata)
    (st : State) (t : Table) :
  hasTable st t ->
  exists extra,
    w_memories (after (addMemory content metadata None st))
      = Some {| dim := dim t; rows := (rows t ++ extra)%list |} /\
    match outcome (addMemory content metadata None st) with
    | Return id =>
        exists record,
          extra = [record] /\ rec_id record = id /\
          rec_content record = trim content
    | Throw _ => extra = []
    end.
Proof.
  intros Htable.
  destruct (addMemory_generated content metadata st t Htable)
    as [(e & st' & -> & Hmem)|(id & st' & record & -> & Hmem & Hid & Hcontent & _)].
  - exists []. unfold outcome, after. cbn [fst snd].
    rewrite app_nil_r, table_eta. auto.
  - exists [record]. unfold outcome, after. cbn [fst snd].
    split; [exact Hmem|]. exists record. auto.
Qed.

Lemma addMemory_generated_appends_witness :
  option_map (fun t => map rec_content (rows t))
    (w_memories (after (addMemory " new " None None twoUnderOneId)))
  = Some ["second"; "third!"; "new"].
Proof.
  destruct (addMemory_generated_appends " new " None twoUnderOneId
              {| dim := 2;
                 rows := match w_memories twoUnderOneId with
                         | Some t => rows t
                         | None => []
                         end |})
    as (extra & Hmem & Hout).
  - split; [reflexivity|discriminate].
  - rewrite Hmem. cbn [option_map rows].
    assert (Hreturn : exists id, outcome (addMemory " new " None None twoUnderOneId)
                                 = Return id) by (eexists; vm_compute; reflexivity).
    destruct Hreturn as (id & Hreturn). rewrite Hreturn in Hout.
    destruct Hout as (record & -> & _ & Hcontent).
    rewrite map_app. cbn [map]. rewrite Hcontent. reflexivity.
Defined.

(** X14: the store tool never overwrites.  On a store with a table its
    [execute] either throws and leaves the rows as they are, or answers
    [Stored: "preview"], the preview being the given text cut at 80
    characters, and has appended one record: the trimmed text, with the
    given category (the detected one when none is given) as [type] and
    [clawdbot_tool] as [source]. *)
Theorem storeTool_appends (detectCategory : string -> string) (text : string)
    (category : option string) (st : State) (t : Table) :
  hasTable st t ->
  match outcome (storeTool_execute detectCategory text category st) with
  | Throw _ =>
      w_memories (after (storeTool_execute detectCategory text category st)) = Some t
  | Return answer =>
      answer = String.append "Stored: "
                 (String dquote (String.append (limitText text 80)
                                   (String dquote EmptyString))) /\
      exists record,
        w_memories (after (storeTool_execute detectCategory text category st))
          = Some {| dim := dim t; rows := (rows t ++ [record])%list |} /\
        rec_content record = trim text /\
        rec_metadata record =
          JsonOf [("type", SString (match category with
                                    | Some c => c
                                    | None => detectCategory text
                                    end));
                  ("source", SString "clawdbot_tool")]
  end.
Proof.
  intros Htable.
  unfold storeTool_execute. cbv zeta. rewrite bind_run.
  destruct (addMemory_generated text
              (Some [("type", SString (match category with
                                        | Some c => c
                                        | None => detectCategory text
                                        end));
                     ("source", SString "clawdbot_tool")]) st t Htable)
    as [(e & st' & -> & Hmem)|(id & st' & record & -> & Hmem & _ & Hcontent & Hmeta)].
  - exact Hmem.
  - unfold outcome, after, ret. cbn [fst snd].
    split; [reflexivity|]. exists record. auto.
Qed.

Lemma storeTool_appends_witness :
  outcome (storeTool_execute (fun _ => "fact") "likes tea" None twoUnderOneId)
  = Return (String.append "Stored: "
              (String dquote (String.append "likes tea" (String dquote EmptyString)))).
Proof.
  pose proof (storeTool_appends (fun _ => "fact") "likes tea" None twoUnderOneId
                {| dim := 2;
                   rows := match w_memories twoUnderOneId with
                           | Some t => rows t
                           | None => []
                           end |}) as H.
  assert (Hreturn : exists answer,
            outcome (storeTool_execute (fun _ => "fact") "likes tea" None twoUnderOneId)
            = Return answer) by (eexists; vm_compute; reflexivity).
  destruct Hreturn as (answer & Hreturn). rewrite Hreturn in H |- *.
  destruct H as (-> & _); [split; [reflexivity|discriminate]|].
  reflexivity.
Defined.

(** * Properties of the configuration *)

(** ** The tag of the default paths *)

Example sanitizeTag_hostname :
  sanitizeTag "clawdbot_my-box.local" = "clawdbot_my_box_local".
Proof. reflexivity. Qed.

Example sanitizeTag_edges : sanitizeTag "__a--b__" = "a_b".
Proof. reflexivity. Qed.

Lemma isTagChar_underscore : isTagChar underscore = true.
Proof. reflexivity. Qed.

Lemma replaceOthers_tagChars (s : string) :
  forallb isTagChar (list_ascii_of_string (replaceOthers s)) = true.
Proof.
  induction s as [|c s IH]; [reflexivity|].
  cbn [replaceOthers list_ascii_of_string forallb]. rewrite IH, andb_true_r.
  destruct (isTagChar c) eqn:Hc; [exact Hc|reflexivity].
Qed.

Lemma collapse_cons_other (c : ascii) (s : string) :
  Ascii.eqb c underscore = false ->
  collapseUnderscores (String c s) = String c (collapseUnderscores s).
Proof. intros Hc. cbn [collapseUnderscores]. now rewrite Hc. Qed.

Lemma collapseUnderscores_tagChars (s : string) :
  forallb isTagChar (list_ascii_of_string s) = true ->
  forallb isTagChar (list_ascii_of_string (collapseUnderscores s)) = true.
Proof.
  induction s as [|c s IH]; [reflexivity|].
  cbn [list_ascii_of_string forallb]. intros H.
  apply andb_true_iff in H. destruct H as [Hc Hs]. specialize (IH Hs).
  cbn [collapseUnderscores].
  destruct (Ascii.eqb c underscore).
  - destruct s as [|d s']; [cbn; now rewrite Hc|].
    destruct (Ascii.eqb d underscore); [exact IH|].
    cbn [list_ascii_of_string forallb]. now rewrite Hc, IH.
  - cbn [list_ascii_of_string forallb]. now rewrite Hc, IH.
Qed.

Lemma noDoubleUnderscore_cons (c d : ascii) (s : string) :
  noDoubleUnderscore (String c (String d s)) =
  negb (Ascii.eqb c underscore && Ascii.eqb d underscore)
  && noDoubleUnderscore (String d s).
Proof. reflexivity. Qed.

Lemma collapseUnderscores_noDouble (s : string) :
  noDoubleUnderscore (collapseUnderscores s) = true.
Proof.
  induction s as [|c s IH]; [reflexivity|].
  cbn [collapseUnderscores].
  destruct (Ascii.eqb c underscore) eqn:Hc.
  - destruct s as [|d s']; [reflexivity|].
    destruct (Ascii.eqb d underscore) eqn:Hd; [exact IH|].
    rewrite (collapse_cons_other d s' Hd) in *.
    rewrite noDoubleUnderscore_cons. now rewrite Hd, andb_false_r, IH.
  - cbn [noDoubleUnderscore].
    destruct (collapseUnderscores s) as [|e r]; [reflexivity|].
    now rewrite Hc, IH.
Qed.

Lemma dropLastUnderscore_cons (c d : ascii) (s : string) :
  dropLastUnderscore (String c (String d s)) = String c (dropLastUnderscore (String d s)).
Proof. reflexivity. Qed.

Lemma dropLastUnderscore_tagChars (s : string) :
  forallb isTagChar (list_ascii_of_string s) = true ->
  forallb isTagChar (list_ascii_of_string (dropLastUnderscore s)) = true.
Proof.
  induction s as [|c s IH]; [reflexivity|].
  cbn [list_ascii_of_string forallb]. intros H.
  apply andb_true_iff in H. destruct H as [Hc Hs]. specialize (IH Hs).
  destruct s as [|d s'].
  - cbn [dropLastUnderscore]. destruct (Ascii.eqb c underscore); [reflexivity|].
    cbn. now rewrite Hc.
  - rewrite dropLastUnderscore_cons.
    cbn [list_ascii_of_string forallb]. now rewrite Hc, IH.
Qed.

(** In a tag without doubled underscores [dropLastUnderscore] keeps the
    first character when there is one left. *)
Lemma dropLastUnderscore_first (s : string) :
  noDoubleUnderscore s = true ->
  firstIsUnderscore s = false ->
  firstIsUnderscore (dropLastUnderscore s) = false.
Proof.
  destruct s as [|c [|d s']]; intros Hno Hfirst; try reflexivity.
  - cbn in *. now rewrite Hfirst.
  - rewrite dropLastUnderscore_cons. exact Hfirst.
Qed.

Lemma dropLastUnderscore_noDouble (s : string) :
  noDoubleUnderscore s = true ->
  noDoubleUnderscore (dropLastUnderscore s) = true.
Proof.
  induction s as [|c s IH]; [reflexivity|].
  destruct s as [|d s'].
  - intros _. cbn [dropLastUnderscore]. now destruct (Ascii.eqb c underscore).
  - intros H. rewrite noDoubleUnderscore_cons in H.
    apply andb_true_iff in H. destruct H as [Hcd Hs]. specialize (IH Hs).
    rewrite dropLastUnderscore_cons.
    destruct s' as [|e s''].
    + cbn [dropLastUnderscore].
      destruct (Ascii.eqb d underscore) eqn:Hd; [reflexivity|].
      rewrite noDoubleUnderscore_cons, Hd, andb_false_r. reflexivity.
    + rewrite dropLastUnderscore_cons in *.
      rewrite noDoubleUnderscore_cons. now rewrite Hcd, IH.
Qed.

Lemma dropLastUnderscore_last (s : string) :
  noDoubleUnderscore s = true ->
  lastIsUnderscore (dropLastUnderscore s) = false.
Proof.
  induction s as [|c s IH]; [reflexivity|].
  destruct s as [|d s'].
  - intros _. cbn [dropLastUnderscore].
    destruct (Ascii.eqb c underscore) eqn:Hc; [reflexivity|]. cbn. exact Hc.
  - intros H. rewrite noDoubleUnderscore_cons in H.
    apply andb_true_iff in H. destruct H as [Hcd Hs]. specialize (IH Hs).
    rewrite dropLastUnderscore_cons.
    destruct s' as [|e s''].
    + cbn [dropLastUnderscore] in *.
      destruct (Ascii.eqb d underscore) eqn:Hd.
      * cbn. rewrite andb_true_r in Hcd. now apply negb_true_iff in Hcd.
      * cbn. exact Hd.
    + rewrite dropLastUnderscore_cons in *. exact IH.
Qed.

Lemma noDoubleUnderscore_tail (c : ascii) (s : string) :
  noDoubleUnderscore (String c s) = true -> noDoubleUnderscore s = true.
Proof.
  destruct s as [|d s']; [reflexivity|].
  rewrite noDoubleUnderscore_cons. intros H.
  apply andb_true_iff in H. now destruct H.
Qed.

Lemma stripEdgeUnderscores_clean (s : string) :
  forallb isTagChar (list_ascii_of_string s) = true ->
  noDoubleUnderscore s = true ->
  cleanTag (stripEdgeUnderscores s) = true.
Proof.
  intros Htag Hno. unfold cleanTag.
  destruct s as [|c s']; [reflexivity|].
  cbn [stripEdgeUnderscores].
  destruct (Ascii.eqb c underscore) eqn:Hc.
  - cbn [list_ascii_of_string forallb] in Htag.
    apply andb_true_iff in Htag. destruct Htag as [_ Htag].
    pose proof (noDoubleUnderscore_tail _ _ Hno) as Hno'.
    rewrite (dropLastUnderscore_tagChars _ Htag),
      (dropLastUnderscore_noDouble _ Hno'), (dropLastUnderscore_last _ Hno').
    rewrite dropLastUnderscore_first; [reflexivity|exact Hno'|].
    destruct s' as [|d s'']; [reflexivity|].
    rewrite noDoubleUnderscore_cons in Hno. cbn [firstIsUnderscore].
    rewrite Hc in Hno. cbn [andb] in Hno.
    apply andb_true_iff in Hno. destruct Hno as [Hd _].
    now apply negb_true_iff in Hd.
  - rewrite (dropLastUnderscore_tagChars _ Htag),
      (dropLastUnderscore_noDouble _ Hno), (dropLastUnderscore_last _ Hno).
    rewrite dropLastUnderscore_first; [reflexivity|exact Hno|exact Hc].
Qed.

Lemma replaceOthers_fixed (s : string) :
  forallb isTagChar (list_ascii_of_string s) = true -> replaceOthers s = s.
Proof.
  induction s as [|c s IH]; [reflexivity|].
  cbn [list_ascii_of_string forallb]. intros H.
  apply andb_true_iff in H. destruct H as [Hc Hs].
  cbn [replaceOthers]. now rewrite Hc, IH.
Qed.

Lemma collapseUnderscores_fixed (s : string) :
  noDoubleUnderscore s = true -> collapseUnderscores s = s.
Proof.
  induction s as [|c s IH]; [reflexivity|].
  intros H. pose proof (noDoubleUnderscore_tail _ _ H) as Hs. specialize (IH Hs).
  cbn [collapseUnderscores].
  destruct (Ascii.eqb c underscore) eqn:Hc; [|now rewrite IH].
  destruct s as [|d s']; [reflexivity|].
  rewrite noDoubleUnderscore_cons in H. rewrite Hc in H. cbn [andb] in H.
  apply andb_true_iff in H. destruct H as [Hd _]. apply negb_true_iff in Hd.
  now rewrite Hd, IH.
Qed.

Lemma dropLastUnderscore_fixed (s : string) :
  lastIsUnderscore s = false -> dropLastUnderscore s = s.
Proof.
  induction s as [|c s IH]; [reflexivity|].
  destruct s as [|d s'].
  - cbn. now intros ->.
  - intros H. rewrite dropLastUnderscore_cons. cbn [lastIsUnderscore] in H.
    now rewrite IH.
Qed.

Lemma sanitizeTag_fixed_point (s : string) : cleanTag s = true -> sanitizeTag s = s.
Proof.
  unfold cleanTag. intros H.
  apply andb_true_iff in H. destruct H as [H Hlast].
  apply andb_true_iff in H. destruct H as [H Hfirst].
  apply andb_true_iff in H. destruct H as [Htag Hno].
  apply negb_true_iff in Hlast, Hfirst.
  unfold sanitizeTag.
  rewrite (replaceOthers_fixed _ Htag), (collapseUnderscores_fixed _ Hno).
  destruct s as [|c s']; [reflexivity|].
  cbn [stripEdgeUnderscores]. cbn [firstIsUnderscore] in Hfirst. rewrite Hfirst.
  now apply dropLastUnderscore_fixed.
Qed.

Lemma sanitizeTag_cleanTag (raw : string) : cleanTag (sanitizeTag raw) = true.
Proof.
  unfold sanitizeTag. apply stripEdgeUnderscores_clean.
  - apply collapseUnderscores_tagChars, replaceOthers_tagChars.
  - apply collapseUnderscores_noDouble.
Qed.

Lemma collapseUnderscores_nonempty (c : ascii) (s : string) :
  collapseUnderscores (String c s) <> EmptyString.
Proof.
  revert c. induction s as [|d s IH]; intros c.
  - cbn. now destruct (Ascii.eqb c underscore).
  - cbn [collapseUnderscores].
    destruct (Ascii.eqb c underscore); [|discriminate].
    destruct (Ascii.eqb d underscore) eqn:Hd; [|discriminate].
    specialize (IH d). cbn [collapseUnderscores] in IH.
    rewrite Hd in IH. exact IH.
Qed.

Lemma sanitizeTag_prefixed (raw : string) :
  exists rest,
    sanitizeTag (String.append "clawdbot_" raw) = String.append "clawdbot" rest.
Proof.
  unfold sanitizeTag.
  cbn [String.append replaceOthers isTagChar].
  change (if isTagChar "c" then "c"%char else underscore) with "c"%char.
  change (if isTagChar "l" then "l"%char else underscore) with "l"%char.
  change (if isTagChar "a" then "a"%char else underscore) with "a"%char.
  change (if isTagChar "w" then "w"%char else underscore) with "w"%char.
  change (if isTagChar "d" then "d"%char else underscore) with "d"%char.
  change (if isTagChar "b" then "b"%char else underscore) with "b"%char.
  change (if isTagChar "o" then "o"%char else underscore) with "o"%char.
  change (if isTagChar "t" then "t"%char else underscore) with "t"%char.
  change (if isTagChar "_" then "_"%char else underscore) with underscore.
  remember (collapseUnderscores (String underscore (replaceOthers raw))) as tail eqn:Htail.
  assert (Hcollapse :
    collapseUnderscores
      (String "c" (String "l" (String "a" (String "w" (String "d" (String "b"
        (String "o" (String "t" (String underscore (replaceOthers raw))))))))))
    = String "c" (String "l" (String "a" (String "w" (String "d" (String "b"
        (String "o" (String "t" tail)))))))).
  { subst tail. reflexivity. }
  rewrite Hcollapse.
  assert (Hnonempty : exists u tail', tail = String u tail').
  { subst tail.
    destruct (collapseUnderscores (String underscore (replaceOthers raw)))
      as [|u t] eqn:E; [|eauto].
    exfalso. revert E. apply collapseUnderscores_nonempty. }
  destruct Hnonempty as (u & tail' & ->).
  eexists. cbn [stripEdgeUnderscores].
  change (Ascii.eqb "c" underscore) with false. cbn iota.
  rewrite !dropLastUnderscore_cons. reflexivity.
Qed.

(** X15: the tag [sanitizeTag] makes is safe as a directory name, whatever
    it is given: it holds letters, digits and underscores only, no two
    underscores in a row and no underscore at either end; and sanitizing
    it again changes nothing. *)
Theorem sanitizeTag_shape (raw : string) :
  cleanTag (sanitizeTag raw) = true /\
  sanitizeTag (sanitizeTag raw) = sanitizeTag raw.
Proof.
  split; [apply sanitizeTag_cleanTag|].
  apply sanitizeTag_fixed_point, sanitizeTag_cleanTag.
Qed.

(** X16: a tag that already has that shape (letters, digits and single
    inner underscores) is returned as it is. *)
Theorem sanitizeTag_keeps_clean (raw : string) :
  cleanTag raw = true -> sanitizeTag raw = raw.
Proof.
  apply sanitizeTag_fixed_point.
Qed.

Lemma sanitizeTag_keeps_clean_witness :
  cleanTag "my_box" = true /\ sanitizeTag "my_box" = "my_box".
Proof.
  split; [reflexivity|].
  apply (sanitizeTag_keeps_clean "my_box"). reflexivity.
Defined.

(** X17: the two default paths lie in one directory named after the host:
    both are joined from the home directory, [.clawdbot], [memory] and the
    same tag, which is clean and starts with [clawdbot] whatever the host
    name is (an empty one included); they differ in the last part only. *)
Theorem defaultPaths_share_tag (e : Env) :
  exists tag rest,
    tag = String.append "clawdbot" rest /\
    cleanTag tag = true /\
    defaultDbPath e =
      pathJoin e [homedir e; ".clawdbot"; "memory"; tag; "lancedb"] /\
    defaultProfilePath e =
      pathJoin e [homedir e; ".clawdbot"; "memory"; tag; "profile.json"].
Proof.
  destruct (sanitizeTag_prefixed (hostname e)) as [rest Hrest].
  exists (sanitizeTag (String.append "clawdbot_" (hostname e))), rest.
  split; [exact Hrest|].
  split; [apply sanitizeTag_cleanTag|].
  split; reflexivity.
Qed.

(** ** References to the environment ([resolveEnvVars]) *)

Lemma append_assoc (a b c : string) :
  String.append (String.append a b) c = String.append a (String.append b c).
Proof.
  induction a as [|x a IH]; [reflexivity|].
  cbn [String.append]. now rewrite IH.
Qed.

Lemma append_empty_r (a : string) : String.append a EmptyString = a.
Proof.
  induction a as [|x a IH]; [reflexivity|].
  cbn [String.append]. now rewrite IH.
Qed.

Lemma hasClosingBrace_cons (c : ascii) (s : string) :
  hasClosingBrace (String c s) = Ascii.eqb "}" c || hasClosingBrace s.
Proof. reflexivity. Qed.

Lemma hasDollar_cons (c : ascii) (s : string) :
  hasDollar (String c s) = Ascii.eqb "$" c || hasDollar s.
Proof. reflexivity. Qed.

(** An opened reference that is never closed stays as text. *)
Lemma resolveFrom_unclosed (env : string -> option string) (s n : string) :
  hasClosingBrace s = false ->
  resolveFrom env (Some n) s
  = Return (String.append "${" (String.append n s)).
Proof.
  revert n. induction s as [|c s IH]; intros n Hs.
  - cbn [resolveFrom]. now rewrite append_empty_r.
  - rewrite hasClosingBrace_cons in Hs. apply orb_false_iff in Hs.
    destruct Hs as [Hc Hs]. rewrite Ascii.eqb_sym in Hc.
    cbn [resolveFrom]. rewrite Hc, (IH _ Hs), append_assoc. reflexivity.
Qed.

Lemma resolveFrom_noBrace (env : string -> option string) (s : string) :
  hasClosingBrace s = false -> resolveFrom env None s = Return s.
Proof.
  induction s as [|c s IH]; intros Hs; [reflexivity|].
  rewrite hasClosingBrace_cons in Hs. apply orb_false_iff in Hs.
  destruct Hs as [_ Hs]. specialize (IH Hs).
  cbn [resolveFrom]. rewrite IH.
  destruct (Ascii.eqb c "$") eqn:Hc; [|reflexivity].
  destruct s as [|b s']; [reflexivity|].
  destruct (Ascii.eqb b "{") eqn:Hb; [|reflexivity].
  apply Ascii.eqb_eq in Hc, Hb. subst c b.
  rewrite hasClosingBrace_cons in Hs. apply orb_false_iff in Hs.
  destruct Hs as [_ Hs].
  now rewrite (resolveFrom_unclosed env s' EmptyString Hs).
Qed.

Lemma resolveFrom_noDollar (env : string -> option string) (pre s : string) :
  hasDollar pre = false ->
  resolveFrom env None (String.append pre s)
  = prepend pre (resolveFrom env None s).
Proof.
  induction pre as [|c pre IH]; intros Hpre.
  - cbn [String.append]. unfold prepend. cbn [String.append].
    now destruct (resolveFrom env None s).
  - rewrite hasDollar_cons in Hpre. apply orb_false_iff in Hpre.
    destruct Hpre as [Hc Hpre]. rewrite Ascii.eqb_sym in Hc.
    cbn [String.append resolveFrom]. rewrite Hc, (IH Hpre).
    unfold prepend. now destruct (resolveFrom env None s).
Qed.

(** The name of a reference is read up to the first closing brace. *)
Lemma resolveFrom_name (env : string -> option string) (name n rest : string) :
  hasClosingBrace name = false ->
  resolveFrom env (Some n) (String.append name (String "}" rest))
  = resolveFrom env (Some (String.append n name)) (String "}" rest).
Proof.
  revert n. induction name as [|c name IH]; intros n Hname.
  - cbn [String.append]. now rewrite append_empty_r.
  - rewrite hasClosingBrace_cons in Hname. apply orb_false_iff in Hname.
    destruct Hname as [Hc Hname]. rewrite Ascii.eqb_sym in Hc.
    cbn [String.append]. cbn [resolveFrom]. rewrite Hc.
    rewrite (IH _ Hname), append_assoc. reflexivity.
Qed.

Lemma resolveFrom_reference (env : string -> option string) (name rest : string) :
  name <> EmptyString -> hasClosingBrace name = false ->
  resolveFrom env None
    (String.append "${" (String.append name (String "}" rest)))
  = match env name with
    | Some (String v vs) => prepend (String v vs) (resolveFrom env None rest)
    | _ => Throw (ErrorObj (String.append "Environment variable "
                              (String.append name " is not set")))
    end.
Proof.
  intros Hne Hname.
  change (resolveFrom env None
            (String.append "${" (String.append name (String "}" rest))))
    with (resolveFrom env (Some EmptyString)
            (String.append name (String "}" rest))).
  rewrite (resolveFrom_name env name EmptyString rest Hname).
  cbn [String.append resolveFrom].
  change (Ascii.eqb "}" "}") with true. cbn iota.
  destruct name as [|c name]; [contradiction|].
  destruct (env (String c name)) as [[|v vs]|]; reflexivity.
Qed.

(** X18: a text with no dollar sign, or with no closing brace, holds no
    reference: [resolveEnvVars] returns it as it is, whatever the
    environment. *)
Theorem resolveEnvVars_plain (env : string -> option string) (value : string) :
  hasDollar value = false \/ hasClosingBrace value = false ->
  resolveEnvVars env value = Return value.
Proof.
  unfold resolveEnvVars. intros [H|H].
  - rewrite <- (append_empty_r value) at 1.
    rewrite (resolveFrom_noDollar env value EmptyString H).
    cbn. now rewrite append_empty_r.
  - now apply resolveFrom_noBrace.
Qed.

Lemma resolveEnvVars_plain_witness :
  resolveEnvVars (processEnv homeEnv) "http://127.0.0.1:11434"
  = Return "http://127.0.0.1:11434".
Proof.
  apply (resolveEnvVars_plain (processEnv homeEnv) "http://127.0.0.1:11434").
  left. reflexivity.
Defined.

(** X19: the first reference of a text, a dollar sign, an opening brace, a
    name of at least one character and a closing brace, is replaced by the
    value of the variable of that name, and the value is not read again for
    references; what follows is resolved in the same way.  When the
    variable is not set, or set to the empty string, the call throws
    [Environment variable NAME is not set] and what follows does not
    matter. *)
Theorem resolveEnvVars_reference (env : string -> option string)
    (pre name rest : string) :
  hasDollar pre = false -> name <> EmptyString -> hasClosingBrace name = false ->
  resolveEnvVars env
    (String.append pre
       (String.append "${" (String.append name (String "}" rest))))
  = match env name with
    | Some (String v vs) =>
        prepend (String.append pre (String v vs)) (resolveEnvVars env rest)
    | _ => Throw (ErrorObj (String.append "Environment variable "
                              (String.append name " is not set")))
    end.
Proof.
  intros Hpre Hne Hname. unfold resolveEnvVars.
  rewrite (resolveFrom_noDollar env pre _ Hpre).
  rewrite (resolveFrom_reference env name rest Hne Hname).
  destruct (env name) as [[|v vs]|]; try reflexivity.
  unfold prepend. destruct (resolveFrom env None rest); [|reflexivity].
  now rewrite append_assoc.
Qed.

Lemma resolveEnvVars_reference_witness :
  resolveEnvVars (processEnv homeEnv) "x${HOST}/y${EMPTY}"
  = Throw (ErrorObj "Environment variable EMPTY is not set").
Proof.
  apply (resolveEnvVars_reference (processEnv homeEnv) "x" "HOST" "/y${EMPTY}");
    [reflexivity | discriminate | reflexivity].
Defined.

(** ** Reading the configuration ([parseConfig]) *)

Lemma length_pos_cons {A} (l : list A) :
  (0 <? List.length l) = match l with [] => false | _ => true end.
Proof. now destruct l. Qed.

Lemma parseConfig_known (e : Env) (raw : JsValue) :
  match raw with JObject fields => unknownKeys fields = [] | _ => True end ->
  parseConfig e raw
  = let cfg := match raw with JObject fields => fields | _ => [] end in
    match (match getField "ollamaHost" cfg with
           | JString s => resolveEnvVars (processEnv e) s
           | _ =>
               Return (match processEnv e "OLLAMA_HOST" with
                       | Some h => h
                       | None => "http://127.0.0.1:11434"
                       end)
           end) with
    | Throw err => Throw err
    | Return ollamaHost =>
        Return
          {| cfg_ollamaHost := ollamaHost;
             cfg_ollamaModel :=
               match getField "ollamaModel" cfg with
               | JString s => s
               | _ =>
                   match processEnv e "OLLAMA_EMBED_MODEL" with
                   | Some m => m
                   | None => "nomic-embed-text"
                   end
               end;
             cfg_dbPath :=
               match getField "dbPath" cfg with
               | JString s => expandPath e s
               | _ => defaultDbPath e
               end;
             cfg_profilePath :=
               match getField "profilePath" cfg with
               | JString s => expandPath e s
               | _ => defaultProfilePath e
               end;
             cfg_autoRecall := orDefault (getField "autoRecall" cfg) (JBoolean true);
             cfg_autoCapture := orDefault (getField "autoCapture" cfg) (JBoolean true);
             cfg_maxRecallResults :=
               orDefault (getField "maxRecallResults" cfg) (JNumber 10);
             cfg_profileFrequency :=
               orDefault (getField "profileFrequency" cfg) (JNumber 50);
             cfg_captureMode :=
               match getField "captureMode" cfg with
               | JString "everything" => Everything
               | _ => All
               end;
             cfg_debug := orDefault (getField "debug" cfg) (JBoolean false) |}
    end.
Proof.
  intros Hknown. unfold parseConfig.
  assert (Hcheck :
    (if 0 <? List.length (map fst match raw with JObject fields => fields | _ => [] end)
     then assertAllowedKeys match raw with JObject fields => fields | _ => [] end
            ALLOWED_KEYS "localmemory config"
     else Return tt) = Return tt).
  { destruct raw as [| | | | | |fields];
      try reflexivity.
    unfold assertAllowedKeys. fold (unknownKeys fields). rewrite Hknown.
    now destruct (0 <? List.length (map fst fields)). }
  rewrite Hcheck. reflexivity.
Qed.

(** X20: a raw configuration with a key outside the ten allowed ones is
    refused before anything else is looked at: [parseConfig] throws
    [localmemory config has unknown keys:] and the unknown keys in the
    order of the object, joined by a comma and a space, whatever the
    environment and the other values are. *)
Theorem parseConfig_unknown_keys (e : Env) (fields : list (string * JsValue)) :
  unknownKeys fields <> [] ->
  parseConfig e (JObject fields)
  = Throw (ErrorObj (String.append "localmemory config has unknown keys: "
                       (String.concat ", " (unknownKeys fields)))).
Proof.
  intros Hunknown. unfold parseConfig, assertAllowedKeys.
  fold (unknownKeys fields).
  destruct fields as [|f fields]; [now contradiction Hunknown|].
  cbn [map List.length Nat.ltb Nat.leb].
  destruct (unknownKeys (f :: fields)) as [|k ks]; [now contradiction Hunknown|].
  reflexivity.
Qed.

Lemma parseConfig_unknown_keys_witness :
  parseConfig homeEnv
    (JObject [("foo", JNull); ("ollamaHost", JString "${EMPTY}"); ("bar", JNumber 1)])
  = Throw (ErrorObj "localmemory config has unknown keys: foo, bar").
Proof.
  apply (parseConfig_unknown_keys homeEnv
           [("foo", JNull); ("ollamaHost", JString "${EMPTY}"); ("bar", JNumber 1)]).
  discriminate.
Defined.

(** X21: [parseConfig] throws for two reasons only: the raw configuration
    is an object with an unknown key, or its [ollamaHost] is a string with
    a reference that [resolveEnvVars] refuses, whose error it is then.
    Anything else, a raw value that is no object or values of the wrong
    type included, gives a configuration. *)
Theorem parseConfig_throws_only (e : Env) (raw : JsValue) (err : Thrown) :
  parseConfig e raw = Throw err ->
  exists fields,
    raw = JObject fields /\
    (unknownKeys fields <> [] \/
     exists s, getField "ollamaHost" fields = JString s /\
               resolveEnvVars (processEnv e) s = Throw err).
Proof.
  intros Hthrow.
  destruct raw as [| |b|q|s|items|fields];
    try (rewrite parseConfig_known in Hthrow by exact I; discriminate).
  exists fields. split; [reflexivity|].
  destruct (unknownKeys fields) as [|k ks] eqn:Hunknown; [|left; discriminate].
  right. rewrite parseConfig_known in Hthrow by exact Hunknown.
  cbv zeta in Hthrow.
  destruct (getField "ollamaHost" fields) as [| |b|q|s|items|fs] eqn:Hhost;
    try discriminate.
  exists s. split; [reflexivity|].
  destruct (resolveEnvVars (processEnv e) s) as [h|err']; [discriminate|].
  now injection Hthrow as ->.
Qed.

Lemma parseConfig_throws_only_witness :
  exists fields,
    JObject [("ollamaHost", JString "${EMPTY}")] = JObject fields /\
    (unknownKeys fields <> [] \/
     exists s, getField "ollamaHost" fields = JString s /\
               resolveEnvVars (processEnv homeEnv) s
               = Throw (ErrorObj "Environment variable EMPTY is not set")).
Proof.
  apply (parseConfig_throws_only homeEnv
           (JObject [("ollamaHost", JString "${EMPTY}")])
           (ErrorObj "Environment variable EMPTY is not set")).
  reflexivity.
Defined.

(** X22: an empty [OLLAMA_HOST] is taken as the host when the
    configuration names none, while the same variable referred to from
    the configuration is refused as not set. *)
Theorem parseConfig_empty_host (e : Env) :
  processEnv e "OLLAMA_HOST" = Some EmptyString ->
  (exists c, parseConfig e JUndefined = Return c /\
             cfg_ollamaHost c = EmptyString) /\
  parseConfig e (JObject [("ollamaHost", JString "${OLLAMA_HOST}")])
  = Throw (ErrorObj "Environment variable OLLAMA_HOST is not set").
Proof.
  intros Hhost. split.
  - eexists. split; [reflexivity|]. cbn. now rewrite Hhost.
  - rewrite parseConfig_known by reflexivity. cbv zeta.
    change (getField "ollamaHost" [("ollamaHost", JString "${OLLAMA_HOST}")])
      with (JString "${OLLAMA_HOST}").
    cbv iota.
    unfold resolveEnvVars. cbn [resolveFrom Ascii.eqb Bool.eqb String.append].
    now rewrite Hhost.
Qed.

Lemma parseConfig_empty_host_witness :
  parseConfig emptyHostEnv (JObject [("ollamaHost", JString "${OLLAMA_HOST}")])
  = Throw (ErrorObj "Environment variable OLLAMA_HOST is not set").
Proof.
  exact (proj2 (parseConfig_empty_host emptyHostEnv eq_refl)).
Defined.

(** ** The command line *)

Lemma getProfile_facts (query : option string) (st : State) (r : ProfileResult) :
  outcome (getProfile query st) = Return r ->
  pr_static r = static (priorProfile st) /\
  pr_dynamic r = dynamic (priorProfile st).
Proof.
  destruct (ensureInitialized_flags st) as (Hinit & _).
  destruct (ensureInitialized_world st) as (_ & Hprofile & _).
  assert (Hprior : priorProfile (after (ensureInitialized st)) = priorProfile st).
  { unfold priorProfile. now rewrite Hprofile. }
  rewrite getProfile_after_init, (getProfile_initialized query _ Hinit), Hprior.
  rewrite bind_run.
  match goal with
  | |- context [match ?m ?s with _ => _ end] => destruct (m s) as [[rs|e] s1]
  end; cbn [outcome fst ret]; [|discriminate].
  intros H. injection H as <-. split; reflexivity.
Qed.

Lemma getProfile_noQuery (st : State) :
  outcome (getProfile None st)
  = Return {| pr_static := static (priorProfile st);
              pr_dynamic := dynamic (priorProfile st);
              pr_searchResults := [] |} /\
  w_calls (after (getProfile None st)) = w_calls st.
Proof.
  destruct (ensureInitialized_flags st) as (Hinit & _).
  destruct (ensureInitialized_world st) as (_ & Hprofile & Hcalls & _).
  assert (Hprior : priorProfile (after (ensureInitialized st)) = priorProfile st).
  { unfold priorProfile. now rewrite Hprofile. }
  rewrite getProfile_after_init, (getProfile_initialized None _ Hinit), Hprior.
  split; [reflexivity|exact Hcalls].
Qed.

Lemma cliProfile_run (query : option string) (st : State) :
  cliProfile query st
  = match getProfile query st with
    | (Return profile, s) =>
        (Return (profileLines {| static := pr_static profile;
                                 dynamic := pr_dynamic profile;
                                 lastUpdated := None |}), s)
    | (Throw e, s) => (Throw e, s)
    end.
Proof.
  unfold cliProfile. rewrite bind_run.
  destruct (getProfile query st) as [[profile|e] s]; [|reflexivity].
  unfold profileLines, factLines. cbn [static dynamic].
  destruct (pr_static profile) as [|f fs]; destruct (pr_dynamic profile) as [|g gs];
    reflexivity.
Qed.

(** X23: [localmemory profile] prints the profile file and nothing else.
    Without [--query] it prints the stable facts of the file under
    [Stable Preferences:] and its dynamic facts under [Recent Context:],
    each fact after two spaces, a dash and a space, a heading without
    facts being left out, or the one line
    [No profile information available yet.] when the file holds no fact,
    is missing or does not parse; it sends nothing to the embedding
    service.  With [--query] it either fails or prints these very
    lines. *)
Theorem cliProfile_ignores_query (query : option string) (st : State) :
  outcome (cliProfile None st) = Return (profileLines (priorProfile st)) /\
  w_calls (after (cliProfile None st)) = w_calls st /\
  (forall lines,
     outcome (cliProfile query st) = Return lines ->
     lines = profileLines (priorProfile st)).
Proof.
  destruct (getProfile_noQuery st) as [Hnone Hcalls].
  assert (Hshown : forall p : UserProfile,
            profileLines {| static := static p; dynamic := dynamic p;
                            lastUpdated := None |} = profileLines p)
    by reflexivity.
  rewrite !cliProfile_run.
  split; [|split].
  - destruct (getProfile None st) as [[p0|e0] s0];
      cbn [outcome fst] in Hnone |- *; [|discriminate].
    injection Hnone as ->. cbn [pr_static pr_dynamic]. now rewrite Hshown.
  - destruct (getProfile None st) as [[p0|e0] s0];
      cbn [after snd] in Hcalls |- *; exact Hcalls.
  - intros lines.
    pose proof (getProfile_facts query st) as Hfacts.
    destruct (getProfile query st) as [[p|e] s];
      cbn [outcome fst] in *; [|discriminate].
    destruct (Hfacts p eq_refl) as [-> ->].
    rewrite Hshown. intros H. now injection H as <-.
Qed.

Lemma wipeAllMemories_hasTable (st : State) (t : Table) :
  hasTable st t ->
  outcome (wipeAllMemories st) = Return (List.length (rows t)) /\
  w_memories (after (wipeAllMemories st)) = None /\
  table (after (wipeAllMemories st)) = false.
Proof.
  intros Htable.
  destruct (hasTable_after_init st t Htable) as (Hinit & Hdb & Hhandle & Hmem).
  unfold wipeAllMemories at 1 2 3. rewrite init_twice.
  fold wipeAllMemories.
  rewrite (wipeAllMemories_run _ t Hinit Hdb Hhandle Hmem).
  repeat split.
Qed.

(** X24: [localmemory wipe] deletes only on a plain yes.  An answer that
    is not [yes] once trimmed and put in lower case prints [Aborted.] and
    leaves the client and the store exactly as they were, the client not
    even initialized.  On [yes], with a table of [n] rows in the store,
    it prints [Wiped n memories.] and the table is gone. *)
Theorem cliWipe_confirms (answer : string) (st : State) (t : Table) :
  hasTable st t ->
  (toLowerCase (trim answer) <> "yes" ->
   cliWipe answer st = (Return ["Aborted."], st)) /\
  (toLowerCase (trim answer) = "yes" ->
   outcome (cliWipe answer st)
   = Return [String.append "Wiped "
               (String.append (string_of_nat (List.length (rows t))) " memories.")] /\
   w_memories (after (cliWipe answer st)) = None).
Proof.
  intros Htable. unfold cliWipe. split.
  - intros Hno. apply String.eqb_neq in Hno. now rewrite Hno.
  - intros Hyes. apply String.eqb_eq in Hyes. rewrite Hyes. cbn [negb].
    destruct (wipeAllMemories_hasTable st t Htable) as (Hout & Hmem & _).
    rewrite bind_run.
    destruct (wipeAllMemories st) as [[n|e] s];
      cbn [outcome fst after snd] in *; [|discriminate].
    injection Hout as ->. split; [reflexivity|exact Hmem].
Qed.

Lemma cliWipe_confirms_witness :
  outcome (cliWipe " YES " twoUnderOneId) = Return ["Wiped 2 memories."] /\
  cliWipe "y" twoUnderOneId = (Return ["Aborted."], twoUnderOneId).
Proof.
  destruct (cliWipe_confirms " YES " twoUnderOneId
              {| dim := 2;
                 rows := match w_memories twoUnderOneId with
                         | Some t => rows t
                         | None => []
                         end |}) as [_ Hyes].
  { split; [reflexivity|discriminate]. }
  destruct (cliWipe_confirms "y" twoUnderOneId
              {| dim := 2;
                 rows := match w_memories twoUnderOneId with
                         | Some t => rows t
                         | None => []
                         end |}) as [Hno _].
  { split; [reflexivity|discriminate]. }
  split.
  - destruct (Hyes eq_refl) as [Hout _]. exact Hout.
  - apply Hno. discriminate.
Defined.
